(** * Helper scripts of the multiloader template: a shallow embedding

    The repository holds five Python scripts: [add_service.py],
    [open_libs.py], [set_minecraft_version.py], [setup_mod.py] and the
    aggregate [moddy.py], which repeats the other four as sub-commands.

    Conventions of the embedding.
    - A Python [str] is a [string]; characters are the 8-bit characters of
      [ascii], and the character classes ([str.strip], [str.upper],
      [str.isdigit], [\s]) are those of Python on ASCII text.
    - A call that may raise returns a [result]; [try]/[except Exception]
      is [try_except].
    - The file system is a finite map from paths to the text of the file
      stored there.  Directories are implicit:
      [mkdir(parents=True, exist_ok=True)] leaves the map unchanged and a
      write stores its text.
    - The network is a function from a URL to what [fetch_url_text] does
      there: raise, or return a body.  A body carries its text together
      with what [ET.fromstring] and [json.loads] make of it, since both
      parsers are library code. *)

From Stdlib Require Import ZArith Ascii Strings.Byte Lia.
From stdpp Require Import gmap strings list sorting.

#[local] Set Warnings "-register-all".

(** ** Python values and exceptions *)

Module Py.

(** The exceptions the scripts can meet.  [SystemExit] is the only one
    here that [except Exception] lets through. *)
Inductive exn : Type :=
  | SystemExit (msg : string)
  | RuntimeError (msg : string)
  | TypeError
  | KeyError
  | ValueError
  | AttributeError
  | IndexError
  | ParseError
  | JSONDecodeError
  | URLError
  | OSError
  | ReError.

Inductive result (A : Type) : Type :=
  | Ok (a : A)
  | Raise (e : exn).
Arguments Ok {A} a.
Arguments Raise {A} e.

Definition bind {A B : Type} (k : A -> result B) (m : result A) : result B :=
  match m with
  | Ok a => k a
  | Raise e => Raise e
  end.

#[global] Instance result_ret : MRet result := @Ok.
#[global] Instance result_bind : MBind result := @bind.

Definition is_Exception (e : exn) : bool :=
  match e with
  | SystemExit _ => false
  | _ => true
  end.

(** [try: m except Exception: h] *)
Definition try_except {A : Type} (m : result A) (h : result A) : result A :=
  match m with
  | Ok a => Ok a
  | Raise e => if is_Exception e then h else Raise e
  end.

Definition raises {A : Type} (m : result A) : Prop :=
  match m with
  | Ok _ => False
  | Raise _ => True
  end.

(** *** Characters *)

Definition chr (n : nat) : ascii := ascii_of_nat n.
Definition ord (c : ascii) : nat := nat_of_ascii c.

Definition in_range (lo hi : nat) (c : ascii) : bool :=
  (lo <=? ord c)%nat && (ord c <=? hi)%nat.

Definition is_digit (c : ascii) : bool := in_range 48 57 c.
Definition is_upper (c : ascii) : bool := in_range 65 90 c.
Definition is_lower (c : ascii) : bool := in_range 97 122 c.
Definition is_alpha (c : ascii) : bool := is_upper c || is_lower c.

(** [str.isspace] on ASCII: tab, newline, vertical tab, form feed,
    carriage return, the four separators 0x1c..0x1f and the space. *)
Definition is_space (c : ascii) : bool :=
  in_range 9 13 c || in_range 28 32 c.

Definition upper_char (c : ascii) : ascii :=
  if is_lower c then chr (ord c - 32) else c.
Definition lower_char (c : ascii) : ascii :=
  if is_upper c then chr (ord c + 32) else c.

(** *** Strings *)

Fixpoint map_str (f : ascii -> ascii) (s : string) : string :=
  match s with
  | EmptyString => EmptyString
  | String c s' => String (f c) (map_str f s')
  end.

Definition upper (s : string) : string := map_str upper_char s.
Definition lower (s : string) : string := map_str lower_char s.

Fixpoint all_chars (p : ascii -> bool) (s : string) : bool :=
  match s with
  | EmptyString => true
  | String c s' => p c && all_chars p s'
  end.

Definition is_empty (s : string) : bool :=
  match s with
  | EmptyString => true
  | String _ _ => false
  end.

(** Truthiness of a string: [bool(s)]. *)
Definition truthy (s : string) : bool := negb (is_empty s).

(** [s.startswith(p)] *)
Definition startswith (s p : string) : bool := String.prefix p s.

(** [s[len(p):]] when [s.startswith(p)] *)
Fixpoint strip_prefix (p s : string) : option string :=
  match p, s with
  | EmptyString, _ => Some s
  | String a p', String b s' => if Ascii.eqb a b then strip_prefix p' s' else None
  | String _ _, EmptyString => None
  end.

(** [sub in s] *)
Fixpoint contains (s sub : string) : bool :=
  startswith s sub
  || match s with
     | EmptyString => false
     | String _ s' => contains s' sub
     end.

(** The longest prefix whose characters satisfy [p], and the rest. *)
Fixpoint span (p : ascii -> bool) (s : string) : string * string :=
  match s with
  | EmptyString => (EmptyString, EmptyString)
  | String c s' =>
      if p c then let (a, b) := span p s' in (String c a, b)
      else (EmptyString, s)
  end.

Fixpoint drop_while (p : ascii -> bool) (s : string) : string :=
  match s with
  | EmptyString => EmptyString
  | String c s' => if p c then drop_while p s' else s
  end.

(** [s.lstrip()], [s.rstrip()], [s.strip()] *)
Definition lstrip (s : string) : string := drop_while is_space s.
Definition rstrip (s : string) : string :=
  String.rev (drop_while is_space (String.rev s)).
Definition strip (s : string) : string := rstrip (lstrip s).

(** [s.split(sep)] for a separator of one character: the pieces between
    the separators, never an empty list. *)
Fixpoint split_on (p : ascii -> bool) (s : string) : list string :=
  match s with
  | EmptyString => [EmptyString]
  | String c s' =>
      if p c then EmptyString :: split_on p s'
      else match split_on p s' with
           | piece :: rest => String c piece :: rest
           | [] => [String c EmptyString]
           end
  end.

Definition split (sep : ascii) (s : string) : list string :=
  split_on (Ascii.eqb sep) s.

(** [sep.join(pieces)] *)
Fixpoint join (sep : string) (pieces : list string) : string :=
  match pieces with
  | [] => EmptyString
  | [x] => x
  | x :: rest => x +:+ sep +:+ join sep rest
  end.

(** [s.replace(old, new)]: the occurrences of [old] found from the left,
    none overlapping another, each become [new].  An empty [old] occurs
    before every character and at the end. *)
Fixpoint replace_go (fuel : nat) (old new s : string) : string :=
  match fuel with
  | O => s
  | S fuel' =>
      match strip_prefix old s with
      | Some rest => new +:+ replace_go fuel' old new rest
      | None =>
          match s with
          | EmptyString => EmptyString
          | String c s' => String c (replace_go fuel' old new s')
          end
      end
  end.

Fixpoint replace_empty (new s : string) : string :=
  match s with
  | EmptyString => new
  | String c s' => new +:+ String c (replace_empty new s')
  end.

Definition replace (s old new : string) : string :=
  if is_empty old then replace_empty new s
  else replace_go (S (String.length s)) old new s.

(** *** Integers *)

Definition digit_val (c : ascii) : Z := Z.of_nat (ord c - 48).

(** Value of a run of decimal digits, most significant first. *)
Fixpoint digits_val (acc : Z) (s : string) : Z :=
  match s with
  | EmptyString => acc
  | String c s' => digits_val (10 * acc + digit_val c) s'
  end.

(** The digit groups that [int] accepts: digits, with single underscores
    between digits only. *)
Fixpoint int_body (prev_digit : bool) (s : string) : bool :=
  match s with
  | EmptyString => prev_digit
  | String c s' =>
      if is_digit c then int_body true s'
      else if Ascii.eqb c "_" then prev_digit && int_body false s'
      else false
  end.

Fixpoint remove_char (x : ascii) (s : string) : string :=
  match s with
  | EmptyString => EmptyString
  | String c s' => if Ascii.eqb c x then remove_char x s' else String c (remove_char x s')
  end.

Definition int_unsigned (s : string) : result Z :=
  if int_body false s then Ok (digits_val 0 (remove_char "_" s))
  else Raise ValueError.

(** [int(s)]: surrounding white space, an optional sign, decimal digits. *)
Definition int (s : string) : result Z :=
  match strip s with
  | String "-" s' => n ← int_unsigned s'; Ok (- n)%Z
  | String "+" s' => int_unsigned s'
  | s' => int_unsigned s'
  end.

Definition digit_char (d : Z) : ascii := chr (48 + Z.to_nat d).

Fixpoint nat_digits (fuel : nat) (n : Z) (acc : string) : string :=
  match fuel with
  | O => acc
  | S fuel' =>
      let acc' := String (digit_char (n mod 10)) acc in
      if (n <? 10)%Z then acc' else nat_digits fuel' (n / 10) acc'
  end.

(** [str(n)] for an integer. *)
Definition str_of_int (n : Z) : string :=
  if (n <? 0)%Z then String "-" (nat_digits (S (Z.to_nat (Z.log2 (- n)))) (- n) EmptyString)
  else nat_digits (S (Z.to_nat (Z.log2 n))) n EmptyString.

(** [s.isdigit()] on ASCII text. *)
Definition isdigit (s : string) : bool := truthy s && all_chars is_digit s.

(** *** URLs *)

Definition hex_digit (n : nat) : ascii :=
  if (n <? 10)%nat then chr (48 + n) else chr (55 + n).

Definition is_unreserved (c : ascii) : bool :=
  is_alpha c || is_digit c
  || Ascii.eqb c "_" || Ascii.eqb c "." || Ascii.eqb c "-" || Ascii.eqb c "~".

(** [urllib.parse.quote(s, safe="")] *)
Fixpoint quote (s : string) : string :=
  match s with
  | EmptyString => EmptyString
  | String c s' =>
      if is_unreserved c then String c (quote s')
      else String "%" (String (hex_digit (ord c / 16)) (String (hex_digit (ord c mod 16)) (quote s')))
  end.

(** *** Lists of strings *)

(** [l[-1]] *)
Definition last_item {A : Type} (l : list A) : result A :=
  match last l with
  | Some x => Ok x
  | None => Raise IndexError
  end.

(** The first element on which [f] answers, with the answer. *)
Fixpoint first_some {A B : Type} (f : A -> option B) (l : list A) : option B :=
  match l with
  | [] => None
  | x :: l' =>
      match f x with
      | Some y => Some y
      | None => first_some f l'
      end
  end.

(** [l.sort()] on strings: ascending in the order of [<] on [str], which
    compares character by character. *)
Definition sort (l : list string) : list string := merge_sort String.le l.

End Py.

(** ** The regular expressions of the scripts

    Each pattern the scripts hand to [re] is embedded as the matcher it
    denotes.  None of them needs backtracking: wherever a repetition is
    followed by something, the two character classes are disjoint, so
    the longest run is the only one that can match. *)

Module Re.
Import Py.

Definition newline : ascii := "010"%char.
Definition backslash : ascii := "092"%char.
Definition dquote : ascii := "034"%char.

(** The lines [(?m)^] and [$] delimit: the pieces between newlines. *)
Definition lines (text : string) : list string := split newline text.
Definition unlines (ls : list string) : string := join (String newline "") ls.

(** *** [<version>([^<]+)</version>] *)

Definition not_lt (c : ascii) : bool := negb (Ascii.eqb c "<").

(** A match at the very start of [s]: group 1 and the text after the match. *)
Definition match_version (s : string) : option (string * string) :=
  match strip_prefix "<version>" s with
  | None => None
  | Some r =>
      let (g, r') := span not_lt r in
      if is_empty g then None
      else match strip_prefix "</version>" r' with
           | None => None
           | Some r'' => Some (g, r'')
           end
  end.

Fixpoint findall_version_go (fuel : nat) (s : string) : list string :=
  match fuel with
  | O => []
  | S fuel' =>
      match match_version s with
      | Some (g, rest) => g :: findall_version_go fuel' rest
      | None =>
          match s with
          | EmptyString => []
          | String _ s' => findall_version_go fuel' s'
          end
      end
  end.

(** [re.findall] with this pattern: group 1 of every match, from the left. *)
Definition findall_version (text : string) : list string :=
  findall_version_go (S (String.length text)) text.

(** *** [label:\s*([0-9.]+)] *)

Definition is_digit_or_dot (c : ascii) : bool := is_digit c || Ascii.eqb c ".".

Definition match_label (label s : string) : option string :=
  match strip_prefix (label +:+ ":") s with
  | None => None
  | Some r =>
      let g := fst (span is_digit_or_dot (drop_while is_space r)) in
      if is_empty g then None else Some g
  end.

(** [re.search] with this pattern, then [m.group(1)] *)
Fixpoint search_label (label html : string) : option string :=
  match match_label label html with
  | Some g => Some g
  | None =>
      match html with
      | EmptyString => None
      | String _ html' => search_label label html'
      end
  end.

(** *** The pattern of [cmd_update]: the word MODDY_VERSION, white space,
    an equals sign, white space, a single or double quote, one or more
    characters that are no quote (group 1), and a quote. *)




(** *** [^[A-Za-z_][A-Za-z0-9_]*$] *)

Definition is_name_start (c : ascii) : bool := is_alpha c || Ascii.eqb c "_".
Definition is_name_char (c : ascii) : bool := is_name_start c || is_digit c.

(** [re.match] with this pattern: without [re.MULTILINE] the [$] also
    matches just before a newline that ends the string. *)
Definition match_service_name (name : string) : bool :=
  match name with
  | EmptyString => false
  | String c rest =>
      is_name_start c
      && match span is_name_char rest with
         | (_, EmptyString) => true
         | (_, String n EmptyString) => Ascii.eqb n newline
         | _ => false
         end
  end.

(** *** [^group=(.+)$] with [re.MULTILINE] *)

Definition match_property (key line : string) : option string :=
  match strip_prefix (key +:+ "=") line with
  | Some v => if is_empty v then None else Some v
  | None => None
  end.

(** [re.search] with this pattern, then [m.group(1)]: the rest of the
    first line that starts with [group=] and goes on. *)
Definition search_group (text : string) : option string :=
  first_some (match_property "group") (lines text).

(** *** [re.split] at [[.-]] and at [[_\-\s]+] *)

Definition is_dot_or_dash (c : ascii) : bool := Ascii.eqb c "." || Ascii.eqb c "-".
Definition split_dot_dash (v : string) : list string := split_on is_dot_or_dash v.

Definition is_word_sep (c : ascii) : bool :=
  Ascii.eqb c "_" || Ascii.eqb c "-" || is_space c.

(** Splitting at each run of separators: a run of several separators is
    one cut. *)
Fixpoint split_runs (p : ascii -> bool) (in_run : bool) (s : string) : list string :=
  match s with
  | EmptyString => [EmptyString]
  | String c s' =>
      if p c then
        if in_run then split_runs p true s'
        else EmptyString :: split_runs p true s'
      else match split_runs p false s' with
           | piece :: rest => String c piece :: rest
           | [] => [String c EmptyString]
           end
  end.

Definition split_word_seps (value : string) : list string :=
  split_runs is_word_sep false value.

(** *** Replacement templates of [re.sub]

    [re.sub] compiles its replacement before it looks for a match.  A
    replacement without a backslash stands for itself; after a backslash
    come the escapes [\a \b \f \n \r \t \v \\], octal codes, and group
    references.  The patterns here have no group, so the only reference
    that compiles is [\g<0>], the whole match. *)

Inductive tpart : Type :=
  | Lit (c : ascii)
  | WholeMatch.

Definition is_octal (c : ascii) : bool := in_range 48 55 c.

Definition escape_char (c : ascii) : option ascii :=
  if Ascii.eqb c "a" then Some (chr 7)
  else if Ascii.eqb c "b" then Some (chr 8)
  else if Ascii.eqb c "f" then Some (chr 12)
  else if Ascii.eqb c "n" then Some (chr 10)
  else if Ascii.eqb c "r" then Some (chr 13)
  else if Ascii.eqb c "t" then Some (chr 9)
  else if Ascii.eqb c "v" then Some (chr 11)
  else if Ascii.eqb c backslash then Some backslash
  else None.

Definition octal_val (s : string) : nat :=
  (fix go (acc : nat) (s : string) : nat :=
     match s with
     | EmptyString => acc
     | String c s' => go (8 * acc + (ord c - 48))%nat s'
     end) 0%nat s.

(** What follows [\g]: a group name between angle brackets; only a
    decimal spelling of 0 names a group of a pattern without groups. *)
Definition group_ref (s : string) : result (tpart * string) :=
  match s with
  | String "<" r =>
      match span (fun c => negb (Ascii.eqb c ">")) r with
      | (name, String _ rest) =>
          if is_empty name then Raise ReError
          else if all_chars is_digit name then
            if (digits_val 0 name =? 0)%Z then Ok (WholeMatch, rest)
            else Raise ReError
          else if is_name_start (match name with String c _ => c | _ => "_"%char end)
                  && all_chars is_name_char name
               then Raise IndexError
               else Raise ReError
      | (_, EmptyString) => Raise ReError
      end
  | _ => Raise ReError
  end.

(** One escape, the backslash already read: the parts it stands for and
    the template after it. *)
Definition escape (s : string) : result (list tpart * string) :=
  match s with
  | EmptyString => Raise ReError
  | String c r =>
      if Ascii.eqb c "g" then
        '(p, rest) ← group_ref r; Ok ([p], rest)
      else if Ascii.eqb c "0" then
        match r with
        | String d1 (String d2 rest) =>
            if is_octal d1 && is_octal d2
            then Ok ([Lit (chr (octal_val (String d1 (String d2 "")) mod 256))], rest)
            else if is_octal d1
            then Ok ([Lit (chr (octal_val (String d1 "")))], String d2 rest)
            else Ok ([Lit (chr 0)], r)
        | String d1 rest =>
            if is_octal d1
            then Ok ([Lit (chr (octal_val (String d1 "")))], rest)
            else Ok ([Lit (chr 0)], r)
        | EmptyString => Ok ([Lit (chr 0)], r)
        end
      else if is_digit c then
        match r with
        | String d1 (String d2 rest) =>
            if is_octal c && is_octal d1 && is_octal d2 then
              let v := octal_val (String c (String d1 (String d2 ""))) in
              if (255 <? v)%nat then Raise ReError else Ok ([Lit (chr v)], rest)
            else Raise ReError
        | _ => Raise ReError
        end
      else
        match escape_char c with
        | Some e => Ok ([Lit e], r)
        | None =>
            if is_alpha c then Raise ReError
            else Ok ([Lit backslash; Lit c], r)
        end
  end.

Fixpoint parse_template_go (fuel : nat) (s : string) : result (list tpart) :=
  match fuel with
  | O => Ok []
  | S fuel' =>
      match s with
      | EmptyString => Ok []
      | String c r =>
          if Ascii.eqb c backslash then
            '(ps, rest) ← escape r;
            more ← parse_template_go fuel' rest;
            Ok (ps ++ more)
          else
            more ← parse_template_go fuel' r;
            Ok (Lit c :: more)
      end
  end.

Definition parse_template (repl : string) : result (list tpart) :=
  parse_template_go (S (String.length repl)) repl.

Fixpoint expand (t : list tpart) (whole : string) : string :=
  match t with
  | [] => EmptyString
  | Lit c :: t' => String c (expand t' whole)
  | WholeMatch :: t' => whole +:+ expand t' whole
  end.

(** *** [(?m)^key=.*$]

    [re.escape(key)] is [key] itself for the keys used, which are made
    of letters and underscores.  A match starts a line, and the dot stops
    at the newline, so a match is a whole line that starts with [key=]. *)
Definition sub_line (t : list tpart) (key line : string) : string :=
  if startswith line (key +:+ "=") then expand t line else line.

(** [re.sub(rf"(?m)^{re.escape(key)}=.*$", repl, text)] *)
Definition sub_property (key repl text : string) : result string :=
  t ← parse_template repl;
  Ok (unlines (map (sub_line t key) (lines text))).

End Re.

(** ** Parsed documents *)

(** What [xml.etree.ElementTree] gives for a document: an element has a
    tag, a text that is [None] when the element has none, and children. *)
Module ET.
Import Py.

Inductive element : Type :=
  | Element (tag : string) (text : option string) (children : list element).

Definition tag (e : element) : string := let (t, _, _) := e in t.
Definition text (e : element) : option string := let (_, t, _) := e in t.
Definition children (e : element) : list element := let (_, _, c) := e in c.

(** One step of a path: the children with that tag, in document order. *)
Definition step (name : string) (es : list element) : list element :=
  flat_map (fun e => List.filter (fun c => String.eqb (tag c) name) (children e)) es.

(** [root.findall(path)] for a path of child steps; a leading [.] is the
    root itself. *)
Definition findall (root : element) (path : list string) : list element :=
  fold_left (fun es name => step name es) path [root].

(** [root.findtext(path)]: the text of the first match, the empty string
    when it has none, and [None] without a match. *)
Definition findtext (root : element) (path : list string) : option string :=
  match findall root path with
  | [] => None
  | e :: _ => Some (default EmptyString (text e))
  end.

End ET.

(** What [json.loads] gives.  Numbers are integers here; a dictionary
    lists its items in order, each key once. *)
Module Json.
Import Py.

Inductive value : Type :=
  | JNone
  | JBool (b : bool)
  | JInt (n : Z)
  | JStr (s : string)
  | JList (items : list value)
  | JDict (items : list (string * value)).

Fixpoint lookup (key : string) (items : list (string * value)) : option value :=
  match items with
  | [] => None
  | (k, v) :: rest => if String.eqb k key then Some v else lookup key rest
  end.

(** [v[key]] for a string [key] *)
Definition getitem (v : value) (key : string) : result value :=
  match v with
  | JDict items =>
      match lookup key items with
      | Some x => Ok x
      | None => Raise KeyError
      end
  | _ => Raise TypeError
  end.

(** [v.get(key)] *)
Definition get (v : value) (key : string) : result value :=
  match v with
  | JDict items => Ok (default JNone (lookup key items))
  | _ => Raise AttributeError
  end.

(** [bool(v)] *)
Definition truthy (v : value) : bool :=
  match v with
  | JNone => false
  | JBool b => b
  | JInt n => negb (n =? 0)%Z
  | JStr s => Py.truthy s
  | JList items => negb (length items =? 0)%nat
  | JDict items => negb (length items =? 0)%nat
  end.

Fixpoint chars (s : string) : list value :=
  match s with
  | EmptyString => []
  | String c s' => JStr (String c EmptyString) :: chars s'
  end.

(** [for x in v] *)
Definition iterate (v : value) : result (list value) :=
  match v with
  | JList items => Ok items
  | JDict items => Ok (map (fun kv => JStr (fst kv)) items)
  | JStr s => Ok (chars s)
  | _ => Raise TypeError
  end.

Definition as_int (v : value) : option Z :=
  match v with
  | JInt n => Some n
  | JBool b => Some (if b then 1 else 0)%Z
  | _ => None
  end.

(** [a == b]: numbers by value, dictionaries whatever the order of their items. *)
Fixpoint eqb (a b : value) {struct a} : bool :=
  match a, b with
  | JNone, JNone => true
  | JStr s, JStr t => String.eqb s t
  | JList xs, JList ys =>
      (fix go (xs ys : list value) {struct xs} : bool :=
         match xs, ys with
         | [], [] => true
         | x :: xs', y :: ys' => eqb x y && go xs' ys'
         | _, _ => false
         end) xs ys
  | JDict xs, JDict ys =>
      (length xs =? length ys)%nat
      && (fix go (xs : list (string * value)) {struct xs} : bool :=
            match xs with
            | [] => true
            | (k, x) :: xs' =>
                match lookup k ys with
                | Some y => eqb x y
                | None => false
                end && go xs'
            end) xs
  | _, _ =>
      match as_int a, as_int b with
      | Some m, Some n => (m =? n)%Z
      | _, _ => false
      end
  end.

(** [a > b]: defined between numbers, between strings, and between
    lists (at the first place where the items differ, else by length). *)
Fixpoint gt (a b : value) {struct a} : result bool :=
  match a, b with
  | JStr s, JStr t => Ok (String.ltb t s)
  | JList xs, JList ys =>
      (fix go (xs ys : list value) {struct xs} : result bool :=
         match xs, ys with
         | [], _ => Ok false
         | _ :: _, [] => Ok true
         | x :: xs', y :: ys' => if eqb x y then go xs' ys' else gt x y
         end) xs ys
  | _, _ =>
      match as_int a, as_int b with
      | Some m, Some n => Ok (n <? m)%Z
      | _, _ => Raise TypeError
      end
  end.

End Json.

(** ** [pathlib] on POSIX

    A path is a root and its components.  Reading a string drops empty
    components and the components that are a single dot; joining an
    absolute string to a path gives the path of that string alone. *)

Module Pathlib.
Import Py.

Record path : Type := Path {
  root : string;
  parts : list string;
}.

#[global] Instance path_eq_dec : EqDecision path.
Proof. solve_decision. Defined.

#[global] Instance path_countable : Countable path :=
  inj_countable' (fun p => (root p, parts p)) (fun rp => Path (fst rp) (snd rp))
                 (fun p => match p with Path _ _ => eq_refl end).

Definition is_component (s : string) : bool :=
  negb (is_empty s) && negb (String.eqb s ".").

(** Two leading slashes are a root of their own; one, or three and more,
    are the root [/]. *)
Definition root_of (s : string) : string :=
  match s with
  | String "/" (String "/" (String "/" _)) => "/"
  | String "/" (String "/" _) => "//"
  | String "/" _ => "/"
  | _ => ""
  end.

(** [Path(s)] *)
Definition of_str (s : string) : path :=
  Path (root_of s) (List.filter is_component (split "/" s)).

(** [p / s] *)
Definition div (p : path) (s : string) : path :=
  let q := of_str s in
  if is_empty (root q) then Path (root p) (parts p ++ parts q) else q.

(** [str(p)] *)
Definition render (p : path) : string :=
  match root p, parts p with
  | EmptyString, [] => "."
  | r, ps => r +:+ join "/" ps
  end.

(** [p.name] *)
Definition name (p : path) : string := default EmptyString (last (parts p)).




End Pathlib.

Infix "</>" := Pathlib.div (at level 40, left associativity).

(** ** The network and the file system *)

Module World.
Import Py Pathlib.

(** A response body: its text, and the document the two library parsers
    read from it ([None] when the parser raises). *)
Record body : Type := Body {
  text : string;
  as_xml : option ET.element;
  as_json : option Json.value;
}.

(** What a GET of a URL does: [None] when it raises. *)
Definition network : Type := string -> option body.

(** [fetch_url_text(url)] *)
Definition fetch_url_text (net : network) (url : string) : result body :=
  match net url with
  | Some b => Ok b
  | None => Raise URLError
  end.

(** [ET.fromstring(xml_text)] *)
Definition ET_fromstring (b : body) : result ET.element :=
  match as_xml b with
  | Some root => Ok root
  | None => Raise ParseError
  end.

(** [json.loads(text)] *)
Definition json_loads (b : body) : result Json.value :=
  match as_json b with
  | Some v => Ok v
  | None => Raise JSONDecodeError
  end.

(** The files, by path. *)
Abbreviation filesystem := (gmap path string).

(** [path.exists()] *)
Definition exists_ (fs : filesystem) (p : path) : bool := bool_decide (is_Some (fs !! p)).

(** [path.read_text(encoding="utf-8")] *)
Definition read_text (fs : filesystem) (p : path) : result string :=
  match fs !! p with
  | Some t => Ok t
  | None => Raise OSError
  end.

(** [path.write_text(content, encoding="utf-8")] *)
Definition write_text (fs : filesystem) (p : path) (content : string) : filesystem :=
  <[p := content]> fs.

End World.

(** ** [scripts/set_minecraft_version.py] *)

Module SetMinecraftVersion.
Import Py Re Pathlib World.

Definition is_stable_artifact (v : string) : bool :=
  negb (contains v "-rc") && negb (contains v "-pre").

Definition get_artifact_latest (net : network) (meta_url mc_version : string)
  : result (option string) :=
  match fetch_url_text net meta_url with
  | Raise e => if is_Exception e then Ok None else Raise e
  | Ok xml_text =>
      let versions := findall_version (text xml_text) in
      let prefix := mc_version +:+ "-" in
      let candidates := List.filter (fun v => startswith v prefix) versions in
      match candidates with
      | [] => Ok None
      | _ :: _ =>
          let stable := List.filter is_stable_artifact candidates in
          let versions := match stable with [] => candidates | _ :: _ => stable end in
          let versions := sort versions in
          v ← last_item versions; Ok (Some v)
      end
  end.

Definition neoform_url : string :=
  "https://maven.neoforged.net/releases/net/neoforged/neoform/maven-metadata.xml".

Definition get_neoform_version (net : network) (mc : string) : result (option string) :=
  get_artifact_latest net neoform_url mc.

Definition neoforge_url : string :=
  "https://maven.neoforged.net/releases/net/neoforged/neoforge/maven-metadata.xml".

Definition is_stable_neoforge (v : string) : bool :=
  negb (contains v "-beta") && negb (contains v "-rc").

(** [v.text.startswith(mc_prefix)], which needs a text *)
Definition text_startswith (mc_prefix : string) (v : ET.element) : result bool :=
  match ET.text v with
  | Some t => Ok (startswith t mc_prefix)
  | None => Raise AttributeError
  end.

(** [[v.text for v in elems if v.text.startswith(mc_prefix)]] *)
Fixpoint texts_with_prefix (mc_prefix : string) (elems : list ET.element)
  : result (list string) :=
  match elems with
  | [] => Ok []
  | v :: rest =>
      keep ← text_startswith mc_prefix v;
      more ← texts_with_prefix mc_prefix rest;
      Ok (if (keep : bool) then default EmptyString (ET.text v) :: more else more)
  end.

Definition get_neoforge_version (net : network) (mc : string) : result (option string) :=
  match fetch_url_text net neoforge_url with
  | Raise e => if is_Exception e then Ok None else Raise e
  | Ok xml_text =>
      root ← ET_fromstring xml_text;
      let mc_prefix := join "." (take 2 (drop 1 (split "." mc))) in
      versions ← texts_with_prefix mc_prefix
                   (ET.findall root ["versioning"; "versions"; "version"]);
      match versions with
      | [] => Ok None
      | _ :: _ =>
          let stable := List.filter is_stable_neoforge versions in
          let versions := match stable with [] => versions | _ :: _ => stable end in
          v ← last_item versions; Ok (Some v)
      end
  end.

Definition parchment_url (mc : string) : string :=
  "https://maven.parchmentmc.org/org/parchmentmc/data/parchment-" +:+ mc
  +:+ "/maven-metadata.xml".

Definition get_parchment_version (net : network) (mc : string) : result (option string) :=
  try_except
    (xml_text ← fetch_url_text net (parchment_url mc);
     root ← ET_fromstring xml_text;
     Ok (ET.findtext root ["versioning"; "latest"]))
    (Ok None).

Definition fabric_loader_url (mc : string) : string :=
  "https://meta.fabricmc.net/v2/versions/loader/" +:+ mc.

(** [[e["loader"]["version"] for e in data if e["loader"].get("stable")]] *)
Fixpoint stable_loaders (data : list Json.value) : result (list Json.value) :=
  match data with
  | [] => Ok []
  | e :: rest =>
      loader ← Json.getitem e "loader";
      flag ← Json.get loader "stable";
      if Json.truthy flag then
        loader ← Json.getitem e "loader";
        version ← Json.getitem loader "version";
        more ← stable_loaders rest;
        Ok (version :: more)
      else stable_loaders rest
  end.

(** [int(x) if x.isdigit() else x], for each piece of the version *)
Fixpoint ver_parts (pieces : list string) : result (list Json.value) :=
  match pieces with
  | [] => Ok []
  | x :: rest =>
      part ← (if isdigit x then n ← int x; Ok (Json.JInt n) else Ok (Json.JStr x));
      more ← ver_parts rest;
      Ok (part :: more)
  end.

(** [re.split] wants a string. *)
Definition ver_key (v : Json.value) : result Json.value :=
  match v with
  | Json.JStr s => parts ← ver_parts (split_dot_dash s); Ok (Json.JList parts)
  | _ => Raise TypeError
  end.

Fixpoint with_keys (vs : list Json.value) : result (list (Json.value * Json.value)) :=
  match vs with
  | [] => Ok []
  | v :: rest =>
      k ← ver_key v;
      more ← with_keys rest;
      Ok ((k, v) :: more)
  end.

(** [a < b] on keys *)
Definition key_lt (a b : Json.value) : result bool := Json.gt b a.

Fixpoint insert_by_key (x : Json.value * Json.value) (l : list (Json.value * Json.value))
  : result (list (Json.value * Json.value)) :=
  match l with
  | [] => Ok [x]
  | y :: l' =>
      before ← key_lt (fst y) (fst x);
      if (before : bool) then more ← insert_by_key x l'; Ok (y :: more)
      else Ok (x :: l)
  end.

(** [sorted(stable, key=ver_key)]: the keys first, then a stable sort in
    which every test of [<] that fails raises.  The tests are those of a
    straight insertion. *)
Definition sorted_by_ver_key (vs : list Json.value) : result (list Json.value) :=
  keyed ← with_keys vs;
  sorted ← foldr (fun x acc => l ← acc; insert_by_key x l) (Ok []) keyed;
  Ok (map snd sorted).

Definition get_fabric_loader_version (net : network) (mc : string) : result Json.value :=
  try_except
    (text ← fetch_url_text net (fabric_loader_url mc);
     data ← json_loads text;
     items ← Json.iterate data;
     stable ← stable_loaders items;
     match stable with
     | [] => Ok Json.JNone
     | _ :: _ => sorted ← sorted_by_ver_key stable; last_item sorted
     end)
    (Ok Json.JNone).

Definition modrinth_query (mc : string) : string :=
  quote ("[" +:+ String dquote mc +:+ String dquote "]").

Definition fabric_api_url (mc : string) : string :=
  "https://api.modrinth.com/v2/project/fabric-api/version?game_versions="
  +:+ modrinth_query mc.

(** [max(versions, key=lambda v: v["date_published"])] *)
Fixpoint max_by_date (best kbest : Json.value) (rest : list Json.value) : result Json.value :=
  match rest with
  | [] => Ok best
  | v :: rest' =>
      k ← Json.getitem v "date_published";
      newer ← Json.gt k kbest;
      if (newer : bool) then max_by_date v k rest' else max_by_date best kbest rest'
  end.

Definition latest_published (versions : list Json.value) : result Json.value :=
  match versions with
  | [] => Raise ValueError
  | v :: rest => k ← Json.getitem v "date_published"; max_by_date v k rest
  end.

Definition get_fabric_api_version (net : network) (mc : string) : result Json.value :=
  try_except
    (text ← fetch_url_text net (fabric_api_url mc);
     data ← json_loads text;
     versions ← Json.iterate data;
     latest ← latest_published versions;
     Json.getitem latest "version_number")
    (Ok Json.JNone).

Definition mod_menu_url (mc : string) : string :=
  "https://api.modrinth.com/v2/project/modmenu/version?game_versions="
  +:+ modrinth_query mc.

Definition get_mod_menu_version (net : network) (mc : string) : result Json.value :=
  try_except
    (text ← fetch_url_text net (mod_menu_url mc);
     data ← json_loads text;
     versions ← Json.iterate data;
     latest ← latest_published versions;
     Json.getitem latest "version_number")
    (Ok Json.JNone).

Definition forge_url (mc : string) : string :=
  "https://files.minecraftforge.net/net/minecraftforge/forge/index_" +:+ mc +:+ ".html".

Definition get_forge_version (net : network) (mc : string) : result (option string) :=
  match fetch_url_text net (forge_url mc) with
  | Raise e => if is_Exception e then Ok None else Raise e
  | Ok html => Ok (first_some (fun label => search_label label (text html))
                              ["Recommended"; "Latest"])
  end.

(** [None] or a string, as a value of the dictionary. *)
Definition of_option (v : option string) : Json.value :=
  match v with
  | Some s => Json.JStr s
  | None => Json.JNone
  end.

(** The dictionary display is evaluated item by item, in order. *)
Definition collect_versions (net : network) (mc : string)
  : result (list (string * Json.value)) :=
  neoform ← get_neoform_version net mc;
  neoforge ← get_neoforge_version net mc;
  parchment ← get_parchment_version net mc;
  fabric_loader ← get_fabric_loader_version net mc;
  fabric_api ← get_fabric_api_version net mc;
  mod_menu ← get_mod_menu_version net mc;
  forge ← get_forge_version net mc;
  Ok [("neoform_version", of_option neoform);
      ("neoforge_version", of_option neoforge);
      ("parchment_minecraft", Json.JStr mc);
      ("parchment_version", of_option parchment);
      ("fabric_loader_version", fabric_loader);
      ("fabric_version", fabric_api);
      ("mod_menu_version", mod_menu);
      ("forge_version", of_option forge)].

(** The dictionary handed to [apply_versions]: strings and [None]s.
    [versions.get(key)] is [None] for a key that is absent, too. *)
Abbreviation versions_dict := (gmap string (option string)).

Definition versions_get (versions : versions_dict) (key : string) : option string :=
  default None (versions !! key).

(** The upper end of the version range: the first component and the
    second plus one, or [mc] when there is no second component or [int]
    raises on it. *)
Definition next_minor_of (mc : string) : string :=
  let next_minor := split "." mc in
  if (2 <=? length next_minor)%nat then
    match int (default EmptyString (next_minor !! 1%nat)) with
    | Ok minor =>
        let next_minor := <[1%nat := str_of_int (minor + 1)]> next_minor in
        join "." (take 2 next_minor)
    | Raise _ => mc
    end
  else mc.

Definition replacements (mc : string) (versions : versions_dict)
  : list (string * option string) :=
  [("minecraft_version", Some mc);
   ("minecraft_version_range", Some ("[" +:+ mc +:+ ", " +:+ next_minor_of mc +:+ ")"));
   ("neo_form_version", versions_get versions "neoform_version");
   ("parchment_minecraft", Some mc);
   ("parchment_version", versions_get versions "parchment_version");
   ("fabric_loader_version", versions_get versions "fabric_loader_version");
   ("fabric_version", versions_get versions "fabric_version");
   ("mod_menu_version", versions_get versions "mod_menu_version");
   ("forge_version", versions_get versions "forge_version");
   ("neoforge_version", versions_get versions "neoforge_version");
   ("game_versions", Some mc)].

(** [not value] *)
Definition falsy (value : option string) : bool :=
  match value with
  | Some v => negb (truthy v)
  | None => true
  end.

(** One turn of the loop over [replacements.items()]. *)
Definition replace_property (text : string) (item : string * option string)
  : result string :=
  let (key, value) := item in
  if falsy value then Ok text
  else sub_property key (key +:+ "=" +:+ default EmptyString value) text.

Fixpoint replace_properties (text : string) (items : list (string * option string))
  : result string :=
  match items with
  | [] => Ok text
  | item :: rest => text' ← replace_property text item; replace_properties text' rest
  end.

(** The text [apply_versions] writes back, from the text it read. *)
Definition updated_text (mc : string) (versions : versions_dict) (text : string)
  : result string :=
  replace_properties text (replacements mc versions).

Definition apply_versions (fs : filesystem) (props_path : path) (mc : string)
    (versions : versions_dict) : result filesystem :=
  text ← read_text fs props_path;
  text' ← updated_text mc versions text;
  Ok (write_text fs props_path text').

End SetMinecraftVersion.

(** ** [scripts/add_service.py] *)

Module AddService.
Import Py Re World Pathlib.

Definition nl : string := String newline "".

(** [parse_group(props_path)] *)
Definition parse_group (fs : filesystem) (props_path : path) : result string :=
  text ← read_text fs props_path;
  match search_group text with
  | None => Raise (RuntimeError "Could not determine group property")
  | Some g => Ok (strip g)
  end.

(** A dictionary display: a key that comes again keeps its place and
    takes the later value. *)
Fixpoint dict_set (k : path) (v : string) (d : list (path * string))
  : list (path * string) :=
  match d with
  | [] => [(k, v)]
  | (k', v') :: d' =>
      if decide (k = k') then (k', v) :: d' else (k', v') :: dict_set k v d'
  end.

Definition dict_of (items : list (path * string)) : list (path * string) :=
  fold_left (fun d kv => dict_set (fst kv) (snd kv) d) items [].

(** The dictionary [files] of [main], from the group and the name. *)
Definition files (group name : string) : list (path * string) :=
  let pkg_path := replace group "." "/" in
  let service_fqn := group +:+ ".platform.services." +:+ name in
  let interface_path :=
    of_str "common/src/main/java" </> pkg_path </> "platform" </> "services"
      </> (name +:+ ".java") in
  let fabric_impl_path :=
    of_str "fabric/src/main/java" </> pkg_path </> "platform" </> ("Fabric" +:+ name +:+ ".java") in
  let forge_impl_path :=
    of_str "forge/src/main/java" </> pkg_path </> "platform" </> ("Forge" +:+ name +:+ ".java") in
  let neo_impl_path :=
    of_str "neoforge/src/main/java" </> pkg_path </> "platform" </> ("NeoForge" +:+ name +:+ ".java") in
  let fabric_meta := of_str "fabric/src/main/resources/META-INF/services" </> service_fqn in
  let forge_meta := of_str "forge/src/main/resources/META-INF/services" </> service_fqn in
  let neo_meta := of_str "neoforge/src/main/resources/META-INF/services" </> service_fqn in
  dict_of
    [(interface_path,
      "package " +:+ group +:+ ".platform.services;" +:+ nl +:+ nl
      +:+ "public interface " +:+ name +:+ " {" +:+ nl +:+ "}" +:+ nl);
     (fabric_impl_path,
      "package " +:+ group +:+ ".platform;" +:+ nl +:+ nl
      +:+ "import " +:+ service_fqn +:+ ";" +:+ nl +:+ nl
      +:+ "public class Fabric" +:+ name +:+ " implements " +:+ name +:+ " {" +:+ nl
      +:+ "}" +:+ nl);
     (forge_impl_path,
      "package " +:+ group +:+ ".platform;" +:+ nl +:+ nl
      +:+ "import " +:+ service_fqn +:+ ";" +:+ nl +:+ nl
      +:+ "public class Forge" +:+ name +:+ " implements " +:+ name +:+ " {" +:+ nl
      +:+ "}" +:+ nl);
     (neo_impl_path,
      "package " +:+ group +:+ ".platform;" +:+ nl +:+ nl
      +:+ "import " +:+ service_fqn +:+ ";" +:+ nl +:+ nl
      +:+ "public class NeoForge" +:+ name +:+ " implements " +:+ name +:+ " {" +:+ nl
      +:+ "}" +:+ nl);
     (fabric_meta, group +:+ ".platform.Fabric" +:+ name +:+ nl);
     (forge_meta, group +:+ ".platform.Forge" +:+ name +:+ nl);
     (neo_meta, group +:+ ".platform.NeoForge" +:+ name +:+ nl)].

(** [[str(p) for p in files if p.exists()]], before [str] *)
Definition existing (fs : filesystem) (files : list (path * string)) : list path :=
  List.filter (exists_ fs) (map fst files).

(** The loop that writes: each file in the order of the dictionary. *)
Definition write_files (fs : filesystem) (files : list (path * string)) : filesystem :=
  fold_left (fun fs kv => write_text fs (fst kv) (snd kv)) files fs.

(** [main(argv)], on the name given on the command line, the answer typed
    at the prompt and the files there are; the result is the files
    afterwards. *)
Definition main (name_arg answer : string) (fs : filesystem) : result filesystem :=
  let name := strip name_arg in
  if negb (match_service_name name) then
    Raise (SystemExit "Illegal characters in service name")
  else
    group ← parse_group fs (of_str "gradle.properties");
    let files := files group name in
    match existing fs files with
    | _ :: _ => Ok fs
    | [] =>
        if negb (String.eqb (lower answer) "y") then Ok fs
        else Ok (write_files fs files)
    end.

End AddService.

(** ** [zlib] and [struct] *)

Module Zlib.

Definition byte_of_Z (z : Z) : byte := byte_of_ascii (ascii_of_N (Z.to_N (z mod 256))).
Definition Z_of_byte (b : byte) : Z := Z.of_N (Byte.to_N b).

(** One bit of the register of the cyclic redundancy check. *)
Definition crc_shift (c : Z) : Z :=
  if Z.testbit c 0 then Z.lxor (Z.shiftr c 1) 0xEDB88320%Z else Z.shiftr c 1.

Definition crc_byte (c : Z) (b : byte) : Z :=
  Nat.iter 8 crc_shift (Z.lxor c (Z_of_byte b)).

(** [zlib.crc32(data)] *)
Definition crc32 (data : list byte) : Z :=
  Z.lxor (fold_left crc_byte data 0xFFFFFFFF%Z) 0xFFFFFFFF%Z.

(** [struct.pack('>I', n)]: four bytes, the most significant first; a
    value that does not fit raises. *)
Definition pack_I (n : Z) : Py.result (list byte) :=
  if (0 <=? n)%Z && (n <? 2 ^ 32)%Z then
    Py.Ok [byte_of_Z (Z.shiftr n 24); byte_of_Z (Z.shiftr n 16);
           byte_of_Z (Z.shiftr n 8); byte_of_Z n]
  else Py.Raise Py.ValueError.

(** [struct.pack('B', n)] *)
Definition pack_B (n : Z) : Py.result (list byte) :=
  if (0 <=? n)%Z && (n <? 256)%Z then Py.Ok [byte_of_Z n]
  else Py.Raise Py.ValueError.

(** The bytes of an ASCII literal. *)
Definition bytes_of (s : string) : list byte := String.list_byte_of_string s.

End Zlib.

(** ** [scripts/setup_mod.py] *)

Module SetupMod.
Import Py Re World Pathlib Zlib.

Definition OLD_PACKAGE : string := "com.example.modtemplate".
Definition OLD_MOD_ID : string := "examplemod".
Definition OLD_MOD_NAME : string := "Example Mod".
Definition OLD_AUTHOR : string := "yourname".

(** [input(prompt) or default] *)
Definition or_default (answer default : string) : string :=
  if truthy answer then answer else default.

(** [p[:1].upper() + p[1:] if p else ""] *)
Definition capitalise (p : string) : string :=
  match p with
  | EmptyString => EmptyString
  | String c rest => upper (String c EmptyString) +:+ rest
  end.

Definition to_camel (value : string) : string :=
  let parts := split_word_seps value in
  join "" (map capitalise parts).

(** What the user types at the four prompts that feed the replacements. *)
Record answers : Type := Answers {
  typed_package : string;
  typed_mod_id : string;
  typed_mod_name : string;
  typed_author : string;
}.

Definition base_package (a : answers) : string := or_default (typed_package a) OLD_PACKAGE.
Definition mod_id (a : answers) : string := or_default (typed_mod_id a) OLD_MOD_ID.
Definition mod_name (a : answers) : string := or_default (typed_mod_name a) OLD_MOD_NAME.
Definition author (a : answers) : string := or_default (typed_author a) OLD_AUTHOR.
Definition class_prefix (a : answers) : string := to_camel (mod_name a).

Definition replacements (a : answers) : list (string * string) :=
  [(OLD_PACKAGE, base_package a);
   (OLD_MOD_ID, mod_id a);
   (OLD_MOD_NAME, mod_name a);
   (OLD_AUTHOR, author a);
   ("TemplateMod", class_prefix a +:+ "Mod");
   ("TemplateFabric", class_prefix a +:+ "Fabric");
   ("TemplateForge", class_prefix a +:+ "Forge");
   ("TemplateNeoForge", class_prefix a +:+ "NeoForge")].

(** The loop over [replacements.items()] on one text: the text and the
    flag [replaced] afterwards. *)
Fixpoint replace_placeholders (items : list (string * string)) (text : string)
    (replaced : bool) : string * bool :=
  match items with
  | [] => (text, replaced)
  | (old, new) :: rest =>
      if contains text old
      then replace_placeholders rest (replace text old new) true
      else replace_placeholders rest text replaced
  end.

(** The files [Path('.').rglob('*')] yields: relative, below the
    working directory. *)
Definition in_tree (p : path) : bool :=
  is_empty (root p) && negb (bool_decide (".." ∈ parts p)).

(** ['.git' in path.parts] *)
Definition in_git (p : path) : bool :=
  bool_decide (".git" ∈ parts p).

(** What the first loop does to one file: its text afterwards. *)
Definition updated_file (a : answers) (p : path) (text : string) : string :=
  if in_tree p && negb (in_git p) then
    let (text', replaced) := replace_placeholders (replacements a) text false in
    if replaced then text' else text
  else text.

(** The first loop of the script, over every file of the tree. *)
Definition update_file_contents (a : answers) (fs : filesystem) : filesystem :=
  map_imap (fun p text => Some (updated_file a p text)) fs.

(** *** The icon *)

(** A row of the font, written in binary as in the script. *)
Definition bin (digits : string) : Z :=
  (fix go (acc : Z) (s : string) : Z :=
     match s with
     | EmptyString => acc
     | String c s' => go (2 * acc + (if Ascii.eqb c "1" then 1 else 0))%Z s'
     end) 0%Z digits.

Definition font : list (string * list Z) :=
  [
     ("A", [bin "00111000"; bin "01000100"; bin "10000010"; bin "10000010"; bin "11111110"; bin "10000010"; bin "10000010"; bin "00000000"]);
     ("B", [bin "11111100"; bin "10000010"; bin "10000010"; bin "11111100"; bin "10000010"; bin "10000010"; bin "11111100"; bin "00000000"]);
     ("C", [bin "01111110"; bin "10000000"; bin "10000000"; bin "10000000"; bin "10000000"; bin "10000000"; bin "01111110"; bin "00000000"]);
     ("D", [bin "11111100"; bin "10000010"; bin "10000010"; bin "10000010"; bin "10000010"; bin "10000010"; bin "11111100"; bin "00000000"]);
     ("E", [bin "11111110"; bin "10000000"; bin "10000000"; bin "11111100"; bin "10000000"; bin "10000000"; bin "11111110"; bin "00000000"]);
     ("F", [bin "11111110"; bin "10000000"; bin "10000000"; bin "11111100"; bin "10000000"; bin "10000000"; bin "10000000"; bin "00000000"]);
     ("G", [bin "01111110"; bin "10000000"; bin "10000000"; bin "10001110"; bin "10000010"; bin "10000010"; bin "01111110"; bin "00000000"]);
     ("H", [bin "10000010"; bin "10000010"; bin "10000010"; bin "11111110"; bin "10000010"; bin "10000010"; bin "10000010"; bin "00000000"]);
     ("I", [bin "01111100"; bin "00010000"; bin "00010000"; bin "00010000"; bin "00010000"; bin "00010000"; bin "01111100"; bin "00000000"]);
     ("J", [bin "00111110"; bin "00000010"; bin "00000010"; bin "00000010"; bin "10000010"; bin "10000010"; bin "01111100"; bin "00000000"]);
     ("K", [bin "10000010"; bin "10000100"; bin "10001000"; bin "10110000"; bin "11001000"; bin "10000100"; bin "10000010"; bin "00000000"]);
     ("L", [bin "10000000"; bin "10000000"; bin "10000000"; bin "10000000"; bin "10000000"; bin "10000000"; bin "11111110"; bin "00000000"]);
     ("M", [bin "10000010"; bin "11000110"; bin "10101010"; bin "10010010"; bin "10000010"; bin "10000010"; bin "10000010"; bin "00000000"]);
     ("N", [bin "10000010"; bin "11000010"; bin "10100010"; bin "10010010"; bin "10001010"; bin "10000110"; bin "10000010"; bin "00000000"]);
     ("O", [bin "01111100"; bin "10000010"; bin "10000010"; bin "10000010"; bin "10000010"; bin "10000010"; bin "01111100"; bin "00000000"]);
     ("P", [bin "11111100"; bin "10000010"; bin "10000010"; bin "11111100"; bin "10000000"; bin "10000000"; bin "10000000"; bin "00000000"]);
     ("Q", [bin "01111100"; bin "10000010"; bin "10000010"; bin "10000010"; bin "10001010"; bin "10000100"; bin "01111010"; bin "00000000"]);
     ("R", [bin "11111100"; bin "10000010"; bin "10000010"; bin "11111100"; bin "10001000"; bin "10000100"; bin "10000010"; bin "00000000"]);
     ("S", [bin "01111100"; bin "10000010"; bin "10000000"; bin "01111100"; bin "00000010"; bin "10000010"; bin "01111100"; bin "00000000"]);
     ("T", [bin "11111110"; bin "00010000"; bin "00010000"; bin "00010000"; bin "00010000"; bin "00010000"; bin "00010000"; bin "00000000"]);
     ("U", [bin "10000010"; bin "10000010"; bin "10000010"; bin "10000010"; bin "10000010"; bin "10000010"; bin "01111100"; bin "00000000"]);
     ("V", [bin "10000010"; bin "10000010"; bin "10000010"; bin "01000100"; bin "01000100"; bin "00101000"; bin "00010000"; bin "00000000"]);
     ("W", [bin "10000010"; bin "10000010"; bin "10000010"; bin "10010010"; bin "10101010"; bin "11000110"; bin "10000010"; bin "00000000"]);
     ("X", [bin "10000010"; bin "01000100"; bin "00101000"; bin "00010000"; bin "00101000"; bin "01000100"; bin "10000010"; bin "00000000"]);
     ("Y", [bin "10000010"; bin "01000100"; bin "00101000"; bin "00010000"; bin "00010000"; bin "00010000"; bin "00010000"; bin "00000000"]);
     ("Z", [bin "11111110"; bin "00000010"; bin "00000100"; bin "00001000"; bin "00010000"; bin "00100000"; bin "11111110"; bin "00000000"])].

Fixpoint font_get (key : string) (table : list (string * list Z)) : option (list Z) :=
  match table with
  | [] => None
  | (k, rows) :: rest => if String.eqb k key then Some rows else font_get key rest
  end.

Definition w : nat := 512.
Definition h : nat := 512.
Definition bg : Z * Z * Z := (66, 135, 245)%Z.
Definition s : Z := (Z.of_nat w / 16)%Z.
Definition ox : Z := ((Z.of_nat w - 8 * s) / 2)%Z.
Definition oy : Z := ((Z.of_nat h - 8 * s) / 2)%Z.

Definition white_pixel : list byte := [xff; xff; xff; xff]%byte.
Definition bg_pixel : list byte :=
  [byte_of_Z (fst (fst bg)); byte_of_Z (snd (fst bg)); byte_of_Z (snd bg); byte_of_Z 255%Z].

(** The body of the two loops: the four bytes added for the pixel in
    column [x] of line [y]. *)
Definition pixel (char : string) (x y : Z) : list byte :=
  match font_get (upper char) font with
  | Some rows =>
      if ((ox <=? x) && (x <? ox + 8 * s) && (oy <=? y) && (y <? oy + 8 * s))%Z then
        let row := nth (Z.to_nat ((y - oy) / s)) rows 0%Z in
        if negb (Z.land row (Z.shiftl 1 (7 - (x - ox) / s)) =? 0)%Z
        then white_pixel else bg_pixel
      else bg_pixel
  | None => bg_pixel
  end.

(** [pix] after the loops *)
Definition pix (char : string) : list byte :=
  flat_map (fun y => flat_map (fun x => pixel char (Z.of_nat x) (Z.of_nat y)) (seq 0 w))
           (seq 0 h).

(** [data[lo:hi]] *)
Definition slice {A : Type} (lo hi : nat) (data : list A) : list A :=
  take (hi - lo) (drop lo data).

(** [raw]: every line of [pix] behind a zero byte *)
Definition raw (char : string) : list byte :=
  flat_map (fun i => x00%byte :: slice (i * w * 4) ((i + 1) * w * 4) (pix char)) (seq 0 h).

(** [chunk(t, d)] *)
Definition chunk (t d : list byte) : result (list byte) :=
  len ← pack_I (Z.of_nat (length d));
  crc ← pack_I (Z.land (crc32 (t ++ d)) 0xffffffff%Z);
  Ok (len ++ t ++ d ++ crc).

Definition png_signature : list byte :=
  [x89; x50; x4e; x47; x0d; x0a; x1a; x0a]%byte.

(** [struct.pack('>IIBBBBB', w, h, 8, 6, 0, 0, 0)] *)
Definition ihdr_data : result (list byte) :=
  bw ← pack_I (Z.of_nat w);
  bh ← pack_I (Z.of_nat h);
  depth ← pack_B 8%Z;
  colour ← pack_B 6%Z;
  z1 ← pack_B 0%Z;
  z2 ← pack_B 0%Z;
  z3 ← pack_B 0%Z;
  Ok (bw ++ bh ++ depth ++ colour ++ z1 ++ z2 ++ z3).

Section Icon.

(** [zlib.compress] is library code: any function on bytes. *)
Variable zlib_compress : list byte -> list byte.

(** [data], the bytes [create_icon] writes *)
Definition icon_data (char : string) : result (list byte) :=
  hdr ← ihdr_data;
  ihdr ← chunk (bytes_of "IHDR") hdr;
  idat ← chunk (bytes_of "IDAT") (zlib_compress (raw char));
  iend ← chunk (bytes_of "IEND") [];
  Ok (png_signature ++ ihdr ++ idat ++ iend).

(** [Path(filename).write_bytes(data)] *)
Definition write_bytes (fs : filesystem) (filename : path) (data : list byte)
  : filesystem :=
  <[filename := String.string_of_list_byte data]> fs.

Definition create_icon (char : string) (filename : path) (fs : filesystem)
  : result filesystem :=
  data ← icon_data char;
  Ok (write_bytes fs filename data).

End Icon.

End SetupMod.

(** ** [scripts/moddy.py]

    The aggregate script: every helper of the four scripts above comes
    again under a name of its own, and [update] is new. *)

Module Moddy.
Import Py Re World Pathlib Zlib.

(** *** [add-service] *)

Definition nl : string := String newline "".

(** [_parse_group(props_path)] *)
Definition _parse_group (fs : filesystem) (props_path : path) : result string :=
  text ← read_text fs props_path;
  match search_group text with
  | None => Raise (RuntimeError "Could not determine group property")
  | Some g => Ok (strip g)
  end.

(** A dictionary display: a key that comes again keeps its place and
    takes the later value. *)
Fixpoint dict_set (k : path) (v : string) (d : list (path * string))
  : list (path * string) :=
  match d with
  | [] => [(k, v)]
  | (k', v') :: d' =>
      if decide (k = k') then (k', v) :: d' else (k', v') :: dict_set k v d'
  end.

Definition dict_of (items : list (path * string)) : list (path * string) :=
  fold_left (fun d kv => dict_set (fst kv) (snd kv) d) items [].

(** The dictionary [files] of [cmd_add_service], from the group and the name. *)
Definition files (group name : string) : list (path * string) :=
  let pkg_path := replace group "." "/" in
  let service_fqn := group +:+ ".platform.services." +:+ name in
  let interface_path :=
    of_str "common/src/main/java" </> pkg_path </> "platform" </> "services"
      </> (name +:+ ".java") in
  let fabric_impl_path :=
    of_str "fabric/src/main/java" </> pkg_path </> "platform" </> ("Fabric" +:+ name +:+ ".java") in
  let forge_impl_path :=
    of_str "forge/src/main/java" </> pkg_path </> "platform" </> ("Forge" +:+ name +:+ ".java") in
  let neo_impl_path :=
    of_str "neoforge/src/main/java" </> pkg_path </> "platform" </> ("NeoForge" +:+ name +:+ ".java") in
  let fabric_meta := of_str "fabric/src/main/resources/META-INF/services" </> service_fqn in
  let forge_meta := of_str "forge/src/main/resources/META-INF/services" </> service_fqn in
  let neo_meta := of_str "neoforge/src/main/resources/META-INF/services" </> service_fqn in
  dict_of
    [(interface_path,
      "package " +:+ group +:+ ".platform.services;" +:+ nl +:+ nl
      +:+ "public interface " +:+ name +:+ " {" +:+ nl +:+ "}" +:+ nl);
     (fabric_impl_path,
      "package " +:+ group +:+ ".platform;" +:+ nl +:+ nl
      +:+ "import " +:+ service_fqn +:+ ";" +:+ nl +:+ nl
      +:+ "public class Fabric" +:+ name +:+ " implements " +:+ name +:+ " {" +:+ nl
      +:+ "}" +:+ nl);
     (forge_impl_path,
      "package " +:+ group +:+ ".platform;" +:+ nl +:+ nl
      +:+ "import " +:+ service_fqn +:+ ";" +:+ nl +:+ nl
      +:+ "public class Forge" +:+ name +:+ " implements " +:+ name +:+ " {" +:+ nl
      +:+ "}" +:+ nl);
     (neo_impl_path,
      "package " +:+ group +:+ ".platform;" +:+ nl +:+ nl
      +:+ "import " +:+ service_fqn +:+ ";" +:+ nl +:+ nl
      +:+ "public class NeoForge" +:+ name +:+ " implements " +:+ name +:+ " {" +:+ nl
      +:+ "}" +:+ nl);
     (fabric_meta, group +:+ ".platform.Fabric" +:+ name +:+ nl);
     (forge_meta, group +:+ ".platform.Forge" +:+ name +:+ nl);
     (neo_meta, group +:+ ".platform.NeoForge" +:+ name +:+ nl)].

(** [[str(p) for p in files if p.exists()]], before [str] *)
Definition existing (fs : filesystem) (files : list (path * string)) : list path :=
  List.filter (exists_ fs) (map fst files).

(** The loop that writes: each file in the order of the dictionary. *)
Definition write_files (fs : filesystem) (files : list (path * string)) : filesystem :=
  fold_left (fun fs kv => write_text fs (fst kv) (snd kv)) files fs.

(** [cmd_add_service(args)], on the flag [AUTO_YES], the name given on the
    command line, the answer typed at the prompt (asked only when the
    flag is off) and the files there are; the result is the files
    afterwards. *)
Definition cmd_add_service (AUTO_YES : bool) (name_arg answer : string)
    (fs : filesystem) : result filesystem :=
  let name := strip name_arg in
  if negb (match_service_name name) then
    Raise (SystemExit "Illegal characters in service name")
  else
    group ← _parse_group fs (of_str "gradle.properties");
    let files := files group name in
    match existing fs files with
    | _ :: _ => Ok fs
    | [] =>
        if negb AUTO_YES && negb (String.eqb (lower answer) "y") then Ok fs
        else Ok (write_files fs files)
    end.

(** *** [set-minecraft-version] *)

(** [_fetch_url_text(url)] *)
Definition _fetch_url_text (net : network) (url : string) : result body :=
  match net url with
  | Some b => Ok b
  | None => Raise URLError
  end.

Definition is_stable_artifact (v : string) : bool :=
  negb (contains v "-rc") && negb (contains v "-pre").

Definition _get_artifact_latest (net : network) (meta_url mc_version : string)
  : result (option string) :=
  match _fetch_url_text net meta_url with
  | Raise e => if is_Exception e then Ok None else Raise e
  | Ok xml_text =>
      let versions := findall_version (text xml_text) in
      let prefix := mc_version +:+ "-" in
      let candidates := List.filter (fun v => startswith v prefix) versions in
      match candidates with
      | [] => Ok None
      | _ :: _ =>
          let stable := List.filter is_stable_artifact candidates in
          let versions := match stable with [] => candidates | _ :: _ => stable end in
          let versions := sort versions in
          v ← last_item versions; Ok (Some v)
      end
  end.

Definition neoform_url : string :=
  "https://maven.neoforged.net/releases/net/neoforged/neoform/maven-metadata.xml".

Definition _get_neoform_version (net : network) (mc : string) : result (option string) :=
  _get_artifact_latest net neoform_url mc.

Definition neoforge_url : string :=
  "https://maven.neoforged.net/releases/net/neoforged/neoforge/maven-metadata.xml".

Definition is_stable_neoforge (v : string) : bool :=
  negb (contains v "-beta") && negb (contains v "-rc").

(** [v.text.startswith(mc_prefix)], which needs a text *)
Definition text_startswith (mc_prefix : string) (v : ET.element) : result bool :=
  match ET.text v with
  | Some t => Ok (startswith t mc_prefix)
  | None => Raise AttributeError
  end.

(** [[v.text for v in elems if v.text.startswith(mc_prefix)]] *)
Fixpoint texts_with_prefix (mc_prefix : string) (elems : list ET.element)
  : result (list string) :=
  match elems with
  | [] => Ok []
  | v :: rest =>
      keep ← text_startswith mc_prefix v;
      more ← texts_with_prefix mc_prefix rest;
      Ok (if (keep : bool) then default EmptyString (ET.text v) :: more else more)
  end.

Definition _get_neoforge_version (net : network) (mc : string) : result (option string) :=
  match _fetch_url_text net neoforge_url with
  | Raise e => if is_Exception e then Ok None else Raise e
  | Ok xml_text =>
      root ← ET_fromstring xml_text;
      let mc_prefix := join "." (take 2 (drop 1 (split "." mc))) in
      versions ← texts_with_prefix mc_prefix
                   (ET.findall root ["versioning"; "versions"; "version"]);
      match versions with
      | [] => Ok None
      | _ :: _ =>
          let stable := List.filter is_stable_neoforge versions in
          let versions := match stable with [] => versions | _ :: _ => stable end in
          v ← last_item versions; Ok (Some v)
      end
  end.

Definition parchment_url (mc : string) : string :=
  "https://maven.parchmentmc.org/org/parchmentmc/data/parchment-" +:+ mc
  +:+ "/maven-metadata.xml".

Definition _get_parchment_version (net : network) (mc : string) : result (option string) :=
  try_except
    (xml_text ← _fetch_url_text net (parchment_url mc);
     root ← ET_fromstring xml_text;
     Ok (ET.findtext root ["versioning"; "latest"]))
    (Ok None).

Definition fabric_loader_url (mc : string) : string :=
  "https://meta.fabricmc.net/v2/versions/loader/" +:+ mc.

(** [[e["loader"]["version"] for e in data if e["loader"].get("stable")]] *)
Fixpoint stable_loaders (data : list Json.value) : result (list Json.value) :=
  match data with
  | [] => Ok []
  | e :: rest =>
      loader ← Json.getitem e "loader";
      flag ← Json.get loader "stable";
      if Json.truthy flag then
        loader ← Json.getitem e "loader";
        version ← Json.getitem loader "version";
        more ← stable_loaders rest;
        Ok (version :: more)
      else stable_loaders rest
  end.

(** [int(x) if x.isdigit() else x], for each piece of the version *)
Fixpoint ver_parts (pieces : list string) : result (list Json.value) :=
  match pieces with
  | [] => Ok []
  | x :: rest =>
      part ← (if isdigit x then n ← int x; Ok (Json.JInt n) else Ok (Json.JStr x));
      more ← ver_parts rest;
      Ok (part :: more)
  end.

(** [re.split] wants a string. *)
Definition ver_key (v : Json.value) : result Json.value :=
  match v with
  | Json.JStr s => parts ← ver_parts (split_dot_dash s); Ok (Json.JList parts)
  | _ => Raise TypeError
  end.

Fixpoint with_keys (vs : list Json.value) : result (list (Json.value * Json.value)) :=
  match vs with
  | [] => Ok []
  | v :: rest =>
      k ← ver_key v;
      more ← with_keys rest;
      Ok ((k, v) :: more)
  end.

(** [a < b] on keys *)
Definition key_lt (a b : Json.value) : result bool := Json.gt b a.

Fixpoint insert_by_key (x : Json.value * Json.value) (l : list (Json.value * Json.value))
  : result (list (Json.value * Json.value)) :=
  match l with
  | [] => Ok [x]
  | y :: l' =>
      before ← key_lt (fst y) (fst x);
      if (before : bool) then more ← insert_by_key x l'; Ok (y :: more)
      else Ok (x :: l)
  end.

(** [sorted(stable, key=ver_key)]: the keys first, then a stable sort in
    which every test of [<] that fails raises.  The tests are those of a
    straight insertion. *)
Definition sorted_by_ver_key (vs : list Json.value) : result (list Json.value) :=
  keyed ← with_keys vs;
  sorted ← foldr (fun x acc => l ← acc; insert_by_key x l) (Ok []) keyed;
  Ok (map snd sorted).

Definition _get_fabric_loader_version (net : network) (mc : string) : result Json.value :=
  try_except
    (text ← _fetch_url_text net (fabric_loader_url mc);
     data ← json_loads text;
     items ← Json.iterate data;
     stable ← stable_loaders items;
     match stable with
     | [] => Ok Json.JNone
     | _ :: _ => sorted ← sorted_by_ver_key stable; last_item sorted
     end)
    (Ok Json.JNone).

Definition modrinth_query (mc : string) : string :=
  quote ("[" +:+ String dquote mc +:+ String dquote "]").

Definition fabric_api_url (mc : string) : string :=
  "https://api.modrinth.com/v2/project/fabric-api/version?game_versions="
  +:+ modrinth_query mc.

(** [max(versions, key=lambda v: v["date_published"])] *)
Fixpoint max_by_date (best kbest : Json.value) (rest : list Json.value) : result Json.value :=
  match rest with
  | [] => Ok best
  | v :: rest' =>
      k ← Json.getitem v "date_published";
      newer ← Json.gt k kbest;
      if (newer : bool) then max_by_date v k rest' else max_by_date best kbest rest'
  end.

Definition latest_published (versions : list Json.value) : result Json.value :=
  match versions with
  | [] => Raise ValueError
  | v :: rest => k ← Json.getitem v "date_published"; max_by_date v k rest
  end.

Definition _get_fabric_api_version (net : network) (mc : string) : result Json.value :=
  try_except
    (text ← _fetch_url_text net (fabric_api_url mc);
     data ← json_loads text;
     versions ← Json.iterate data;
     latest ← latest_published versions;
     Json.getitem latest "version_number")
    (Ok Json.JNone).

Definition mod_menu_url (mc : string) : string :=
  "https://api.modrinth.com/v2/project/modmenu/version?game_versions="
  +:+ modrinth_query mc.

Definition _get_mod_menu_version (net : network) (mc : string) : result Json.value :=
  try_except
    (text ← _fetch_url_text net (mod_menu_url mc);
     data ← json_loads text;
     versions ← Json.iterate data;
     latest ← latest_published versions;
     Json.getitem latest "version_number")
    (Ok Json.JNone).

Definition forge_url (mc : string) : string :=
  "https://files.minecraftforge.net/net/minecraftforge/forge/index_" +:+ mc +:+ ".html".

Definition _get_forge_version (net : network) (mc : string) : result (option string) :=
  match _fetch_url_text net (forge_url mc) with
  | Raise e => if is_Exception e then Ok None else Raise e
  | Ok html => Ok (first_some (fun label => search_label label (text html))
                              ["Recommended"; "Latest"])
  end.

(** [None] or a string, as a value of the dictionary. *)
Definition of_option (v : option string) : Json.value :=
  match v with
  | Some s => Json.JStr s
  | None => Json.JNone
  end.

(** The dictionary display is evaluated item by item, in order. *)
Definition _collect_versions (net : network) (mc : string)
  : result (list (string * Json.value)) :=
  neoform ← _get_neoform_version net mc;
  neoforge ← _get_neoforge_version net mc;
  parchment ← _get_parchment_version net mc;
  fabric_loader ← _get_fabric_loader_version net mc;
  fabric_api ← _get_fabric_api_version net mc;
  mod_menu ← _get_mod_menu_version net mc;
  forge ← _get_forge_version net mc;
  Ok [("neoform_version", of_option neoform);
      ("neoforge_version", of_option neoforge);
      ("parchment_minecraft", Json.JStr mc);
      ("parchment_version", of_option parchment);
      ("fabric_loader_version", fabric_loader);
      ("fabric_version", fabric_api);
      ("mod_menu_version", mod_menu);
      ("forge_version", of_option forge)].

(** The dictionary handed to [_apply_versions]: strings and [None]s.
    [versions.get(key)] is [None] for a key that is absent, too. *)
Abbreviation versions_dict := (gmap string (option string)).

Definition versions_get (versions : versions_dict) (key : string) : option string :=
  default None (versions !! key).

(** The upper end of the version range: the first component and the
    second plus one, or [mc] when there is no second component or [int]
    raises on it. *)
Definition next_minor_of (mc : string) : string :=
  let next_minor := split "." mc in
  if (2 <=? length next_minor)%nat then
    match int (default EmptyString (next_minor !! 1%nat)) with
    | Ok minor =>
        let next_minor := <[1%nat := str_of_int (minor + 1)]> next_minor in
        join "." (take 2 next_minor)
    | Raise _ => mc
    end
  else mc.

Definition replacements (mc : string) (versions : versions_dict)
  : list (string * option string) :=
  [("minecraft_version", Some mc);
   ("minecraft_version_range", Some ("[" +:+ mc +:+ ", " +:+ next_minor_of mc +:+ ")"));
   ("neo_form_version", versions_get versions "neoform_version");
   ("parchment_minecraft", Some mc);
   ("parchment_version", versions_get versions "parchment_version");
   ("fabric_loader_version", versions_get versions "fabric_loader_version");
   ("fabric_version", versions_get versions "fabric_version");
   ("mod_menu_version", versions_get versions "mod_menu_version");
   ("forge_version", versions_get versions "forge_version");
   ("neoforge_version", versions_get versions "neoforge_version");
   ("game_versions", Some mc)].

(** [not value] *)
Definition falsy (value : option string) : bool :=
  match value with
  | Some v => negb (truthy v)
  | None => true
  end.

(** One turn of the loop over [replacements.items()]. *)
Definition replace_property (text : string) (item : string * option string)
  : result string :=
  let (key, value) := item in
  if falsy value then Ok text
  else sub_property key (key +:+ "=" +:+ default EmptyString value) text.

Fixpoint replace_properties (text : string) (items : list (string * option string))
  : result string :=
  match items with
  | [] => Ok text
  | item :: rest => text' ← replace_property text item; replace_properties text' rest
  end.

(** The text [_apply_versions] writes back, from the text it read. *)
Definition updated_text (mc : string) (versions : versions_dict) (text : string)
  : result string :=
  replace_properties text (replacements mc versions).


(** *** [setup] *)

Definition OLD_PACKAGE : string := "com.example.modtemplate".
Definition OLD_MOD_ID : string := "examplemod".
Definition OLD_MOD_NAME : string := "Example Mod".
Definition OLD_AUTHOR : string := "yourname".

(** [input(prompt) or default] *)
Definition or_default (answer default : string) : string :=
  if truthy answer then answer else default.

(** [p[:1].upper() + p[1:] if p else ""] *)
Definition capitalise (p : string) : string :=
  match p with
  | EmptyString => EmptyString
  | String c rest => upper (String c EmptyString) +:+ rest
  end.

Definition _to_camel (value : string) : string :=
  let parts := split_word_seps value in
  join "" (map capitalise parts).

(** What the user types at the four prompts that feed the replacements. *)
Record answers : Type := Answers {
  typed_package : string;
  typed_mod_id : string;
  typed_mod_name : string;
  typed_author : string;
}.

Definition base_package (a : answers) : string := or_default (typed_package a) OLD_PACKAGE.
Definition mod_id (a : answers) : string := or_default (typed_mod_id a) OLD_MOD_ID.
Definition mod_name (a : answers) : string := or_default (typed_mod_name a) OLD_MOD_NAME.
Definition author (a : answers) : string := or_default (typed_author a) OLD_AUTHOR.
Definition class_prefix (a : answers) : string := _to_camel (mod_name a).

Definition setup_replacements (a : answers) : list (string * string) :=
  [(OLD_PACKAGE, base_package a);
   (OLD_MOD_ID, mod_id a);
   (OLD_MOD_NAME, mod_name a);
   (OLD_AUTHOR, author a);
   ("TemplateMod", class_prefix a +:+ "Mod");
   ("TemplateFabric", class_prefix a +:+ "Fabric");
   ("TemplateForge", class_prefix a +:+ "Forge");
   ("TemplateNeoForge", class_prefix a +:+ "NeoForge")].

(** The loop over [replacements.items()] on one text: the text and the
    flag [replaced] afterwards. *)
Fixpoint replace_placeholders (items : list (string * string)) (text : string)
    (replaced : bool) : string * bool :=
  match items with
  | [] => (text, replaced)
  | (old, new) :: rest =>
      if contains text old
      then replace_placeholders rest (replace text old new) true
      else replace_placeholders rest text replaced
  end.

(** The files [Path('.').rglob('*')] yields: relative, below the
    working directory. *)
Definition in_tree (p : path) : bool :=
  is_empty (root p) && negb (bool_decide (".." ∈ parts p)).

(** ['.git' in path.parts] *)
Definition in_git (p : path) : bool :=
  bool_decide (".git" ∈ parts p).

(** What the first loop does to one file: its text afterwards. *)
Definition updated_file (a : answers) (p : path) (text : string) : string :=
  if in_tree p && negb (in_git p) then
    let (text', replaced) := replace_placeholders (setup_replacements a) text false in
    if replaced then text' else text
  else text.

(** The first loop of [cmd_setup], over every file of the tree. *)
Definition update_file_contents (a : answers) (fs : filesystem) : filesystem :=
  map_imap (fun p text => Some (updated_file a p text)) fs.

(** [cmd_setup(args)] up to the end of its first loop: nothing is done
    unless the flag is on or the answer at the prompt is [y]. *)
Definition cmd_setup_contents (AUTO_YES : bool) (a : answers) (answer : string)
    (fs : filesystem) : filesystem :=
  if negb AUTO_YES && negb (String.eqb (lower answer) "y") then fs
  else update_file_contents a fs.

(** *** The icon *)

(** A row of the font, written in binary as in the script. *)
Definition bin (digits : string) : Z :=
  (fix go (acc : Z) (s : string) : Z :=
     match s with
     | EmptyString => acc
     | String c s' => go (2 * acc + (if Ascii.eqb c "1" then 1 else 0))%Z s'
     end) 0%Z digits.

Definition font : list (string * list Z) :=
  [
     ("A", [bin "00111000"; bin "01000100"; bin "10000010"; bin "10000010"; bin "11111110"; bin "10000010"; bin "10000010"; bin "00000000"]);
     ("B", [bin "11111100"; bin "10000010"; bin "10000010"; bin "11111100"; bin "10000010"; bin "10000010"; bin "11111100"; bin "00000000"]);
     ("C", [bin "01111110"; bin "10000000"; bin "10000000"; bin "10000000"; bin "10000000"; bin "10000000"; bin "01111110"; bin "00000000"]);
     ("D", [bin "11111100"; bin "10000010"; bin "10000010"; bin "10000010"; bin "10000010"; bin "10000010"; bin "11111100"; bin "00000000"]);
     ("E", [bin "11111110"; bin "10000000"; bin "10000000"; bin "11111100"; bin "10000000"; bin "10000000"; bin "11111110"; bin "00000000"]);
     ("F", [bin "11111110"; bin "10000000"; bin "10000000"; bin "11111100"; bin "10000000"; bin "10000000"; bin "10000000"; bin "00000000"]);
     ("G", [bin "01111110"; bin "10000000"; bin "10000000"; bin "10001110"; bin "10000010"; bin "10000010"; bin "01111110"; bin "00000000"]);
     ("H", [bin "10000010"; bin "10000010"; bin "10000010"; bin "11111110"; bin "10000010"; bin "10000010"; bin "10000010"; bin "00000000"]);
     ("I", [bin "01111100"; bin "00010000"; bin "00010000"; bin "00010000"; bin "00010000"; bin "00010000"; bin "01111100"; bin "00000000"]);
     ("J", [bin "00111110"; bin "00000010"; bin "00000010"; bin "00000010"; bin "10000010"; bin "10000010"; bin "01111100"; bin "00000000"]);
     ("K", [bin "10000010"; bin "10000100"; bin "10001000"; bin "10110000"; bin "11001000"; bin "10000100"; bin "10000010"; bin "00000000"]);
     ("L", [bin "10000000"; bin "10000000"; bin "10000000"; bin "10000000"; bin "10000000"; bin "10000000"; bin "11111110"; bin "00000000"]);
     ("M", [bin "10000010"; bin "11000110"; bin "10101010"; bin "10010010"; bin "10000010"; bin "10000010"; bin "10000010"; bin "00000000"]);
     ("N", [bin "10000010"; bin "11000010"; bin "10100010"; bin "10010010"; bin "10001010"; bin "10000110"; bin "10000010"; bin "00000000"]);
     ("O", [bin "01111100"; bin "10000010"; bin "10000010"; bin "10000010"; bin "10000010"; bin "10000010"; bin "01111100"; bin "00000000"]);
     ("P", [bin "11111100"; bin "10000010"; bin "10000010"; bin "11111100"; bin "10000000"; bin "10000000"; bin "10000000"; bin "00000000"]);
     ("Q", [bin "01111100"; bin "10000010"; bin "10000010"; bin "10000010"; bin "10001010"; bin "10000100"; bin "01111010"; bin "00000000"]);
     ("R", [bin "11111100"; bin "10000010"; bin "10000010"; bin "11111100"; bin "10001000"; bin "10000100"; bin "10000010"; bin "00000000"]);
     ("S", [bin "01111100"; bin "10000010"; bin "10000000"; bin "01111100"; bin "00000010"; bin "10000010"; bin "01111100"; bin "00000000"]);
     ("T", [bin "11111110"; bin "00010000"; bin "00010000"; bin "00010000"; bin "00010000"; bin "00010000"; bin "00010000"; bin "00000000"]);
     ("U", [bin "10000010"; bin "10000010"; bin "10000010"; bin "10000010"; bin "10000010"; bin "10000010"; bin "01111100"; bin "00000000"]);
     ("V", [bin "10000010"; bin "10000010"; bin "10000010"; bin "01000100"; bin "01000100"; bin "00101000"; bin "00010000"; bin "00000000"]);
     ("W", [bin "10000010"; bin "10000010"; bin "10000010"; bin "10010010"; bin "10101010"; bin "11000110"; bin "10000010"; bin "00000000"]);
     ("X", [bin "10000010"; bin "01000100"; bin "00101000"; bin "00010000"; bin "00101000"; bin "01000100"; bin "10000010"; bin "00000000"]);
     ("Y", [bin "10000010"; bin "01000100"; bin "00101000"; bin "00010000"; bin "00010000"; bin "00010000"; bin "00010000"; bin "00000000"]);
     ("Z", [bin "11111110"; bin "00000010"; bin "00000100"; bin "00001000"; bin "00010000"; bin "00100000"; bin "11111110"; bin "00000000"])].

Fixpoint font_get (key : string) (table : list (string * list Z)) : option (list Z) :=
  match table with
  | [] => None
  | (k, rows) :: rest => if String.eqb k key then Some rows else font_get key rest
  end.

Definition w : nat := 512.
Definition h : nat := 512.
Definition bg : Z * Z * Z := (66, 135, 245)%Z.
Definition s : Z := (Z.of_nat w / 16)%Z.
Definition ox : Z := ((Z.of_nat w - 8 * s) / 2)%Z.
Definition oy : Z := ((Z.of_nat h - 8 * s) / 2)%Z.

Definition white_pixel : list byte := [xff; xff; xff; xff]%byte.
Definition bg_pixel : list byte :=
  [byte_of_Z (fst (fst bg)); byte_of_Z (snd (fst bg)); byte_of_Z (snd bg); byte_of_Z 255%Z].

(** The body of the two loops: the four bytes added for the pixel in
    column [x] of line [y]. *)
Definition pixel (char : string) (x y : Z) : list byte :=
  match font_get (upper char) font with
  | Some rows =>
      if ((ox <=? x) && (x <? ox + 8 * s) && (oy <=? y) && (y <? oy + 8 * s))%Z then
        let row := nth (Z.to_nat ((y - oy) / s)) rows 0%Z in
        if negb (Z.land row (Z.shiftl 1 (7 - (x - ox) / s)) =? 0)%Z
        then white_pixel else bg_pixel
      else bg_pixel
  | None => bg_pixel
  end.

(** [pix] after the loops *)
Definition pix (char : string) : list byte :=
  flat_map (fun y => flat_map (fun x => pixel char (Z.of_nat x) (Z.of_nat y)) (seq 0 w))
           (seq 0 h).

(** [data[lo:hi]] *)
Definition slice {A : Type} (lo hi : nat) (data : list A) : list A :=
  take (hi - lo) (drop lo data).

(** [raw]: every line of [pix] behind a zero byte *)
Definition raw (char : string) : list byte :=
  flat_map (fun i => x00%byte :: slice (i * w * 4) ((i + 1) * w * 4) (pix char)) (seq 0 h).

(** [chunk(t, d)] *)
Definition chunk (t d : list byte) : result (list byte) :=
  len ← pack_I (Z.of_nat (length d));
  crc ← pack_I (Z.land (crc32 (t ++ d)) 0xffffffff%Z);
  Ok (len ++ t ++ d ++ crc).

Definition png_signature : list byte :=
  [x89; x50; x4e; x47; x0d; x0a; x1a; x0a]%byte.

(** [struct.pack('>IIBBBBB', w, h, 8, 6, 0, 0, 0)] *)
Definition ihdr_data : result (list byte) :=
  bw ← pack_I (Z.of_nat w);
  bh ← pack_I (Z.of_nat h);
  depth ← pack_B 8%Z;
  colour ← pack_B 6%Z;
  z1 ← pack_B 0%Z;
  z2 ← pack_B 0%Z;
  z3 ← pack_B 0%Z;
  Ok (bw ++ bh ++ depth ++ colour ++ z1 ++ z2 ++ z3).

Section Icon.

(** [zlib.compress] is library code: any function on bytes. *)
Variable zlib_compress : list byte -> list byte.

(** [data], the bytes [_create_icon] writes *)
Definition icon_data (char : string) : result (list byte) :=
  hdr ← ihdr_data;
  ihdr ← chunk (bytes_of "IHDR") hdr;
  idat ← chunk (bytes_of "IDAT") (zlib_compress (raw char));
  iend ← chunk (bytes_of "IEND") [];
  Ok (png_signature ++ ihdr ++ idat ++ iend).

(** [Path(filename).write_bytes(data)] *)
Definition write_bytes (fs : filesystem) (filename : path) (data : list byte)
  : filesystem :=
  <[filename := String.string_of_list_byte data]> fs.

Definition _create_icon (char : string) (filename : path) (fs : filesystem)
  : result filesystem :=
  data ← icon_data char;
  Ok (write_bytes fs filename data).

End Icon.

(** *** [update] *)





End Moddy.

(** ** Inputs used in the examples below *)

Module Inputs.
Import Py Re World.

(** A network on which every GET returns the same text, which neither
    parser can read. *)
Definition serve_text (doc : string) : network :=
  fun _ => Some (Body doc None None).

(** Maven metadata that lists build 9 and then build 10 of 1.21. *)
Definition metadata_9_10 : string :=
  "<metadata><versioning><versions><version>1.21-9</version><version>1.21-10</version></versions></versioning></metadata>".

End Inputs.

Module Inputs2.
Import Py Re World.

(** A body that is no XML and no JSON: what a gateway answers when the
    repository behind it is down. *)
Definition unavailable : body := Body "Service Unavailable" None None.

(** Metadata in which a version element is empty. *)
Definition empty_version_metadata : body :=
  Body "<metadata><versioning><versions><version/></versions></versioning></metadata>"
       (Some (ET.Element "metadata" None
                [ET.Element "versioning" None
                   [ET.Element "versions" None [ET.Element "version" None []]]]))
       None.

End Inputs2.

Module Inputs3.
Import Py Re Pathlib World.

Definition gradle_properties : path := of_str "gradle.properties".

(** A project whose group begins with a slash. *)
Definition project_abs : filesystem :=
  {[ gradle_properties := "version=1.0.0" +:+ AddService.nl +:+ "group=/abs" +:+ AddService.nl ]}.

(** A project with the group of the template, and the same project once
    the Fabric implementation of [IFoo] is there. *)
Definition project : filesystem :=
  {[ gradle_properties :=
       "version=1.0.0" +:+ AddService.nl +:+ "group=com.example.modtemplate" +:+ AddService.nl ]}.

Definition project_with_fabric_impl : filesystem :=
  <[ of_str "fabric/src/main/java/com/example/modtemplate/platform/FabricIFoo.java" := "// mine" ]>
    project.

End Inputs3.

Module Inputs4.
Import Py Re Pathlib World.


(** A script that declares the given version. *)
Definition script_declaring (version : string) : string :=
  "#!/usr/bin/env python3" +:+ AddService.nl
  +:+ "MODDY_VERSION = " +:+ String dquote version +:+ String dquote AddService.nl.

Definition newer_download : network := Inputs.serve_text (script_declaring "0.2.0").

End Inputs4.

Module Inputs5.
Import Py Re.

(** A properties file in the layout of the template. *)
Definition properties_text : string :=
  unlines ["# Project"; "version=1.0.0"; "minecraft_version=1.21.4";
           "minecraft_version_range=[1.21.4, 1.22)"; "neo_form_version=1.21.4-20241203.161809";
           "mod_name=Example Mod"; "game_versions=1.21.4"; ""].

End Inputs5.


(** * Properties of the scripts *)

(** ** Python helpers *)

Module PyFacts.
Import Py.

Lemma last_item_Ok {A : Type} (l : list A) (x : A) :
  last_item l = Ok x <-> last l = Some x.
Proof.
  unfold last_item. destruct (last l); split; intros H; congruence.
Qed.

Lemma last_item_cons {A : Type} (x : A) (l : list A) :
  exists y, last_item (x :: l) = Ok y.
Proof.
  unfold last_item. destruct (last (x :: l)) as [y|] eqn:E; [eauto|].
  apply last_None in E. discriminate.
Qed.

Lemma StronglySorted_last {A : Type} (R : relation A) `{!Reflexive R}
    (l : list A) (r : A) :
  StronglySorted R l -> last l = Some r -> forall v, v ∈ l -> R v r.
Proof.
  induction 1 as [|x l Hs IH Hall]; intros Hl v Hv.
  - inversion Hv.
  - destruct l as [|y l'].
    + simpl in Hl. injection Hl as <-. apply list_elem_of_singleton in Hv as ->. reflexivity.
    + change (last (x :: y :: l')) with (last (y :: l')) in Hl.
      apply elem_of_cons in Hv as [->|Hv].
      * rewrite Forall_forall in Hall. apply Hall.
        apply list_elem_of_In. destruct (last_Some (y :: l') r) as [[l'' E] _]; [done|].
        rewrite E. apply list_elem_of_In, elem_of_app. right. left.
      * by apply IH.
Qed.

(** The last item of a sorted list of strings is one of the items and no
    item is above it. *)
Lemma sort_last_greatest (l : list string) (r : string) :
  last (sort l) = Some r ->
  r ∈ l /\ forall v, v ∈ l -> String.le v r.
Proof.
  intros Hl. unfold sort in *.
  assert (Hperm : merge_sort String.le l ≡ₚ l) by apply merge_sort_Permutation.
  split.
  - rewrite <- Hperm. destruct (last_Some (merge_sort String.le l) r) as [[l' E] _]; [done|].
    rewrite E. apply elem_of_app. right. left.
  - intros v Hv. rewrite <- Hperm in Hv.
    eapply (StronglySorted_last String.le); [|exact Hl|exact Hv].
    apply StronglySorted_merge_sort; apply _.
Qed.

Lemma sort_nonempty (x : string) (l : list string) : sort (x :: l) <> [].
Proof.
  intros E. assert (H : sort (x :: l) ≡ₚ x :: l) by apply merge_sort_Permutation.
  rewrite E in H. by apply Permutation_nil_cons in H.
Qed.

End PyFacts.

(** ** Strings *)

Module StrFacts.
Import Py.

Lemma app_cons (c : ascii) (s t : string) : String c s +:+ t = String c (s +:+ t).
Proof. reflexivity. Qed.

Lemma app_nil_l (s : string) : "" +:+ s = s.
Proof. reflexivity. Qed.

Lemma app_nil_r (s : string) : s +:+ "" = s.
Proof. induction s as [|c s IH]; [done|]. by rewrite app_cons, IH. Qed.

Lemma app_assoc (a b c : string) : (a +:+ b) +:+ c = a +:+ (b +:+ c).
Proof. induction a as [|x a IH]; [done|]. by rewrite !app_cons, IH. Qed.

Lemma length_app (a b : string) :
  String.length (a +:+ b) = (String.length a + String.length b)%nat.
Proof. induction a as [|x a IH]; [done|]. rewrite app_cons. simpl. by rewrite IH. Qed.

Lemma app_eq_nil (a b : string) : a +:+ b = "" -> a = "" /\ b = "".
Proof. destruct a; [done|]. rewrite app_cons. discriminate. Qed.

Lemma app_inv_head (a b c : string) : a +:+ b = a +:+ c -> b = c.
Proof. induction a as [|x a IH]; [done|]. rewrite !app_cons. intros [= H]. auto. Qed.

Lemma is_empty_true (s : string) : is_empty s = true <-> s = "".
Proof. by destruct s. Qed.

Lemma is_empty_false (s : string) : is_empty s = false <-> s <> "".
Proof. by destruct s. Qed.

Lemma ascii_eqb_eq (a b : ascii) : Ascii.eqb a b = true <-> a = b.
Proof. apply Ascii.eqb_eq. Qed.

(** *** Prefixes *)

Lemma strip_prefix_Some (p s r : string) : strip_prefix p s = Some r <-> s = p +:+ r.
Proof.
  revert s. induction p as [|a p IH]; intros s; simpl.
  - split; [by intros [= ->]|by intros ->].
  - destruct s as [|b s].
    + split; [done|]. rewrite app_cons. discriminate.
    + rewrite app_cons. destruct (Ascii.eqb a b) eqn:E.
      * apply Ascii.eqb_eq in E as ->. rewrite IH. split; [by intros ->|by intros [= ->]].
      * apply Ascii.eqb_neq in E. split; [done|]. intros [= -> _]. done.
Qed.

Lemma strip_prefix_app (p r : string) : strip_prefix p (p +:+ r) = Some r.
Proof. by apply strip_prefix_Some. Qed.

Lemma startswith_strip (s p : string) :
  startswith s p = true <-> exists r, strip_prefix p s = Some r.
Proof.
  unfold startswith. revert s. induction p as [|a p IH]; intros s.
  - destruct s; simpl; split; eauto.
  - destruct s as [|b s]; simpl.
    + split; [done|]. by intros [? ?].
    + destruct (ascii_dec a b) as [->|Hne].
      * rewrite Ascii.eqb_refl. apply IH.
      * assert (Ascii.eqb a b = false) as -> by by apply Ascii.eqb_neq.
        split; [done|]. by intros [? ?].
Qed.

Lemma startswith_iff (s p : string) : startswith s p = true <-> exists r, s = p +:+ r.
Proof.
  rewrite startswith_strip. split; intros [r H]; exists r; by apply strip_prefix_Some.
Qed.

Lemma startswith_false_strip (s p : string) :
  startswith s p = false <-> strip_prefix p s = None.
Proof.
  split; intros H.
  - destruct (strip_prefix p s) eqn:E; [|done].
    assert (startswith s p = true) by (apply startswith_strip; eauto). congruence.
  - destruct (startswith s p) eqn:E; [|done].
    apply startswith_strip in E as [r E]. congruence.
Qed.

Lemma startswith_app (p r : string) : startswith (p +:+ r) p = true.
Proof. apply startswith_iff. eauto. Qed.

(** *** Occurrences *)

Lemma contains_empty (sub : string) : contains "" sub = startswith "" sub.
Proof. unfold contains. by rewrite orb_false_r. Qed.

Lemma contains_cons (c : ascii) (s sub : string) :
  contains (String c s) sub = startswith (String c s) sub || contains s sub.
Proof. reflexivity. Qed.

Lemma contains_iff (s sub : string) :
  contains s sub = true <-> exists a b, s = a +:+ sub +:+ b.
Proof.
  induction s as [|c s IH].
  - rewrite contains_empty, startswith_iff. split.
    + intros [r H]. exists "", r. done.
    + intros (a & b & H). symmetry in H. apply app_eq_nil in H as [-> H].
      apply app_eq_nil in H as [-> ->]. by exists "".
  - rewrite contains_cons, orb_true_iff, startswith_iff, IH. split.
    + intros [[r H]|(a & b & H)].
      * exists "", r. done.
      * exists (String c a), b. by rewrite app_cons, H.
    + intros (a & b & H). destruct a as [|x a].
      * left. exists b. done.
      * right. rewrite app_cons in H. injection H as -> ->. eauto.
Qed.

Lemma contains_nil (s : string) : contains s "" = true.
Proof. apply contains_iff. exists "", s. done. Qed.

Lemma contains_app_l (a b sub : string) : contains a sub = true -> contains (a +:+ b) sub = true.
Proof.
  rewrite !contains_iff. intros (x & y & ->). exists x, (y +:+ b).
  by rewrite !app_assoc.
Qed.

Lemma contains_app_r (a b sub : string) : contains b sub = true -> contains (a +:+ b) sub = true.
Proof.
  rewrite !contains_iff. intros (x & y & ->). exists (a +:+ x), y.
  by rewrite !app_assoc.
Qed.

Lemma contains_trans (s t u : string) :
  contains s t = true -> contains t u = true -> contains s u = true.
Proof.
  rewrite !contains_iff. intros (a & b & ->) (c & d & ->).
  exists (a +:+ c), (d +:+ b). by rewrite !app_assoc.
Qed.

End StrFacts.

(** ** [get_artifact_latest] *)

Module ArtifactLatest.
Import Py Re World SetMinecraftVersion Inputs.

(** The versions [get_artifact_latest] chooses from in a text: those with
    the prefix, narrowed to the final releases when there is one. *)
Definition candidates (mc doc : string) : list string :=
  List.filter (fun v => startswith v (mc +:+ "-")) (findall_version doc).

Definition pool (mc doc : string) : list string :=
  match List.filter is_stable_artifact (candidates mc doc) with
  | [] => candidates mc doc
  | stable => stable
  end.

Lemma get_artifact_latest_unreachable (net : network) (url mc : string) :
  net url = None -> get_artifact_latest net url mc = Ok None.
Proof. intros H. unfold get_artifact_latest, fetch_url_text. by rewrite H. Qed.

Lemma get_artifact_latest_fetched (net : network) (url mc : string) (b : body) :
  net url = Some b ->
  get_artifact_latest net url mc =
    match candidates mc (text b) with
    | [] => Ok None
    | _ :: _ => v ← last_item (sort (pool mc (text b))); Ok (Some v)
    end.
Proof.
  intros H. unfold get_artifact_latest, fetch_url_text, pool, candidates. rewrite H.
  destruct (List.filter _ (findall_version (text b))) as [|c cs] eqn:Ec; [done|].
  by destruct (List.filter is_stable_artifact (c :: cs)).
Qed.

Lemma pool_nonempty (mc doc : string) :
  candidates mc doc <> [] -> pool mc doc <> [].
Proof.
  unfold pool. intros H. by destruct (List.filter is_stable_artifact _).
Qed.

(** [get_artifact_latest] never raises. *)
Lemma get_artifact_latest_returns (net : network) (url mc : string) :
  exists r, get_artifact_latest net url mc = Ok r.
Proof.
  destruct (net url) as [b|] eqn:E.
  - rewrite (get_artifact_latest_fetched _ _ _ _ E).
    destruct (candidates mc (text b)) as [|c cs] eqn:Ec; [eauto|].
    assert (Hp : pool mc (text b) <> []) by (apply pool_nonempty; by rewrite Ec).
    destruct (pool mc (text b)) as [|p ps]; [done|].
    destruct (sort (p :: ps)) as [|q qs] eqn:Es; [by apply PyFacts.sort_nonempty in Es|].
    destruct (PyFacts.last_item_cons q qs) as [y ->]. simpl. eauto.
  - rewrite get_artifact_latest_unreachable; eauto.
Qed.

(** It returns [None] exactly when no listed version has the prefix. *)
Lemma get_artifact_latest_None (net : network) (url mc : string) (b : body) :
  net url = Some b ->
  get_artifact_latest net url mc = Ok None <-> candidates mc (text b) = [].
Proof.
  intros E. rewrite (get_artifact_latest_fetched _ _ _ _ E).
  destruct (candidates mc (text b)) as [|c cs] eqn:Ec; [done|].
  split; [|done]. intros H.
  destruct (last_item (sort (pool mc (text b)))); simpl in H; discriminate.
Qed.

(** What it returns otherwise is the greatest string of the pool, in the
    order that compares strings character by character. *)
Lemma get_artifact_latest_greatest (net : network) (url mc r : string) (b : body) :
  net url = Some b ->
  get_artifact_latest net url mc = Ok (Some r) ->
  r ∈ pool mc (text b) /\ forall v, v ∈ pool mc (text b) -> String.le v r.
Proof.
  intros E. rewrite (get_artifact_latest_fetched _ _ _ _ E).
  destruct (candidates mc (text b)) as [|c cs]; [done|].
  destruct (last_item (sort (pool mc (text b)))) as [y|] eqn:El; simpl; [|done].
  intros [= <-]. apply PyFacts.sort_last_greatest. by apply PyFacts.last_item_Ok.
Qed.

(** Every string of the pool is listed, has the prefix, and is a final
    release whenever some candidate is one. *)
Lemma pool_sound (mc doc v : string) :
  v ∈ pool mc doc ->
  v ∈ findall_version doc /\ startswith v (mc +:+ "-") = true
  /\ ((exists u, u ∈ candidates mc doc /\ is_stable_artifact u = true) ->
      is_stable_artifact v = true).
Proof.
  unfold pool, candidates. intros Hv.
  set (cs := List.filter _ (findall_version doc)) in *.
  assert (Hcs : forall u, u ∈ cs -> u ∈ findall_version doc /\ startswith u (mc +:+ "-") = true).
  { intros u Hu. apply list_elem_of_In, filter_In in Hu as [Hu ?].
    split; [by apply list_elem_of_In|done]. }
  destruct (List.filter is_stable_artifact cs) as [|s0 ss] eqn:Es.
  - destruct (Hcs v Hv) as [? ?]. split; [done|]. split; [done|].
    intros (u & Hu & Hst). exfalso.
    assert (Hin : In u (List.filter is_stable_artifact cs)).
    { apply filter_In. split; [by apply list_elem_of_In|done]. }
    by rewrite Es in Hin.
  - rewrite <- Es in Hv. apply list_elem_of_In, filter_In in Hv as [Hv Hst].
    apply list_elem_of_In in Hv. destruct (Hcs v Hv) as [? ?]. done.
Qed.

(** C1, at the input where the code departs from it: the metadata lists
    1.21-9 and then 1.21-10, both final releases of 1.21, and
    [get_artifact_latest] returns 1.21-9, although 1.21-10 is the newer
    build, which is also how [ver_key], the order the same script sorts
    loader versions by, ranks the two. *)
Theorem get_artifact_latest_picks_older_build :
  findall_version metadata_9_10 = ["1.21-9"; "1.21-10"]
  /\ candidates "1.21" metadata_9_10 = ["1.21-9"; "1.21-10"]
  /\ is_stable_artifact "1.21-10" = true
  /\ (k9 ← ver_key (Json.JStr "1.21-9");
      k10 ← ver_key (Json.JStr "1.21-10");
      key_lt k9 k10) = Ok true
  /\ get_artifact_latest (serve_text metadata_9_10) neoform_url "1.21"
     = Ok (Some "1.21-9").
Proof. repeat split; vm_compute; reflexivity. Qed.

End ArtifactLatest.

(** ** The fetchers of [set_minecraft_version.py] *)

Module Fetchers.
Import Py Re World SetMinecraftVersion.


























(** [get_neoforge_version] has [ET.fromstring] outside its [try]: a body
    that is no XML makes it raise. *)
Lemma get_neoforge_version_unparsable (net : network) (mc : string) (b : body) :
  net neoforge_url = Some b -> as_xml b = None ->
  get_neoforge_version net mc = Raise ParseError.
Proof.
  intros Hnet Hxml. unfold get_neoforge_version, fetch_url_text, ET_fromstring.
  by rewrite Hnet, Hxml.
Qed.

(** Then [collect_versions] raises too, whatever the other endpoints do. *)
Lemma collect_versions_unparsable (net : network) (mc : string) (b : body) :
  net neoforge_url = Some b -> as_xml b = None ->
  collect_versions net mc = Raise ParseError.
Proof.
  intros Hnet Hxml. unfold collect_versions, get_neoform_version.
  destruct (ArtifactLatest.get_artifact_latest_returns net neoform_url mc) as [r ->].
  simpl. by rewrite (get_neoforge_version_unparsable _ _ _ Hnet Hxml).
Qed.

(** C2, at inputs where the code departs from it: when the NeoForge
    endpoint answers with a body that is no XML, [get_neoforge_version]
    raises and so does [collect_versions], where [get_parchment_version]
    returns [None] on the same body; an empty version element makes
    [get_neoforge_version] raise as well. *)
Theorem collect_versions_raises_on_malformed_neoforge_metadata :
  get_neoforge_version (fun _ => Some Inputs2.unavailable) "1.21.5" = Raise ParseError
  /\ collect_versions (fun _ => Some Inputs2.unavailable) "1.21.5" = Raise ParseError
  /\ get_parchment_version (fun _ => Some Inputs2.unavailable) "1.21.5" = Ok None
  /\ get_neoforge_version (fun _ => Some Inputs2.empty_version_metadata) "1.21.5"
     = Raise AttributeError
  /\ collect_versions (fun _ => Some Inputs2.empty_version_metadata) "1.21.5"
     = Raise AttributeError.
Proof. repeat split; vm_compute; reflexivity. Qed.

End Fetchers.

(** ** Names, white space and paths *)

Module PathFacts.
Import Py Re Pathlib StrFacts.

(** A service name as the claim spells it: a letter or an underscore,
    then letters, digits and underscores. *)
Definition is_identifier (name : string) : bool :=
  match name with
  | EmptyString => false
  | String c rest => is_name_start c && all_chars is_name_char rest
  end.

Definition not_slash (c : ascii) : bool := negb (Ascii.eqb "/" c).

Lemma all_chars_cons (p : ascii -> bool) (c : ascii) (s : string) :
  all_chars p (String c s) = p c && all_chars p s.
Proof. reflexivity. Qed.

Lemma all_chars_app (p : ascii -> bool) (a b : string) :
  all_chars p (a +:+ b) = all_chars p a && all_chars p b.
Proof.
  induction a as [|c a IH]; [done|]. rewrite app_cons. simpl. by rewrite IH, andb_assoc.
Qed.

Lemma all_chars_impl (p q : ascii -> bool) (s : string) :
  (forall c, p c = true -> q c = true) -> all_chars p s = true -> all_chars q s = true.
Proof.
  intros Hpq. induction s as [|c s IH]; [done|]. simpl.
  rewrite !andb_true_iff. intros [? ?]. auto.
Qed.

Lemma name_char_not_slash (c : ascii) : is_name_char c = true -> not_slash c = true.
Proof. destruct c as [[] [] [] [] [] [] [] []]; vm_compute; congruence. Qed.

Lemma name_char_not_space (c : ascii) : is_name_char c = true -> negb (is_space c) = true.
Proof. destruct c as [[] [] [] [] [] [] [] []]; vm_compute; congruence. Qed.

Lemma name_start_char (c : ascii) : is_name_start c = true -> is_name_char c = true.
Proof. unfold is_name_char. by intros ->. Qed.

Lemma identifier_chars (name : string) :
  is_identifier name = true -> all_chars is_name_char name = true.
Proof.
  destruct name as [|c rest]; [done|]. simpl. rewrite !andb_true_iff.
  intros [? ?]. split; [by apply name_start_char|done].
Qed.

Lemma identifier_nonempty (name : string) : is_identifier name = true -> name <> "".
Proof. by destruct name. Qed.

(** *** [strip] leaves a string without white space alone *)

Lemma drop_while_none (p : ascii -> bool) (s : string) :
  all_chars (fun c => negb (p c)) s = true -> drop_while p s = s.
Proof.
  destruct s as [|c s]; [done|]. simpl. rewrite andb_true_iff. intros [H _].
  apply negb_true_iff in H. by rewrite H.
Qed.

Lemma rev_app_spec (s a : string) : String.rev_app s a = String.rev s +:+ a.
Proof.
  unfold String.rev. revert a. induction s as [|c s IH]; intros a; [done|]. simpl.
  rewrite IH, (IH (String c "")), app_assoc. done.
Qed.

Lemma rev_snoc (s : string) (c : ascii) : String.rev (s +:+ String c "") = String c (String.rev s).
Proof.
  induction s as [|x s IH]; [done|]. rewrite app_cons. unfold String.rev at 1. simpl.
  rewrite rev_app_spec, IH. unfold String.rev at 2. simpl. by rewrite (rev_app_spec s).
Qed.

Lemma rev_involutive (s : string) : String.rev (String.rev s) = s.
Proof.
  induction s as [|c s IH]; [done|]. unfold String.rev at 2. simpl.
  rewrite rev_app_spec, rev_snoc, IH. done.
Qed.

Lemma all_chars_rev (p : ascii -> bool) (s : string) :
  all_chars p (String.rev s) = all_chars p s.
Proof.
  induction s as [|c s IH]; [done|]. unfold String.rev. simpl.
  rewrite rev_app_spec, all_chars_app, IH. simpl. rewrite andb_true_r. apply andb_comm.
Qed.

Lemma strip_no_space (s : string) :
  all_chars (fun c => negb (is_space c)) s = true -> strip s = s.
Proof.
  intros H. unfold strip, lstrip, rstrip. rewrite (drop_while_none _ s H).
  rewrite drop_while_none; [apply rev_involutive|]. by rewrite all_chars_rev.
Qed.

Lemma strip_identifier (name : string) : is_identifier name = true -> strip name = name.
Proof.
  intros H. apply strip_no_space. eapply all_chars_impl; [|by apply identifier_chars].
  apply name_char_not_space.
Qed.

Lemma span_all (p : ascii -> bool) (s : string) :
  all_chars p s = true -> span p s = (s, "").
Proof.
  induction s as [|c s IH]; [done|]. simpl. rewrite andb_true_iff. intros [-> H].
  by rewrite (IH H).
Qed.

Lemma match_identifier (name : string) :
  is_identifier name = true -> match_service_name name = true.
Proof.
  destruct name as [|c rest]; [done|]. simpl. rewrite andb_true_iff. intros [-> H].
  by rewrite (span_all _ _ H).
Qed.

(** *** Components *)

Lemma contains_char_false (s : string) (c : ascii) :
  contains s (String c "") = false ->
  all_chars (fun x => negb (Ascii.eqb c x)) s = true.
Proof.
  induction s as [|x s IH]; [done|]. rewrite contains_cons, orb_false_iff.
  intros [H1 H2]. simpl. rewrite (IH H2), andb_true_r.
  unfold startswith in H1. simpl in H1.
  destruct (ascii_dec c x) as [->|Hne].
  - destruct s; done.
  - apply negb_true_iff. by apply Ascii.eqb_neq.
Qed.

Lemma split_on_none (p : ascii -> bool) (s : string) :
  all_chars (fun c => negb (p c)) s = true -> split_on p s = [s].
Proof.
  induction s as [|c s IH]; [done|]. simpl. rewrite andb_true_iff. intros [H1 H2].
  apply negb_true_iff in H1. by rewrite H1, (IH H2).
Qed.

Lemma root_of_not_slash (s : string) : all_chars not_slash s = true -> root_of s = "".
Proof.
  destruct s as [|c s]; [done|]. simpl. rewrite andb_true_iff. intros [H _].
  unfold not_slash in H. apply negb_true_iff, Ascii.eqb_neq in H.
  destruct c as [[] [] [] [] [] [] [] []]; try done.
Qed.

Lemma is_component_long (s : string) : (2 <= String.length s)%nat -> is_component s = true.
Proof. destruct s as [|a [|b s]]; simpl; try lia. intros _. by destruct a as [[] [] [] [] [] [] [] []]. Qed.

(** A string without a slash that is neither empty nor a dot is a path
    of one component. *)
Lemma of_str_component (s : string) :
  all_chars not_slash s = true -> is_component s = true -> of_str s = Path "" [s].
Proof.
  intros Hs Hc. unfold of_str, split. rewrite (root_of_not_slash s Hs).
  rewrite (split_on_none _ s Hs). simpl. by rewrite Hc.
Qed.

Lemma div_component (p : path) (s : string) :
  all_chars not_slash s = true -> is_component s = true ->
  p </> s = Path (root p) (parts p ++ [s]).
Proof. intros Hs Hc. unfold div. by rewrite (of_str_component s Hs Hc). Qed.

Lemma div_relative (p : path) (s : string) :
  root_of s = "" -> p </> s = Path (root p) (parts p ++ parts (of_str s)).
Proof. intros H. unfold div, of_str. simpl. by rewrite H. Qed.

(** The package path of a group that has no slash and does not begin
    with a dot is relative. *)
Lemma root_of_pkg_path (group : string) :
  contains group "/" = false -> startswith group "." = false ->
  root_of (replace group "." "/") = "".
Proof.
  intros Hslash Hdot. destruct group as [|c g]; [done|].
  apply contains_char_false in Hslash. rewrite all_chars_cons in Hslash.
  apply andb_true_iff in Hslash as [Hc _].
  apply negb_true_iff, Ascii.eqb_neq in Hc.
  assert (Hd : Ascii.eqb "." c = false).
  { destruct (Ascii.eqb "." c) eqn:E; [|done].
    apply Ascii.eqb_eq in E as <-. by destruct g. }
  unfold replace, is_empty. cbn [String.length replace_go strip_prefix]. rewrite Hd.
  destruct c as [[] [] [] [] [] [] [] []]; try done.
Qed.

End PathFacts.

(** ** [add-service] *)

Module AddServiceFacts.
Import Py Re Pathlib World StrFacts PathFacts.

(** The components of the package directory of a group. *)
Definition pkg_parts (group : string) : list string :=
  parts (of_str (replace group "." "/")).

(** The seven files as C4 describes them: the interface under [common],
    an implementation for each loader, and a service entry for each
    loader, named after the interface. *)
Definition claimed_files (group name : string) : list (path * string) :=
  let nl := AddService.nl in
  let fqn := group +:+ ".platform.services." +:+ name in
  let java top file :=
    Path "" ([top; "src"; "main"; "java"] ++ pkg_parts group ++ "platform" :: file) in
  let meta top := Path "" [top; "src"; "main"; "resources"; "META-INF"; "services"; fqn] in
  let impl loader :=
    "package " +:+ group +:+ ".platform;" +:+ nl +:+ nl
    +:+ "import " +:+ fqn +:+ ";" +:+ nl +:+ nl
    +:+ "public class " +:+ loader +:+ name +:+ " implements " +:+ name +:+ " {" +:+ nl
    +:+ "}" +:+ nl in
  [(java "common" ["services"; name +:+ ".java"],
    "package " +:+ group +:+ ".platform.services;" +:+ nl +:+ nl
    +:+ "public interface " +:+ name +:+ " {" +:+ nl +:+ "}" +:+ nl);
   (java "fabric" ["Fabric" +:+ name +:+ ".java"], impl "Fabric");
   (java "forge" ["Forge" +:+ name +:+ ".java"], impl "Forge");
   (java "neoforge" ["NeoForge" +:+ name +:+ ".java"], impl "NeoForge");
   (meta "fabric", group +:+ ".platform.Fabric" +:+ name +:+ nl);
   (meta "forge", group +:+ ".platform.Forge" +:+ name +:+ nl);
   (meta "neoforge", group +:+ ".platform.NeoForge" +:+ name +:+ nl)].

Lemma not_slash_contains (s : string) :
  contains s "/" = false -> all_chars not_slash s = true.
Proof. apply contains_char_false. Qed.

Lemma not_slash_identifier (name : string) :
  is_identifier name = true -> all_chars not_slash name = true.
Proof.
  intros H. eapply all_chars_impl; [apply name_char_not_slash|by apply identifier_chars].
Qed.

Lemma length_ge_app_l (a b : string) (n : nat) :
  (n <= String.length a)%nat -> (n <= String.length (a +:+ b))%nat.
Proof. rewrite length_app. lia. Qed.

Lemma length_ge_app_r (a b : string) (n : nat) :
  (n <= String.length b)%nat -> (n <= String.length (a +:+ b))%nat.
Proof. rewrite length_app. lia. Qed.

(** A file name made of the name of the service and literal text around it. *)
Lemma div_file (p : path) (pre name post : string) :
  all_chars not_slash pre = true -> all_chars not_slash post = true ->
  (2 <= String.length post)%nat ->
  all_chars not_slash name = true ->
  p </> (pre +:+ name +:+ post) = Path (root p) (parts p ++ [pre +:+ name +:+ post]).
Proof.
  intros Hpre Hpost Hlen Hname. apply div_component.
  - by rewrite !all_chars_app, Hpre, Hname, Hpost.
  - apply is_component_long. by do 2 apply length_ge_app_r.
Qed.

Lemma div_fqn (p : path) (group name : string) :
  all_chars not_slash group = true -> all_chars not_slash name = true ->
  p </> (group +:+ ".platform.services." +:+ name)
  = Path (root p) (parts p ++ [group +:+ ".platform.services." +:+ name]).
Proof.
  intros Hg Hn. apply div_component.
  - by rewrite !all_chars_app, Hg, Hn.
  - apply is_component_long. apply length_ge_app_r, length_ge_app_l. simpl. lia.
Qed.

Lemma div_literal (p : path) (s : string) :
  of_str s = Path "" [s] -> p </> s = Path (root p) (parts p ++ [s]).
Proof. intros H. unfold div. by rewrite H. Qed.

(** For a group without a slash that does not begin with a dot, and a
    name that is an identifier, [files] is the dictionary C4 describes. *)
Lemma files_claimed (group name : string) :
  is_identifier name = true ->
  contains group "/" = false -> startswith group "." = false ->
  AddService.files group name = claimed_files group name.
Proof.
  intros Hname Hslash Hdot.
  pose proof (not_slash_contains _ Hslash) as Hg.
  pose proof (not_slash_identifier _ Hname) as Hn.
  pose proof (root_of_pkg_path _ Hslash Hdot) as Hroot.
  unfold AddService.files, claimed_files, pkg_parts.
  set (pkg := parts (of_str (replace group "." "/"))).
  change (of_str "common/src/main/java") with (Path "" ["common"; "src"; "main"; "java"]).
  change (of_str "fabric/src/main/java") with (Path "" ["fabric"; "src"; "main"; "java"]).
  change (of_str "forge/src/main/java") with (Path "" ["forge"; "src"; "main"; "java"]).
  change (of_str "neoforge/src/main/java") with (Path "" ["neoforge"; "src"; "main"; "java"]).
  change (of_str "fabric/src/main/resources/META-INF/services")
    with (Path "" ["fabric"; "src"; "main"; "resources"; "META-INF"; "services"]).
  change (of_str "forge/src/main/resources/META-INF/services")
    with (Path "" ["forge"; "src"; "main"; "resources"; "META-INF"; "services"]).
  change (of_str "neoforge/src/main/resources/META-INF/services")
    with (Path "" ["neoforge"; "src"; "main"; "resources"; "META-INF"; "services"]).
  rewrite !(div_relative _ _ Hroot). fold pkg.
  rewrite !(div_literal _ "platform") by reflexivity.
  rewrite !(div_literal _ "services") by reflexivity.
  change (name +:+ ".java") with ("" +:+ name +:+ ".java").
  rewrite (div_file _ "" name ".java") by (done || (simpl; lia)).
  rewrite (div_file _ "Fabric" name ".java") by (done || (simpl; lia)).
  rewrite (div_file _ "Forge" name ".java") by (done || (simpl; lia)).
  rewrite (div_file _ "NeoForge" name ".java") by (done || (simpl; lia)).
  rewrite !div_fqn by done.
  change ("" +:+ name +:+ ".java") with (name +:+ ".java").
  unfold AddService.dict_of. cbn [fold_left fst snd root parts app].
  rewrite <- !(List.app_assoc pkg). cbn [app].
  cbn [AddService.dict_set].
  repeat (rewrite decide_False by discriminate; cbn [AddService.dict_set]).
  reflexivity.
Qed.

Lemma claimed_files_NoDup (group name : string) :
  NoDup (map fst (claimed_files group name)).
Proof.
  unfold claimed_files. cbn [map fst app].
  repeat (apply NoDup_cons_2;
          [intros H; repeat (apply elem_of_cons in H as [H|H]; [discriminate H|]);
           by apply elem_of_nil in H|]).
  apply NoDup_nil_2.
Qed.

(** Writing files with distinct paths, none of them there before, adds
    exactly these files. *)
Lemma write_files_union (files : list (path * string)) (fs : filesystem) :
  NoDup (map fst files) ->
  AddService.write_files fs files = list_to_map files ∪ fs.
Proof.
  unfold AddService.write_files. revert fs.
  induction files as [|[k v] files IH]; intros fs Hnd.
  - simpl. by rewrite (left_id_L ∅ (∪)).
  - change (map fst ((k, v) :: files)) with (k :: map fst files) in Hnd.
    apply NoDup_cons in Hnd as [Hk Hnd]. cbn [fold_left fst snd list_to_map foldr].
    rewrite (IH _ Hnd). unfold write_text. cbn [uncurry].
    rewrite <- insert_union_l. symmetry. apply insert_union_r.
    apply not_elem_of_list_to_map_1. exact Hk.
Qed.

Lemma existing_nil (fs : filesystem) (files : list (path * string)) :
  (forall p, p ∈ map fst files -> fs !! p = None) -> AddService.existing fs files = [].
Proof.
  intros H. unfold AddService.existing.
  induction (map fst files) as [|p ps IH]; [done|]. simpl.
  unfold exists_ at 1. rewrite (H p) by left.
  rewrite bool_decide_eq_false_2 by (by intros [? ?]).
  apply IH. intros q Hq. apply H. by right.
Qed.

Lemma existing_cons (fs : filesystem) (files : list (path * string)) (p : path) :
  p ∈ map fst files -> is_Some (fs !! p) ->
  exists q qs, AddService.existing fs files = q :: qs.
Proof.
  intros Hp Hsome. unfold AddService.existing.
  destruct (List.filter (exists_ fs) (map fst files)) as [|q qs] eqn:E; [|eauto].
  exfalso. assert (Hin : In p (List.filter (exists_ fs) (map fst files))).
  { apply filter_In. split; [by apply list_elem_of_In|].
    unfold exists_. by apply bool_decide_eq_true_2. }
  by rewrite E in Hin.
Qed.

Lemma main_unfold (name answer group : string) (fs : filesystem) :
  match_service_name (strip name) = true ->
  AddService.parse_group fs (of_str "gradle.properties") = Ok group ->
  AddService.main name answer fs =
    match AddService.existing fs (AddService.files group (strip name)) with
    | _ :: _ => Ok fs
    | [] =>
        if negb (String.eqb (lower answer) "y") then Ok fs
        else Ok (AddService.write_files fs (AddService.files group (strip name)))
    end.
Proof. intros Hm Hg. unfold AddService.main. by rewrite Hm, Hg. Qed.

Lemma cmd_add_service_unfold (AUTO_YES : bool) (name answer group : string) (fs : filesystem) :
  match_service_name (strip name) = true ->
  Moddy._parse_group fs (of_str "gradle.properties") = Ok group ->
  Moddy.cmd_add_service AUTO_YES name answer fs =
    match Moddy.existing fs (Moddy.files group (strip name)) with
    | _ :: _ => Ok fs
    | [] =>
        if negb AUTO_YES && negb (String.eqb (lower answer) "y") then Ok fs
        else Ok (Moddy.write_files fs (Moddy.files group (strip name)))
    end.
Proof. intros Hm Hg. unfold Moddy.cmd_add_service. by rewrite Hm, Hg. Qed.

(** C5: when one of the paths of [files] is there already, neither
    script writes anything: the files afterwards are the files before. *)
Theorem add_service_existing_target_writes_nothing
    (AUTO_YES : bool) (name answer group : string) (fs : filesystem) (p : path) :
  match_service_name (strip name) = true ->
  AddService.parse_group fs (of_str "gradle.properties") = Ok group ->
  p ∈ map fst (AddService.files group (strip name)) ->
  is_Some (fs !! p) ->
  AddService.main name answer fs = Ok fs
  /\ Moddy.cmd_add_service AUTO_YES name answer fs = Ok fs.
Proof.
  intros Hm Hg Hp Hsome. split.
  - rewrite (main_unfold _ _ _ _ Hm Hg).
    by destruct (existing_cons fs _ p Hp Hsome) as (q & qs & ->).
  - rewrite (cmd_add_service_unfold _ _ _ group _ Hm Hg).
    change (Moddy.existing fs (Moddy.files group (strip name)))
      with (AddService.existing fs (AddService.files group (strip name))).
    by destruct (existing_cons fs _ p Hp Hsome) as (q & qs & ->).
Qed.

Lemma add_service_existing_target_writes_nothing_witness :
  AddService.main "IFoo" "y" Inputs3.project_with_fabric_impl
    = Ok Inputs3.project_with_fabric_impl
  /\ Moddy.cmd_add_service true "IFoo" "y" Inputs3.project_with_fabric_impl
    = Ok Inputs3.project_with_fabric_impl.
Proof.
  apply (add_service_existing_target_writes_nothing true "IFoo" "y" "com.example.modtemplate"
           Inputs3.project_with_fabric_impl
           (of_str "fabric/src/main/java/com/example/modtemplate/platform/FabricIFoo.java")).
  - reflexivity.
  - vm_compute. reflexivity.
  - vm_compute. right. left.
  - vm_compute. eauto.
Defined.

(** C4 as amended: for a service name that is an identifier and a group
    without a slash that does not begin with a dot, the confirmed
    operation adds exactly the seven files C4 describes, none of which
    was there, and leaves every other file as it was. *)
Theorem add_service_creates_claimed_files
    (AUTO_YES : bool) (name answer group : string) (fs : filesystem) :
  is_identifier name = true ->
  contains group "/" = false ->
  startswith group "." = false ->
  AddService.parse_group fs (of_str "gradle.properties") = Ok group ->
  (forall p, p ∈ map fst (claimed_files group name) -> fs !! p = None) ->
  lower answer = "y" ->
  length (claimed_files group name) = 7%nat
  /\ NoDup (map fst (claimed_files group name))
  /\ AddService.main name answer fs = Ok (list_to_map (claimed_files group name) ∪ fs)
  /\ Moddy.cmd_add_service AUTO_YES name answer fs
     = Ok (list_to_map (claimed_files group name) ∪ fs).
Proof.
  intros Hname Hslash Hdot Hgroup Hfree Hyes.
  pose proof (strip_identifier _ Hname) as Hstrip.
  pose proof (match_identifier _ Hname) as Hmatch.
  pose proof (files_claimed group name Hname Hslash Hdot) as Hfiles.
  pose proof (claimed_files_NoDup group name) as Hnd.
  split; [reflexivity|]. split; [exact Hnd|]. split.
  - rewrite (main_unfold name answer group fs) by (try rewrite Hstrip; done).
    rewrite Hstrip, Hfiles, (existing_nil _ _ Hfree), Hyes, String.eqb_refl.
    cbn [negb]. by rewrite write_files_union.
  - rewrite (cmd_add_service_unfold AUTO_YES name answer group fs) by (try rewrite Hstrip; done).
    rewrite Hstrip.
    change (Moddy.files group name) with (AddService.files group name).
    change (Moddy.existing fs) with (AddService.existing fs).
    change (Moddy.write_files fs) with (AddService.write_files fs).
    rewrite Hfiles, (existing_nil _ _ Hfree), Hyes, String.eqb_refl.
    cbn [negb]. rewrite andb_false_r. by rewrite write_files_union.
Qed.

Lemma add_service_creates_claimed_files_witness :
  length (claimed_files "com.example.modtemplate" "IFoo") = 7%nat
  /\ NoDup (map fst (claimed_files "com.example.modtemplate" "IFoo"))
  /\ AddService.main "IFoo" "Y" Inputs3.project
     = Ok (list_to_map (claimed_files "com.example.modtemplate" "IFoo") ∪ Inputs3.project)
  /\ Moddy.cmd_add_service false "IFoo" "Y" Inputs3.project
     = Ok (list_to_map (claimed_files "com.example.modtemplate" "IFoo") ∪ Inputs3.project).
Proof.
  apply (add_service_creates_claimed_files false "IFoo" "Y" "com.example.modtemplate"
           Inputs3.project).
  - reflexivity.
  - reflexivity.
  - reflexivity.
  - vm_compute. reflexivity.
  - intros p Hp. vm_compute in Hp.
    repeat (apply elem_of_cons in Hp as [->|Hp]; [vm_compute; reflexivity|]).
    by apply elem_of_nil in Hp.
  - reflexivity.
Defined.

(** C4 as stated fails for a group that begins with a slash: the three
    service entries are one path, so the confirmed operation leaves five
    new files, not seven. *)
Lemma add_service_absolute_group_five_files :
  is_identifier "IFoo" = true
  /\ AddService.parse_group Inputs3.project_abs (of_str "gradle.properties") = Ok "/abs"
  /\ AddService.existing Inputs3.project_abs (AddService.files "/abs" "IFoo") = []
  /\ map fst (AddService.files "/abs" "IFoo")
     = [Path "/" ["abs"; "platform"; "services"; "IFoo.java"];
        Path "/" ["abs"; "platform"; "FabricIFoo.java"];
        Path "/" ["abs"; "platform"; "ForgeIFoo.java"];
        Path "/" ["abs"; "platform"; "NeoForgeIFoo.java"];
        Path "/" ["abs.platform.services.IFoo"]]
  /\ AddService.main "IFoo" "y" Inputs3.project_abs
     = Ok (AddService.write_files Inputs3.project_abs (AddService.files "/abs" "IFoo"))
  /\ size (AddService.write_files Inputs3.project_abs (AddService.files "/abs" "IFoo"))
     = (size Inputs3.project_abs + 5)%nat.
Proof.
  assert (Hgroup : AddService.parse_group Inputs3.project_abs (of_str "gradle.properties")
                   = Ok "/abs") by (vm_compute; reflexivity).
  assert (Hnone : AddService.existing Inputs3.project_abs (AddService.files "/abs" "IFoo") = [])
    by (vm_compute; reflexivity).
  split; [reflexivity|]. split; [exact Hgroup|]. split; [exact Hnone|].
  split; [vm_compute; reflexivity|]. split.
  - rewrite (main_unfold "IFoo" "y" "/abs") by (done || exact Hgroup).
    change (strip "IFoo") with "IFoo". by rewrite Hnone.
  - vm_compute. reflexivity.
Qed.

End AddServiceFacts.

(** ** The two copies of each script *)

Module Copies.
Import Py Re Pathlib World.


(** The fetchers are copies as well. *)
Lemma fetchers_agree (net : network) (url mc : string) :
  SetMinecraftVersion.get_artifact_latest net url mc = Moddy._get_artifact_latest net url mc
  /\ SetMinecraftVersion.get_neoforge_version net mc = Moddy._get_neoforge_version net mc
  /\ SetMinecraftVersion.collect_versions net mc = Moddy._collect_versions net mc.
Proof. repeat split. Qed.

End Copies.

(** ** [update] *)

Module Update.
Import Py Re Pathlib World Moddy.












End Update.

(** ** The icon *)

Module Icon.
Import Py Pathlib World Zlib.

(** *** Bytes and checksums *)

(** Four bytes for a number, the most significant first. *)
Definition be32 (n : Z) : list byte :=
  [byte_of_Z (n / 2 ^ 24); byte_of_Z (n / 2 ^ 16); byte_of_Z (n / 2 ^ 8); byte_of_Z n].

(** A chunk of a PNG file: the length of the data, the type, the data,
    and the checksum of type and data. *)
Definition png_chunk (type data : list byte) : list byte :=
  be32 (Z.of_nat (length data)) ++ type ++ data ++ be32 (crc32 (type ++ data)).

Lemma pack_I_be32 (n : Z) : (0 <= n < 2 ^ 32)%Z -> pack_I n = Ok (be32 n).
Proof.
  intros [H0 H1]. unfold pack_I, be32.
  rewrite (proj2 (Z.leb_le 0 n) H0), (proj2 (Z.ltb_lt n (2 ^ 32)) H1). simpl andb. cbv iota.
  by rewrite !Z.shiftr_div_pow2 by lia.
Qed.

Lemma lxor_range (n a b : Z) :
  (0 <= n)%Z -> (0 <= a < 2 ^ n)%Z -> (0 <= b < 2 ^ n)%Z -> (0 <= Z.lxor a b < 2 ^ n)%Z.
Proof.
  intros Hn [Ha0 Ha1] [Hb0 Hb1].
  assert (H0 : (0 <= Z.lxor a b)%Z) by (by apply Z.lxor_nonneg).
  split; [exact H0|].
  destruct (Z.eq_dec (Z.lxor a b) 0%Z) as [->|Hne]; [by apply Z.pow_pos_nonneg|].
  assert (Hpos : (0 < n)%Z).
  { destruct (Z.eq_dec n 0%Z) as [->|?]; [|lia].
    change (2 ^ 0)%Z with 1%Z in *.
    assert (a = 0%Z) as -> by lia. assert (b = 0%Z) as -> by lia. done. }
  apply Z.log2_lt_pow2; [lia|].
  eapply Z.le_lt_trans; [by apply Z.log2_lxor|].
  apply Z.max_lub_lt.
  - destruct (Z.eq_dec a 0%Z) as [->|?]; [simpl; lia|]. apply Z.log2_lt_pow2; lia.
  - destruct (Z.eq_dec b 0%Z) as [->|?]; [simpl; lia|]. apply Z.log2_lt_pow2; lia.
Qed.

Lemma crc_shift_range (c : Z) : (0 <= c < 2 ^ 32)%Z -> (0 <= crc_shift c < 2 ^ 32)%Z.
Proof.
  intros [H0 H1]. unfold crc_shift.
  assert (Hs : (0 <= Z.shiftr c 1 < 2 ^ 32)%Z).
  { rewrite Z.shiftr_div_pow2 by lia. change (2 ^ 1)%Z with 2%Z.
    split; [apply Z.div_pos; lia|]. apply Z.div_lt_upper_bound; lia. }
  destruct (Z.testbit c 0); [|exact Hs].
  apply lxor_range; [lia|exact Hs|]. split; [done|reflexivity].
Qed.

Lemma Z_of_byte_range (b : byte) : (0 <= Z_of_byte b < 2 ^ 32)%Z.
Proof.
  unfold Z_of_byte. pose proof (Byte.to_N_bounded b) as H.
  split; [lia|]. change (2 ^ 32)%Z with 4294967296%Z. lia.
Qed.

Lemma crc_byte_range (c : Z) (b : byte) :
  (0 <= c < 2 ^ 32)%Z -> (0 <= crc_byte c b < 2 ^ 32)%Z.
Proof.
  intros Hc. unfold crc_byte.
  assert (H : (0 <= Z.lxor c (Z_of_byte b) < 2 ^ 32)%Z).
  { apply lxor_range; [lia|exact Hc|apply Z_of_byte_range]. }
  revert H. generalize (Z.lxor c (Z_of_byte b)). intros z Hz.
  cbn [Nat.iter nat_rect]. by do 8 apply crc_shift_range.
Qed.

Lemma crc32_range (data : list byte) : (0 <= crc32 data < 2 ^ 32)%Z.
Proof.
  unfold crc32. apply lxor_range; [lia| |split; [done|reflexivity]].
  assert (H : (0 <= 0xFFFFFFFF < 2 ^ 32)%Z) by (split; [done|reflexivity]).
  revert H. generalize 0xFFFFFFFF%Z. induction data as [|b data IH]; intros c Hc; [exact Hc|].
  simpl. apply IH. by apply crc_byte_range.
Qed.

Lemma crc32_mask (data : list byte) : Z.land (crc32 data) 0xffffffff = crc32 data.
Proof.
  change 0xffffffff%Z with (Z.ones 32). rewrite Z.land_ones by lia.
  apply Z.mod_small, crc32_range.
Qed.

(** [chunk] returns the chunk as the PNG format lays it out, when the
    length of the data fits four bytes. *)
Lemma chunk_png (type data : list byte) :
  (Z.of_nat (length data) < 2 ^ 32)%Z ->
  SetupMod.chunk type data = Ok (png_chunk type data).
Proof.
  intros Hlen. unfold SetupMod.chunk, png_chunk.
  rewrite (pack_I_be32 (Z.of_nat (length data)))
    by (split; [apply Nat2Z.is_nonneg|exact Hlen]).
  simpl.
  rewrite crc32_mask, pack_I_be32 by apply crc32_range. done.
Qed.

(** *** Lines of pixels *)

Lemma flat_map_uniform_length {A B : Type} (f : A -> list B) (k : nat) (l : list A) :
  (forall x, length (f x) = k) -> length (flat_map f l) = (length l * k)%nat.
Proof.
  intros Hf. induction l as [|x l IH]; [done|]. simpl. rewrite length_app, Hf, IH. lia.
Qed.

Lemma flat_map_pointwise {A B : Type} (f g : A -> list B) (l : list A) :
  (forall x, x ∈ l -> f x = g x) -> flat_map f l = flat_map g l.
Proof.
  intros H. induction l as [|x l IH]; [done|]. simpl.
  rewrite (H x) by left. rewrite IH; [done|]. intros y Hy. apply H. by right.
Qed.

Lemma drop_rows {A : Type} (rows : nat -> list A) (k i s n : nat) :
  (forall y, length (rows y) = k) -> (i <= n)%nat ->
  drop (i * k) (flat_map rows (seq s n)) = flat_map rows (seq (s + i) (n - i)).
Proof.
  intros Hk. revert s n. induction i as [|i IH]; intros s n Hi.
  - simpl. by rewrite Nat.add_0_r, Nat.sub_0_r.
  - destruct n as [|n]; [lia|]. simpl seq. simpl flat_map.
    replace (S i * k)%nat with (length (rows s) + i * k)%nat by (rewrite Hk; lia).
    rewrite drop_app_add. rewrite IH by lia.
    by replace (S s + i)%nat with (s + S i)%nat by lia.
Qed.

(** The slice for line [i] of a sequence of lines of equal length is
    line [i]. *)
Lemma slice_row {A : Type} (rows : nat -> list A) (k i n : nat) :
  (forall y, length (rows y) = k) -> (i < n)%nat ->
  SetupMod.slice (i * k) ((i + 1) * k) (flat_map rows (seq 0 n)) = rows i.
Proof.
  intros Hk Hi. unfold SetupMod.slice.
  rewrite (drop_rows rows k i 0 n Hk) by lia.
  replace ((i + 1) * k - i * k)%nat with k by lia.
  destruct (n - i)%nat as [|m] eqn:E; [lia|]. simpl.
  rewrite <- (Hk i) at 1. by rewrite take_app_length.
Qed.

(** The line [y] of the image: its 512 pixels. *)
Definition line (char : string) (y : nat) : list byte :=
  flat_map (fun x => SetupMod.pixel char (Z.of_nat x) (Z.of_nat y)) (seq 0 512).

(** The image as the PNG format wants it before compression: for each
    of the 512 lines, the filter byte 0 and the line. *)
Definition scanlines (char : string) : list byte :=
  flat_map (fun y => x00%byte :: line char y) (seq 0 512).

Lemma pixel_cases (char : string) (x y : Z) :
  SetupMod.pixel char x y = SetupMod.white_pixel
  \/ SetupMod.pixel char x y = SetupMod.bg_pixel.
Proof.
  unfold SetupMod.pixel.
  destruct (SetupMod.font_get (upper char) SetupMod.font); [|by right].
  destruct (_ && _); [|by right]. destruct (negb _); [by left|by right].
Qed.

Lemma pixel_length (char : string) (x y : Z) : length (SetupMod.pixel char x y) = 4%nat.
Proof. by destruct (pixel_cases char x y) as [-> | ->]. Qed.

Lemma pixel_no_glyph (char : string) (x y : Z) :
  SetupMod.font_get (upper char) SetupMod.font = None ->
  SetupMod.pixel char x y = SetupMod.bg_pixel.
Proof. intros H. unfold SetupMod.pixel. by rewrite H. Qed.

Lemma line_length (char : string) (y : nat) : length (line char y) = (SetupMod.w * 4)%nat.
Proof.
  unfold line. rewrite (flat_map_uniform_length _ 4) by (intros; apply pixel_length).
  by rewrite length_seq.
Qed.

Lemma raw_scanlines (char : string) : SetupMod.raw char = scanlines char.
Proof.
  unfold SetupMod.raw, scanlines, SetupMod.pix.
  change (flat_map (fun y => flat_map _ (seq 0 SetupMod.w)) (seq 0 SetupMod.h))
    with (flat_map (line char) (seq 0 SetupMod.h)).
  change (seq 0 512) with (seq 0 SetupMod.h).
  apply flat_map_pointwise. intros i Hi. f_equal.
  apply elem_of_seq in Hi.
  replace (i * SetupMod.w * 4)%nat with (i * (SetupMod.w * 4))%nat by lia.
  replace ((i + 1) * SetupMod.w * 4)%nat with ((i + 1) * (SetupMod.w * 4))%nat by lia.
  apply slice_row; [apply line_length|lia].
Qed.

Lemma scanlines_length (char : string) :
  Z.of_nat (length (scanlines char)) = 1049088%Z.
Proof.
  unfold scanlines.
  rewrite (flat_map_uniform_length _ (S (SetupMod.w * 4))).
  - rewrite length_seq, Nat2Z.inj_mul. vm_compute. reflexivity.
  - intros y. simpl. by rewrite line_length.
Qed.

(** *** The file *)

(** The keys of the font: the 26 capital letters. *)
Definition letters : list string :=
  ["A"; "B"; "C"; "D"; "E"; "F"; "G"; "H"; "I"; "J"; "K"; "L"; "M";
   "N"; "O"; "P"; "Q"; "R"; "S"; "T"; "U"; "V"; "W"; "X"; "Y"; "Z"].

Lemma font_get_None (key : string) (table : list (string * list Z)) :
  key ∉ map fst table -> SetupMod.font_get key table = None.
Proof.
  induction table as [|[k rows] table IH]; [done|]. simpl. intros H.
  apply not_elem_of_cons in H as [Hne H].
  destruct (String.eqb k key) eqn:E; [|by apply IH].
  apply String.eqb_eq in E. congruence.
Qed.

Lemma font_letters : map fst SetupMod.font = letters.
Proof. reflexivity. Qed.

(** The data of the header chunk: width 512, height 512, bit depth 8,
    colour type 6 (RGBA), and three zero bytes for compression, filter
    and interlace. *)
Definition ihdr : list byte :=
  be32 512 ++ be32 512 ++ [x08; x06; x00; x00; x00]%byte.

(** A PNG file with one data chunk. *)
Definition png_file (idat : list byte) : list byte :=
  [x89; x50; x4e; x47; x0d; x0a; x1a; x0a]%byte
  ++ png_chunk (bytes_of "IHDR") ihdr
  ++ png_chunk (bytes_of "IDAT") idat
  ++ png_chunk (bytes_of "IEND") [].

(** The copy in [moddy.py] builds the same bytes. *)
Lemma moddy_raw (char : string) : Moddy.raw char = SetupMod.raw char.
Proof.
  unfold Moddy.raw, SetupMod.raw.
  change Moddy.h with SetupMod.h. change Moddy.w with SetupMod.w.
  change (@Moddy.slice) with (@SetupMod.slice).
  change (Moddy.pix char) with (SetupMod.pix char).
  reflexivity.
Qed.

Lemma moddy_icon_data (zlib_compress : list byte -> list byte) (char : string) :
  Moddy.icon_data zlib_compress char = SetupMod.icon_data zlib_compress char.
Proof.
  unfold Moddy.icon_data, SetupMod.icon_data. rewrite moddy_raw.
  change Moddy.ihdr_data with SetupMod.ihdr_data.
  change Moddy.chunk with SetupMod.chunk.
  change Moddy.png_signature with SetupMod.png_signature.
  reflexivity.
Qed.

Lemma moddy_create_icon (zlib_compress : list byte -> list byte) (char : string)
    (filename : path) (fs : filesystem) :
  Moddy._create_icon zlib_compress char filename fs
  = SetupMod.create_icon zlib_compress char filename fs.
Proof.
  unfold Moddy._create_icon, SetupMod.create_icon. rewrite moddy_icon_data. reflexivity.
Qed.

Section Compression.

Variable zlib_compress : list byte -> list byte.

Lemma bind_Ok {A B : Type} (a : A) (k : A -> result B) : (Ok a ≫= k) = k a.
Proof. reflexivity. Qed.

Lemma ihdr_data_Ok : SetupMod.ihdr_data = Ok ihdr.
Proof. reflexivity. Qed.

Lemma icon_data_png (char : string) :
  (Z.of_nat (length (zlib_compress (scanlines char))) < 2 ^ 32)%Z ->
  SetupMod.icon_data zlib_compress char = Ok (png_file (zlib_compress (scanlines char))).
Proof.
  intros Hlen. unfold SetupMod.icon_data.
  rewrite ihdr_data_Ok, bind_Ok.
  rewrite (chunk_png (bytes_of "IHDR") ihdr) by reflexivity.
  rewrite bind_Ok, raw_scanlines, (chunk_png (bytes_of "IDAT") _ Hlen), bind_Ok.
  rewrite (chunk_png (bytes_of "IEND") []) by reflexivity.
  rewrite bind_Ok. reflexivity.
Qed.

(** C9: for every character, when the compressed image is shorter than
    2^32 bytes, [create_icon] (and [_create_icon]) writes a PNG file:
    the signature, the IHDR chunk for 512 by 512 pixels of 8-bit RGBA,
    one IDAT chunk that holds the compression of the 512 scan lines,
    each a zero byte and 512 pixels, and an empty IEND chunk, every
    chunk with the length of its data and the CRC32 of type and data;
    every pixel is opaque white or the opaque background colour, and
    the background colour throughout when the upper-case form of the
    character is none of the 26 letters of the font. *)
Theorem create_icon_writes_png (char : string) (filename : path) (fs : filesystem) :
  (Z.of_nat (length (zlib_compress (scanlines char))) < 2 ^ 32)%Z ->
  SetupMod.create_icon zlib_compress char filename fs
    = Ok (<[filename :=
              String.string_of_list_byte (png_file (zlib_compress (scanlines char)))]> fs)
  /\ Moddy._create_icon zlib_compress char filename fs
     = SetupMod.create_icon zlib_compress char filename fs
  /\ (forall x y : Z,
        SetupMod.pixel char x y = [xff; xff; xff; xff]%byte
        \/ SetupMod.pixel char x y = [x42; x87; xf5; xff]%byte)
  /\ (upper char ∉ letters ->
      forall x y : Z, SetupMod.pixel char x y = [x42; x87; xf5; xff]%byte).
Proof.
  intros Hlen. split; [|split; [|split]].
  - unfold SetupMod.create_icon. rewrite (icon_data_png char Hlen), bind_Ok. reflexivity.
  - apply moddy_create_icon.
  - intros x y. apply pixel_cases.
  - intros Hnot x y. apply pixel_no_glyph, font_get_None. by rewrite font_letters.
Qed.

End Compression.

(** The theorem at the letter A and a compression that stores its input
    as it is. *)
Lemma create_icon_writes_png_witness :
  SetupMod.create_icon (fun d => d) "A" (of_str "common/src/main/resources/icon.png") ∅
    = Ok (<[of_str "common/src/main/resources/icon.png" :=
              String.string_of_list_byte (png_file (scanlines "A"))]> ∅)
  /\ Moddy._create_icon (fun d => d) "A" (of_str "common/src/main/resources/icon.png") ∅
     = SetupMod.create_icon (fun d => d) "A" (of_str "common/src/main/resources/icon.png") ∅
  /\ (forall x y : Z,
        SetupMod.pixel "A" x y = [xff; xff; xff; xff]%byte
        \/ SetupMod.pixel "A" x y = [x42; x87; xf5; xff]%byte)
  /\ (upper "A" ∉ letters ->
      forall x y : Z, SetupMod.pixel "A" x y = [x42; x87; xf5; xff]%byte).
Proof.
  apply (create_icon_writes_png (fun d => d) "A").
  rewrite scanlines_length. reflexivity.
Defined.

(** A digit has no glyph: its icon is the background alone; the letter a
    is drawn as A. *)
Lemma pixel_examples :
  SetupMod.pixel "7" 200 130 = [x42; x87; xf5; xff]%byte
  /\ SetupMod.pixel "a" 200 130 = [xff; xff; xff; xff]%byte
  /\ SetupMod.pixel "a" 130 130 = [x42; x87; xf5; xff]%byte.
Proof. repeat split. Qed.

End Icon.

(** * Further properties of the code *)

(** ** What the fetchers return *)

Module FetcherResults.
Import Py Re World SetMinecraftVersion.

(** [get_artifact_latest] never raises.  It returns [None] when the
    fetch raises or no listed version has the prefix, and otherwise the
    greatest string, in the order that compares character by character,
    of the pool: the listed versions with the prefix that are final
    releases, or all listed versions with the prefix when none is. *)
Theorem get_artifact_latest_result (net : network) (url mc : string) :
  (exists r, get_artifact_latest net url mc = Ok r)
  /\ (net url = None -> get_artifact_latest net url mc = Ok None)
  /\ (forall b : body,
        net url = Some b ->
        (get_artifact_latest net url mc = Ok None
         <-> ArtifactLatest.candidates mc (text b) = [])
        /\ (forall r : string,
              get_artifact_latest net url mc = Ok (Some r) ->
              r ∈ ArtifactLatest.pool mc (text b)
              /\ (forall v, v ∈ ArtifactLatest.pool mc (text b) -> String.le v r)
              /\ r ∈ findall_version (text b)
              /\ startswith r (mc +:+ "-") = true)).
Proof.
  split; [apply ArtifactLatest.get_artifact_latest_returns|].
  split; [apply ArtifactLatest.get_artifact_latest_unreachable|].
  intros b Hb. split; [by apply ArtifactLatest.get_artifact_latest_None|].
  intros r Hr.
  destruct (ArtifactLatest.get_artifact_latest_greatest net url mc r b Hb Hr) as [Hin Hmax].
  destruct (ArtifactLatest.pool_sound mc (text b) r Hin) as (? & ? & _). done.
Qed.


End FetcherResults.

(** ** Lines and replacement templates *)

Module LineFacts.
Import Py Re StrFacts PathFacts.

Definition not_char (c : ascii) (x : ascii) : bool := negb (Ascii.eqb c x).

Lemma split_on_nonempty (p : ascii -> bool) (s : string) : split_on p s <> [].
Proof.
  destruct s as [|c s]; [done|]. simpl. destruct (p c); [done|].
  by destruct (split_on p s).
Qed.

Lemma join_cons (sep x : string) (l : list string) :
  l <> [] -> join sep (x :: l) = x +:+ sep +:+ join sep l.
Proof. by destruct l. Qed.

(** Joining what [split] cut gives the string back. *)
Lemma join_split (c : ascii) (s : string) : join (String c "") (split c s) = s.
Proof.
  unfold split. induction s as [|a s IH]; [done|]. simpl.
  destruct (Ascii.eqb c a) eqn:E.
  - apply Ascii.eqb_eq in E as <-.
    rewrite join_cons by apply split_on_nonempty. by rewrite IH.
  - pose proof (split_on_nonempty (Ascii.eqb c) s) as Hne.
    destruct (split_on (Ascii.eqb c) s) as [|piece rest]; [done|].
    destruct rest as [|r rest].
    + simpl in *. by rewrite IH.
    + rewrite join_cons by done. rewrite join_cons in IH by done.
      by rewrite app_cons, IH.
Qed.

Lemma split_app_sep (c : ascii) (x s : string) :
  all_chars (not_char c) x = true ->
  split c (x +:+ String c s) = x :: split c s.
Proof.
  unfold split. induction x as [|a x IH]; intros H.
  - rewrite app_nil_l. simpl. by rewrite Ascii.eqb_refl.
  - rewrite all_chars_cons in H. apply andb_true_iff in H as [Ha Hx].
    rewrite app_cons. simpl. unfold not_char in Ha. apply negb_true_iff in Ha.
    by rewrite Ha, (IH Hx).
Qed.

(** Splitting what [join] put together gives the pieces back, when no
    piece holds the separator. *)
Lemma split_join (c : ascii) (ls : list string) :
  ls <> [] -> Forall (fun x => all_chars (not_char c) x = true) ls ->
  split c (join (String c "") ls) = ls.
Proof.
  induction ls as [|x ls IH]; [done|]. intros _ Hall.
  apply Forall_cons in Hall as [Hx Hls].
  destruct ls as [|y ls].
  - simpl. unfold split. by apply split_on_none.
  - rewrite join_cons by done. rewrite app_cons, app_nil_l.
    rewrite (split_app_sep c x _ Hx). by rewrite IH.
Qed.

Lemma split_pieces (c : ascii) (s : string) :
  Forall (fun x => all_chars (not_char c) x = true) (split c s).
Proof.
  unfold split. induction s as [|a s IH]; [by repeat constructor|]. simpl.
  destruct (Ascii.eqb c a) eqn:E; [by constructor|].
  pose proof (split_on_nonempty (Ascii.eqb c) s) as Hne.
  destruct (split_on (Ascii.eqb c) s) as [|piece rest]; [done|].
  apply Forall_cons in IH as [Hp Hr]. constructor; [|done].
  rewrite all_chars_cons, Hp. unfold not_char. by rewrite E.
Qed.

Lemma unlines_lines (text : string) : unlines (lines text) = text.
Proof. apply join_split. Qed.

Lemma lines_unlines (ls : list string) :
  ls <> [] -> Forall (fun x => all_chars (not_char newline) x = true) ls ->
  lines (unlines ls) = ls.
Proof. apply split_join. Qed.

Lemma lines_no_newline (text : string) :
  Forall (fun x => all_chars (not_char newline) x = true) (lines text).
Proof. apply split_pieces. Qed.

(** *** Templates without a backslash *)

Fixpoint literal (s : string) : list tpart :=
  match s with
  | EmptyString => []
  | String c s' => Lit c :: literal s'
  end.

Lemma expand_literal (s whole : string) : expand (literal s) whole = s.
Proof. induction s as [|c s IH]; [done|]. simpl. by rewrite IH. Qed.

Lemma parse_template_go_literal (fuel : nat) (s : string) :
  all_chars (not_char backslash) s = true ->
  (String.length s < fuel)%nat ->
  parse_template_go fuel s = Ok (literal s).
Proof.
  revert s. induction fuel as [|fuel IH]; intros s Hs Hlen; [lia|].
  destruct s as [|c s]; [done|]. simpl.
  rewrite all_chars_cons in Hs. apply andb_true_iff in Hs as [Hc Hs].
  unfold not_char in Hc. apply negb_true_iff in Hc.
  rewrite Ascii.eqb_sym in Hc. rewrite Hc.
  rewrite (IH s Hs) by (simpl in Hlen; lia). done.
Qed.

(** A replacement without a backslash stands for itself. *)
Lemma parse_template_literal (repl : string) :
  all_chars (not_char backslash) repl = true ->
  parse_template repl = Ok (literal repl).
Proof. intros H. apply parse_template_go_literal; [done|lia]. Qed.

Lemma sub_property_literal (key repl text : string) :
  all_chars (not_char backslash) repl = true ->
  sub_property key repl text
  = Ok (unlines (map (fun line => if startswith line (key +:+ "=") then repl else line)
                     (lines text))).
Proof.
  intros H. unfold sub_property. rewrite (parse_template_literal repl H). simpl.
  f_equal. f_equal. apply map_ext. intros line. unfold sub_line.
  by rewrite expand_literal.
Qed.

End LineFacts.

(** ** [apply_versions]: what becomes of each line of the properties file *)

Module ApplyVersions.
Import Py Re World SetMinecraftVersion StrFacts PathFacts LineFacts.

(** A value that a replacement template takes as it stands and that
    stays on its line: no backslash and no newline. *)
Definition tame_char (c : ascii) : bool := not_char newline c && not_char backslash c.
Definition tame (s : string) : bool := all_chars tame_char s.

Definition tame_versions (versions : versions_dict) : Prop :=
  forall key v, versions !! key = Some (Some v) -> tame v = true.

(** What the eleven substitutions make of one line: the first key whose
    [key=] begins the line decides; a value that is [None] or empty
    leaves the line as it is. *)
Fixpoint rewrite_line (items : list (string * option string)) (line : string) : string :=
  match items with
  | [] => line
  | (key, value) :: rest =>
      if startswith line (key +:+ "=") then
        if falsy value then line else key +:+ "=" +:+ default EmptyString value
      else rewrite_line rest line
  end.

Definition key_ok (key : string) : Prop :=
  all_chars (not_char "=") key = true /\ tame key = true.

Definition value_ok (value : option string) : Prop :=
  forall v, value = Some v -> tame v = true.

Lemma tame_no_backslash (s : string) :
  tame s = true -> all_chars (not_char backslash) s = true.
Proof.
  apply all_chars_impl. intros c H. unfold tame_char in H.
  by apply andb_true_iff in H as [_ H].
Qed.

Lemma tame_no_newline (s : string) :
  tame s = true -> all_chars (not_char newline) s = true.
Proof.
  apply all_chars_impl. intros c H. unfold tame_char in H.
  by apply andb_true_iff in H as [H _].
Qed.

Lemma no_newline_tame_line (s : string) :
  all_chars (not_char newline) s = true ->
  all_chars (not_char backslash) s = true -> tame s = true.
Proof.
  unfold tame. induction s as [|c s IH]; [done|].
  rewrite !all_chars_cons, !andb_true_iff. intros [H1 H2] [H3 H4].
  split; [|by apply IH]. unfold tame_char. by rewrite H1, H3.
Qed.

Lemma tame_app (a b : string) : tame (a +:+ b) = tame a && tame b.
Proof. apply all_chars_app. Qed.

(** Two keys without [=] that both begin a line, each followed by [=],
    are one key. *)
Lemma key_prefix_unique (k k' r r' : string) :
  all_chars (not_char "=") k = true -> all_chars (not_char "=") k' = true ->
  k +:+ "=" +:+ r = k' +:+ "=" +:+ r' -> k = k'.
Proof.
  revert k'. induction k as [|c k IH]; intros [|c' k'] Hk Hk' E; [done| | |].
  - rewrite app_nil_l, !app_cons in E. injection E as <- _.
    rewrite all_chars_cons in Hk'. by apply andb_true_iff in Hk' as [Hk' _].
  - rewrite app_nil_l, !app_cons in E. injection E as -> _.
    rewrite all_chars_cons in Hk. by apply andb_true_iff in Hk as [Hk _].
  - rewrite !app_cons in E. injection E as -> E.
    rewrite all_chars_cons in Hk, Hk'.
    apply andb_true_iff in Hk as [_ Hk]. apply andb_true_iff in Hk' as [_ Hk'].
    by rewrite (IH k' Hk Hk' E).
Qed.

Lemma startswith_key_unique (line k k' : string) :
  all_chars (not_char "=") k = true -> all_chars (not_char "=") k' = true ->
  startswith line (k +:+ "=") = true -> startswith line (k' +:+ "=") = true -> k = k'.
Proof.
  intros Hk Hk' [r E]%startswith_iff [r' E']%startswith_iff.
  rewrite app_assoc in E, E'. apply (key_prefix_unique k k' r r' Hk Hk'). congruence.
Qed.

(** A line that begins with [key=] is left alone by items of other keys. *)
Lemma rewrite_line_other_keys (items : list (string * option string)) (key line : string) :
  all_chars (not_char "=") key = true ->
  Forall key_ok (map fst items) -> key ∉ map fst items ->
  startswith line (key +:+ "=") = true -> rewrite_line items line = line.
Proof.
  intros Hkey. induction items as [|[k v] items IH]; intros Hok Hnotin Hstart; [done|].
  simpl in *. apply Forall_cons in Hok as [[Hk _] Hok].
  apply not_elem_of_cons in Hnotin as [Hne Hnotin].
  destruct (startswith line (k +:+ "=")) eqn:E; [|by apply IH].
  destruct Hne. by apply (startswith_key_unique line key k).
Qed.

Lemma replace_properties_lines (items : list (string * option string)) :
  NoDup (map fst items) -> Forall key_ok (map fst items) ->
  Forall value_ok (map snd items) ->
  forall text,
    replace_properties text items
    = Ok (unlines (map (rewrite_line items) (lines text))).
Proof.
  induction items as [|[key value] items IH]; intros Hnd Hkeys Hvals text.
  - simpl. by rewrite map_id, unlines_lines.
  - simpl in Hnd, Hkeys, Hvals.
    apply NoDup_cons in Hnd as [Hnotin Hnd].
    apply Forall_cons in Hkeys as [[Hkey Htame] Hkeys].
    apply Forall_cons in Hvals as [Hval Hvals].
    specialize (IH Hnd Hkeys Hvals).
    cbn [replace_properties replace_property].
    destruct (falsy value) eqn:Hfalsy.
    + change (replace_properties text items
              = Ok (unlines (map (rewrite_line ((key, value) :: items)) (lines text)))).
      rewrite IH. f_equal. f_equal. apply map_ext. intros line. simpl.
      destruct (startswith line (key +:+ "=")) eqn:E; [|done]. rewrite Hfalsy.
      by apply (rewrite_line_other_keys items key).
    + destruct value as [v|]; [|done]. simpl default.
      assert (tame (key +:+ "=" +:+ v) = true) as Hrepl.
      { rewrite !tame_app, Htame, (Hval v eq_refl). done. }
      rewrite sub_property_literal by by apply tame_no_backslash.
      change (replace_properties
                (unlines (map (fun line => if startswith line (key +:+ "=")
                                           then key +:+ "=" +:+ v else line) (lines text))) items
              = Ok (unlines (map (rewrite_line ((key, Some v) :: items)) (lines text)))).
      rewrite IH. rewrite lines_unlines.
      * f_equal. f_equal. rewrite map_map. apply map_ext. intros line. simpl.
        destruct (startswith line (key +:+ "=")) eqn:E; [|done].
        simpl in Hfalsy. rewrite Hfalsy.
        apply (rewrite_line_other_keys items key); [done..|].
        rewrite <- app_assoc. apply startswith_app.
      * pose proof (split_on_nonempty (Ascii.eqb newline) text) as Hne.
        unfold lines, split. by destruct (split_on (Ascii.eqb newline) text).
      * apply Forall_map. eapply Forall_impl; [apply lines_no_newline|].
        intros line Hline. simpl.
        destruct (startswith line (key +:+ "=")); [by apply tame_no_newline|done].
Qed.

(** *** The replacement values are tame when the inputs are *)

Lemma tame_digit (d : Z) : (0 <= d < 10)%Z -> tame_char (digit_char d) = true.
Proof.
  intros H.
  assert (d = 0 \/ d = 1 \/ d = 2 \/ d = 3 \/ d = 4 \/ d = 5 \/ d = 6 \/ d = 7
          \/ d = 8 \/ d = 9)%Z as Hd by lia.
  repeat (destruct Hd as [->|Hd]; [reflexivity|]). by subst.
Qed.

Lemma tame_nat_digits (fuel : nat) (n : Z) (acc : string) :
  tame acc = true -> tame (nat_digits fuel n acc) = true.
Proof.
  revert n acc. induction fuel as [|fuel IH]; intros n acc Hacc; [done|].
  simpl. assert (tame (String (digit_char (n mod 10)) acc) = true) as H.
  { unfold tame. rewrite all_chars_cons. rewrite tame_digit by (apply Z.mod_pos_bound; lia).
    done. }
  destruct (n <? 10)%Z; [done|]. by apply IH.
Qed.

Lemma tame_str_of_int (n : Z) : tame (str_of_int n) = true.
Proof.
  unfold str_of_int. destruct (n <? 0)%Z.
  - unfold tame. rewrite all_chars_cons. cbn [tame_char not_char andb negb].
    change (tame (nat_digits (S (Z.to_nat (Z.log2 (- n)))) (- n) "") = true).
    by apply tame_nat_digits.
  - by apply tame_nat_digits.
Qed.

Lemma tame_split_on (p : ascii -> bool) (s : string) :
  tame s = true -> Forall (fun x => tame x = true) (split_on p s).
Proof.
  unfold tame. induction s as [|c s IH]; [by repeat constructor|].
  rewrite all_chars_cons, andb_true_iff. intros [Hc Hs]. specialize (IH Hs). simpl.
  destruct (p c); [by constructor|].
  destruct (split_on p s) as [|piece rest]; [repeat constructor; by rewrite all_chars_cons, Hc|].
  apply Forall_cons in IH as [Hp Hr]. constructor; [|done].
  by rewrite all_chars_cons, Hc, Hp.
Qed.

Lemma tame_join (sep : string) (l : list string) :
  tame sep = true -> Forall (fun x => tame x = true) l -> tame (join sep l) = true.
Proof.
  intros Hsep. induction l as [|x l IH]; [done|]. intros [Hx Hl]%Forall_cons.
  destruct l as [|y l]; [done|]. rewrite join_cons by done.
  by rewrite !tame_app, Hx, Hsep, IH.
Qed.

Lemma tame_next_minor_of (mc : string) : tame mc = true -> tame (next_minor_of mc) = true.
Proof.
  intros Hmc. unfold next_minor_of.
  destruct (2 <=? length (split "." mc))%nat; [|done].
  destruct (int _) as [minor|e]; [|done].
  apply tame_join; [done|]. apply Forall_take. apply Forall_insert.
  - by apply tame_split_on.
  - apply tame_str_of_int.
Qed.

Lemma tame_versions_get (versions : versions_dict) (key : string) :
  tame_versions versions -> value_ok (versions_get versions key).
Proof.
  intros H v Hv. unfold versions_get in Hv.
  destruct (versions !! key) as [o|] eqn:E; [|done]. simpl in Hv. subst o.
  by apply (H key).
Qed.

Lemma replacements_keys (mc : string) (versions : versions_dict) :
  map fst (replacements mc versions)
  = ["minecraft_version"; "minecraft_version_range"; "neo_form_version";
     "parchment_minecraft"; "parchment_version"; "fabric_loader_version";
     "fabric_version"; "mod_menu_version"; "forge_version"; "neoforge_version";
     "game_versions"].
Proof. reflexivity. Qed.

Lemma replacements_keys_ok (mc : string) (versions : versions_dict) :
  Forall key_ok (map fst (replacements mc versions)).
Proof. rewrite replacements_keys. repeat constructor. Qed.

Lemma replacements_values_ok (mc : string) (versions : versions_dict) :
  tame mc = true -> tame_versions versions ->
  Forall value_ok (map snd (replacements mc versions)).
Proof.
  intros Hmc Hversions.
  assert (value_ok (Some mc)) as Hsome by (by intros v [= <-]).
  simpl. repeat constructor; try done; try by apply tame_versions_get.
  intros v [= <-]. by rewrite !tame_app, Hmc, tame_next_minor_of.
Qed.

(** With tame inputs the text written back is the text read, each line
    rewritten on its own. *)
Lemma updated_text_lines (mc : string) (versions : versions_dict) (text : string) :
  tame mc = true -> tame_versions versions ->
  updated_text mc versions text
  = Ok (unlines (map (rewrite_line (replacements mc versions)) (lines text))).
Proof.
  intros Hmc Hversions. unfold updated_text. apply replace_properties_lines.
  - rewrite replacements_keys. apply (bool_decide_unpack _). by vm_compute.
  - apply replacements_keys_ok.
  - by apply replacements_values_ok.
Qed.

Lemma rewrite_line_no_newline (items : list (string * option string)) (line : string) :
  Forall key_ok (map fst items) -> Forall value_ok (map snd items) ->
  all_chars (not_char newline) line = true ->
  all_chars (not_char newline) (rewrite_line items line) = true.
Proof.
  intros Hks Hvs Hline. induction items as [|[k v] items IH]; [done|]. simpl in *.
  apply Forall_cons in Hks as [[_ Hk] Hks]. apply Forall_cons in Hvs as [Hv Hvs].
  destruct (startswith line (k +:+ "=")); [|by apply IH].
  destruct v as [v|]; [|done]. simpl. destruct (truthy v); simpl; [|done].
  apply tame_no_newline. by rewrite !tame_app, Hk, (Hv v eq_refl).
Qed.

Lemma lines_updated_text (mc : string) (versions : versions_dict) (text : string) :
  tame mc = true -> tame_versions versions ->
  lines (unlines (map (rewrite_line (replacements mc versions)) (lines text)))
  = map (rewrite_line (replacements mc versions)) (lines text).
Proof.
  intros Hmc Hversions. apply lines_unlines.
  - pose proof (split_on_nonempty (Ascii.eqb newline) text) as Hne.
    unfold lines, split. by destruct (split_on (Ascii.eqb newline) text).
  - apply Forall_map. eapply Forall_impl; [apply lines_no_newline|].
    intros line Hline. cbv beta. apply rewrite_line_no_newline; [| |done].
    + apply replacements_keys_ok.
    + by apply replacements_values_ok.
Qed.

Lemma rewrite_line_hit (items : list (string * option string)) (key v line : string) :
  NoDup (map fst items) -> Forall key_ok (map fst items) ->
  (key, Some v) ∈ items -> truthy v = true ->
  startswith line (key +:+ "=") = true ->
  rewrite_line items line = key +:+ "=" +:+ v.
Proof.
  intros Hnd Hks Hin Hv Hstart.
  induction items as [|[k0 v0] items IH]; [by apply elem_of_nil in Hin|].
  simpl in *. apply NoDup_cons in Hnd as [Hnotin Hnd].
  pose proof Hks as Hall. apply Forall_cons in Hks as [[Hk0 _] Hks].
  assert (all_chars (not_char "=") key = true) as Hkey.
  { apply elem_of_cons in Hin as [[= -> <-]|Hin]; [done|].
    rewrite Forall_forall in Hks. apply (Hks key).
    by apply (list_elem_of_fmap_2 fst items (key, Some v)). }
  apply elem_of_cons in Hin as [[= <- <-]|Hin].
  - rewrite Hstart. simpl. by rewrite Hv.
  - destruct (startswith line (k0 +:+ "=")) eqn:E; [|by apply IH].
    destruct Hnotin. rewrite <- (startswith_key_unique line key k0 Hkey Hk0 Hstart E).
    by apply (list_elem_of_fmap_2 fst items (key, Some v)).
Qed.

Lemma rewrite_line_miss (items : list (string * option string)) (line : string) :
  (forall key v, (key, Some v) ∈ items -> truthy v = true ->
                 startswith line (key +:+ "=") = false) ->
  rewrite_line items line = line.
Proof.
  induction items as [|[k0 v0] items IH]; [done|]. intros H. simpl.
  destruct (startswith line (k0 +:+ "=")) eqn:E.
  - destruct v0 as [v0|]; [|done]. simpl. destruct (truthy v0) eqn:Hv; [|done].
    rewrite (H k0 v0) in E; [done| |done]. apply elem_of_cons. by left.
  - apply IH. intros key v Hin. apply H. apply elem_of_cons. by right.
Qed.

(** A rewritten line is the line itself or [key=value] for an item. *)
Lemma rewrite_line_cases (items : list (string * option string)) (line : string) :
  rewrite_line items line = line
  \/ exists key v, (key, Some v) ∈ items /\ truthy v = true
                   /\ rewrite_line items line = key +:+ "=" +:+ v.
Proof.
  induction items as [|[k0 v0] items IH]; [by left|]. simpl.
  destruct (startswith line (k0 +:+ "=")) eqn:E.
  - destruct v0 as [v0|]; [|by left]. simpl. destruct (truthy v0) eqn:Hv; [|by left].
    right. exists k0, v0. split; [apply elem_of_cons; by left|done].
  - destruct IH as [IH|(key & v & Hin & Hv & IH)]; [by left|].
    right. exists key, v. split; [apply elem_of_cons; by right|done].
Qed.

Lemma rewrite_line_idempotent (items : list (string * option string)) (line : string) :
  NoDup (map fst items) -> Forall key_ok (map fst items) ->
  rewrite_line items (rewrite_line items line) = rewrite_line items line.
Proof.
  intros Hnd Hks.
  destruct (rewrite_line_cases items line) as [E|(key & v & Hin & Hv & ->)];
    [by rewrite !E|].
  apply rewrite_line_hit; [done..|]. rewrite <- app_assoc. apply startswith_app.
Qed.

Lemma replacements_NoDup (mc : string) (versions : versions_dict) :
  NoDup (map fst (replacements mc versions)).
Proof. rewrite replacements_keys. apply (bool_decide_unpack _). by vm_compute. Qed.

Lemma tame_versions_empty : tame_versions ∅.
Proof. intros key v H. by rewrite lookup_empty in H. Qed.

(** *** [int] on a run of digits, and the upper end of the range *)

Lemma digit_not_space (c : ascii) : is_digit c = true -> negb (is_space c) = true.
Proof. destruct c as [[] [] [] [] [] [] [] []]; by vm_compute. Qed.

Lemma digit_not_underscore (c : ascii) : is_digit c = true -> Ascii.eqb c "_" = false.
Proof. destruct c as [[] [] [] [] [] [] [] []]; by vm_compute. Qed.

Lemma digit_not_dot (c : ascii) : is_digit c = true -> not_char "." c = true.
Proof. destruct c as [[] [] [] [] [] [] [] []]; by vm_compute. Qed.

Lemma int_body_digits (s : string) (prev : bool) :
  all_chars is_digit s = true -> int_body true s = true.
Proof.
  induction s as [|c s IH]; [done|]. rewrite all_chars_cons, andb_true_iff.
  intros [Hc Hs]. simpl. rewrite Hc. by apply IH.
Qed.

Lemma remove_underscore_digits (s : string) :
  all_chars is_digit s = true -> remove_char "_" s = s.
Proof.
  induction s as [|c s IH]; [done|]. rewrite all_chars_cons, andb_true_iff.
  intros [Hc Hs]. simpl. by rewrite (digit_not_underscore c Hc), (IH Hs).
Qed.

(** [int] of a non-empty run of decimal digits is its decimal value. *)
Lemma int_digits (s : string) : isdigit s = true -> int s = Ok (digits_val 0 s).
Proof.
  unfold isdigit. rewrite andb_true_iff. intros [Hne Hs].
  destruct s as [|c s]; [done|]. unfold int.
  rewrite strip_no_space
    by (eapply all_chars_impl; [apply digit_not_space|done]).
  pose proof Hs as Hall. rewrite all_chars_cons, andb_true_iff in Hs. destruct Hs as [Hc Hs].
  assert (int_unsigned (String c s) = Ok (digits_val 0 (String c s))) as Hint.
  { unfold int_unsigned. cbn [int_body]. rewrite Hc, (int_body_digits s true Hs).
    by rewrite (remove_underscore_digits _ Hall). }
  rewrite <- Hint.
  destruct c as [[] [] [] [] [] [] [] []]; try done; by vm_compute in Hc.
Qed.

Lemma next_minor_of_split (mc a b : string) (tl : list string) (n : Z) :
  split "." mc = a :: b :: tl -> int b = Ok n ->
  next_minor_of mc = a +:+ "." +:+ str_of_int (n + 1).
Proof.
  intros Hsplit Hint. unfold next_minor_of. rewrite Hsplit. simpl. by rewrite Hint.
Qed.

(** *** The properties file after [apply_versions] *)

(** X4.  When the Minecraft version and the fetched versions hold no
    newline and no backslash, [apply_versions] writes the file it read
    back with each line rewritten on its own: a line that begins with
    [key=] for one of the eleven keys becomes [key=value] when the value
    is a non-empty string, and every other line is written back as it
    was; no other file changes. *)
Theorem apply_versions_rewrites_each_line (fs : filesystem) (props_path : Pathlib.path)
    (mc : string) (versions : versions_dict) (text : string) :
  fs !! props_path = Some text -> tame mc = true -> tame_versions versions ->
  exists text',
    apply_versions fs props_path mc versions = Ok (<[props_path := text']> fs)
    /\ lines text' = map (rewrite_line (replacements mc versions)) (lines text).
Proof.
  intros Hfs Hmc Hversions.
  exists (unlines (map (rewrite_line (replacements mc versions)) (lines text))).
  split; [|by apply lines_updated_text].
  unfold apply_versions, read_text. rewrite Hfs. cbn [mbind result_bind bind].
  by rewrite updated_text_lines.
Qed.

Lemma apply_versions_rewrites_each_line_witness :
  exists text',
    apply_versions {[ Inputs3.gradle_properties := Inputs5.properties_text ]}
      Inputs3.gradle_properties "1.21.5" ∅
    = Ok (<[Inputs3.gradle_properties := text']>
            {[ Inputs3.gradle_properties := Inputs5.properties_text ]})
    /\ lines text' = map (rewrite_line (replacements "1.21.5" ∅)) (lines Inputs5.properties_text).
Proof.
  apply (apply_versions_rewrites_each_line _ _ "1.21.5" ∅ Inputs5.properties_text).
  - apply lookup_singleton_eq.
  - reflexivity.
  - apply tame_versions_empty.
Defined.

(** X5.  Under the same condition, after [updated_text] the file has as
    many lines as before; a line that began with [key=] for an item
    [key: value] of the replacements with a non-empty value reads
    [key=value]; a line that begins with no such [key=] is unchanged. *)
Theorem updated_text_sets_properties (mc : string) (versions : versions_dict)
    (text text' : string) :
  tame mc = true -> tame_versions versions ->
  updated_text mc versions text = Ok text' ->
  length (lines text') = length (lines text)
  /\ forall (i : nat) (line : string), lines text !! i = Some line ->
       (forall key v, (key, Some v) ∈ replacements mc versions -> truthy v = true ->
                      startswith line (key +:+ "=") = true ->
                      lines text' !! i = Some (key +:+ "=" +:+ v))
       /\ ((forall key v, (key, Some v) ∈ replacements mc versions -> truthy v = true ->
                          startswith line (key +:+ "=") = false) ->
           lines text' !! i = Some line).
Proof.
  intros Hmc Hversions Hupd. rewrite updated_text_lines in Hupd by done.
  assert (text' = unlines (map (rewrite_line (replacements mc versions)) (lines text)))
    as -> by congruence. clear Hupd. rewrite lines_updated_text by done.
  split; [by rewrite length_map|]. intros i line Hline. split.
  - intros key v Hin Hv Hstart. rewrite list_lookup_fmap, Hline.
    cbn [fmap option_fmap option_map]. f_equal.
    apply rewrite_line_hit; try done.
    + apply replacements_NoDup.
    + apply replacements_keys_ok.
  - intros Hmiss. rewrite list_lookup_fmap, Hline.
    cbn [fmap option_fmap option_map]. f_equal.
    by apply rewrite_line_miss.
Qed.

Lemma updated_text_sets_properties_witness :
  exists text',
    updated_text "1.21.5" ∅ Inputs5.properties_text = Ok text'
    /\ length (lines text') = length (lines Inputs5.properties_text).
Proof.
  destruct (updated_text "1.21.5" ∅ Inputs5.properties_text) as [text'|e] eqn:E;
    [|by vm_compute in E].
  exists text'. split; [done|].
  apply (updated_text_sets_properties "1.21.5" ∅ Inputs5.properties_text text').
  - reflexivity.
  - apply tame_versions_empty.
  - exact E.
Defined.

(** X6.  Under the same condition [updated_text] is idempotent: applied
    to its own result, with the same versions, it returns that result. *)
Theorem updated_text_idempotent (mc : string) (versions : versions_dict)
    (text text' : string) :
  tame mc = true -> tame_versions versions ->
  updated_text mc versions text = Ok text' ->
  updated_text mc versions text' = Ok text'.
Proof.
  intros Hmc Hversions Hupd. rewrite updated_text_lines in Hupd by done.
  assert (text' = unlines (map (rewrite_line (replacements mc versions)) (lines text)))
    as -> by congruence. clear Hupd. rewrite updated_text_lines by done.
  rewrite lines_updated_text by done. f_equal. f_equal.
  rewrite map_map. apply map_ext. intros line. apply rewrite_line_idempotent.
  - apply replacements_NoDup.
  - apply replacements_keys_ok.
Qed.

Lemma updated_text_idempotent_witness :
  exists text',
    updated_text "1.21.5" ∅ Inputs5.properties_text = Ok text'
    /\ updated_text "1.21.5" ∅ text' = Ok text'.
Proof.
  destruct (updated_text "1.21.5" ∅ Inputs5.properties_text) as [text'|e] eqn:E;
    [|by vm_compute in E].
  exists text'. split; [done|].
  apply (updated_text_idempotent "1.21.5" ∅ Inputs5.properties_text text').
  - reflexivity.
  - apply tame_versions_empty.
  - exact E.
Defined.

(** X7.  The upper end of the version range.  For a Minecraft version
    [a.b] or [a.b.rest], where [a] holds no dot and [b] is a non-empty
    run of decimal digits, [next_minor_of] is [a], a dot, and the
    decimal value of [b] plus one. *)
Theorem next_minor_of_increments_second_component (a b rest : string) :
  all_chars (not_char ".") a = true -> isdigit b = true ->
  rest = "" \/ startswith rest "." = true ->
  next_minor_of (a +:+ "." +:+ b +:+ rest)
  = a +:+ "." +:+ str_of_int (digits_val 0 b + 1).
Proof.
  intros Ha Hb Hrest.
  assert (all_chars (not_char ".") b = true) as Hdots.
  { unfold isdigit in Hb. apply andb_true_iff in Hb as [_ Hb].
    eapply all_chars_impl; [apply digit_not_dot|done]. }
  assert (exists tl, split "." (a +:+ "." +:+ b +:+ rest) = a :: b :: tl) as [tl Hsplit].
  { change (a +:+ "." +:+ b +:+ rest) with (a +:+ String "." (b +:+ rest)).
    rewrite (split_app_sep "." a _ Ha).
    destruct Hrest as [->|[r ->]%startswith_iff].
    - exists []. rewrite app_nil_r. f_equal. by apply split_on_none.
    - exists (split "." r). f_equal.
      change ("." +:+ r) with (String "." r). by rewrite (split_app_sep "." b _ Hdots). }
  apply (next_minor_of_split _ a b tl); [done|]. by apply int_digits.
Qed.

Lemma next_minor_of_increments_second_component_witness :
  next_minor_of "1.21.5" = "1.22".
Proof.
  apply (next_minor_of_increments_second_component "1" "21" ".5").
  - reflexivity.
  - reflexivity.
  - right. reflexivity.
Defined.

(** X8.  A Minecraft version without a dot, or whose second component
    [int] does not accept, is its own upper end. *)
Theorem next_minor_of_fallback (mc : string) :
  (all_chars (not_char ".") mc = true
   \/ exists a b tl, split "." mc = a :: b :: tl /\ Py.raises (int b)) ->
  next_minor_of mc = mc.
Proof.
  intros [Hmc|(a & b & tl & Hsplit & Hraise)]; unfold next_minor_of.
  - unfold split. by rewrite (split_on_none _ mc Hmc).
  - rewrite Hsplit. simpl. by destruct (int b).
Qed.

Lemma next_minor_of_fallback_witness :
  next_minor_of "25w14a" = "25w14a" /\ next_minor_of "1.x" = "1.x".
Proof.
  split.
  - apply next_minor_of_fallback. left. reflexivity.
  - apply next_minor_of_fallback. right. exists "1", "x", []. by vm_compute.
Defined.

End ApplyVersions.

(** ** [str.replace] and the placeholders of the setup *)

Module ReplaceFacts.
Import Py StrFacts PathFacts LineFacts.

(** Some non-empty end of [a] is a beginning of [b]. *)
Fixpoint overlaps (a b : string) : bool :=
  match a with
  | EmptyString => false
  | String _ a' => startswith b a || overlaps a' b
  end.

(** A new value can bring the text [x] back, or let it appear, when one
    lies in the other or one ends as the other begins. *)
Definition clash (new x : string) : bool :=
  contains new x || contains x new || overlaps new x || overlaps x new.

(** [s] ends with [w]. *)
Fixpoint endswith (s w : string) : bool :=
  String.eqb s w
  || match s with
     | EmptyString => false
     | String _ s' => endswith s' w
     end.

(** Some non-empty end of [new], which is no end of [old], is a
    beginning of [x]. *)
Fixpoint bad_tail (old new x : string) : bool :=
  match new with
  | EmptyString => false
  | String _ new' => (startswith x new && negb (endswith old new)) || bad_tail old new' x
  end.

(** Some non-empty end of [x] is a beginning of [new] and no beginning
    of [old]. *)
Fixpoint bad_head (old new x : string) : bool :=
  match x with
  | EmptyString => false
  | String _ x' => (startswith new x && negb (startswith old x)) || bad_head old new x'
  end.

(** Putting [new] where [old] stood can let the text [x] appear, in a
    text that did not hold it: [x] lies in [new], or [new] lies in [x],
    or [x] runs across an end of [new] in a way it could not run across
    that end of [old]. *)
Definition harmful (old new x : string) : bool :=
  contains new x || contains x new || bad_tail old new x || bad_head old new x.

(** The parts of [s] between the occurrences of [old] that [replace]
    finds. *)
Fixpoint pieces_go (fuel : nat) (old s : string) : list string :=
  match fuel with
  | O => [s]
  | S fuel' =>
      match strip_prefix old s with
      | Some rest => EmptyString :: pieces_go fuel' old rest
      | None =>
          match s with
          | EmptyString => [EmptyString]
          | String c s' =>
              match pieces_go fuel' old s' with
              | piece :: rest => String c piece :: rest
              | [] => [String c EmptyString]
              end
          end
      end
  end.

Lemma overlaps_intro (u w v : string) : w <> "" -> overlaps (u +:+ w) (w +:+ v) = true.
Proof.
  intros Hw. induction u as [|c u IH].
  - rewrite app_nil_l. destruct w as [|c w]; [done|]. cbn [overlaps].
    by rewrite startswith_app.
  - rewrite app_cons. cbn [overlaps]. by rewrite IH, orb_true_r.
Qed.

(** Where a prefix of [a +:+ b] ends: within [a], or beyond it. *)
Lemma prefix_app_cases (a b x r : string) :
  a +:+ b = x +:+ r ->
  (exists t, a = x +:+ t) \/ (exists x2, x2 <> "" /\ x = a +:+ x2 /\ b = x2 +:+ r).
Proof.
  revert x. induction a as [|c a IH]; intros x E.
  - rewrite app_nil_l in E. destruct x as [|d x].
    + left. by exists "".
    + right. exists (String d x). by rewrite app_nil_l.
  - destruct x as [|d x].
    + left. by exists (String c a).
    + rewrite !app_cons in E. injection E as <- E.
      destruct (IH x E) as [[t ->]|(x2 & Hx2 & -> & ->)].
      * left. by exists t.
      * right. by exists x2.
Qed.

(** An occurrence in [a +:+ b] lies in [a], or in [b], or across the
    seam. *)
Lemma contains_app_cases (a b x : string) :
  contains (a +:+ b) x = true ->
  contains a x = true \/ contains b x = true
  \/ exists x1 x2 u v, x = x1 +:+ x2 /\ x1 <> "" /\ x2 <> "" /\ a = u +:+ x1 /\ b = x2 +:+ v.
Proof.
  induction a as [|c a IH].
  - rewrite app_nil_l. by right; left.
  - rewrite app_cons, contains_cons, orb_true_iff. intros [H|H].
    + apply startswith_iff in H as [r H]. rewrite <- app_cons in H.
      destruct (prefix_app_cases _ _ _ _ H) as [[t Ht]|(x2 & Hx2 & -> & ->)].
      * left. apply contains_iff. exists "", t. by rewrite app_nil_l.
      * right; right. exists (String c a), x2, "", r. by rewrite app_nil_l.
    + destruct (IH H) as [Ha|[Hb|(x1 & x2 & u & v & -> & H1 & H2 & -> & ->)]].
      * left. rewrite contains_cons, Ha. apply orb_true_r.
      * by right; left.
      * right; right. exists x1, x2, (String c u), v. by rewrite app_cons.
Qed.

(** An occurrence of [x] in pieces joined by [new] lies in one piece,
    when [new] and [x] do not clash. *)
Lemma contains_join (new x : string) (ps : list string) :
  clash new x = false -> contains (join new ps) x = true ->
  exists p, p ∈ ps /\ contains p x = true.
Proof.
  unfold clash. rewrite !orb_false_iff. intros [[[Hin Hout] Hnx] Hxn].
  induction ps as [|p ps IH]; intros H.
  - change (join new []) with "" in H. rewrite contains_empty in H.
    assert (contains new x = true); [|congruence].
    apply startswith_iff in H as [r H]. symmetry in H. apply app_eq_nil in H as [-> _].
    apply contains_nil.
  - destruct ps as [|q ps].
    + exists p. split; [apply list_elem_of_here|done].
    + rewrite join_cons in H by done.
      destruct (contains_app_cases _ _ _ H)
        as [Hp|[Hrest|(x1 & x2 & u & v & -> & H1 & H2 & -> & Hv)]].
      * exists p. split; [apply list_elem_of_here|done].
      * destruct (contains_app_cases _ _ _ Hrest)
          as [Hnew|[Hj|(x1 & x2 & u & v & -> & H1 & H2 & -> & Hv)]].
        -- congruence.
        -- destruct (IH Hj) as (p' & Hp' & Hc). exists p'.
           split; [by apply list_elem_of_further|done].
        -- by rewrite overlaps_intro in Hnx.
      * destruct (prefix_app_cases _ _ _ _ Hv) as [[t ->]|(x3 & Hx3 & -> & _)].
        -- by rewrite overlaps_intro in Hxn.
        -- assert (contains (x1 +:+ new +:+ x3) new = true); [|congruence].
           apply contains_iff. by exists x1, x3.
Qed.

Lemma pieces_go_nonempty (fuel : nat) (old s : string) : pieces_go fuel old s <> [].
Proof.
  destruct fuel as [|fuel]; [done|]. simpl.
  destruct (strip_prefix old s); [done|]. destruct s as [|c s]; [done|].
  by destruct (pieces_go fuel old s).
Qed.

(** [replace] joins the pieces with the new value; the text is the
    pieces joined with the old one. *)
Lemma replace_go_join (fuel : nat) (old new s : string) :
  replace_go fuel old new s = join new (pieces_go fuel old s).
Proof.
  revert s. induction fuel as [|fuel IH]; intros s; [done|]. simpl.
  destruct (strip_prefix old s) as [rest|].
  - rewrite join_cons by apply pieces_go_nonempty. by rewrite app_nil_l, IH.
  - destruct s as [|c s]; [done|]. rewrite IH.
    pose proof (pieces_go_nonempty fuel old s) as Hne.
    destruct (pieces_go fuel old s) as [|p [|q ps]]; [done|done|].
    cbv iota beta. rewrite (join_cons new p), (join_cons new (String c p)) by done.
    by rewrite app_cons.
Qed.

Lemma pieces_go_join (fuel : nat) (old s : string) :
  join old (pieces_go fuel old s) = s.
Proof.
  revert s. induction fuel as [|fuel IH]; intros s; [done|]. simpl.
  destruct (strip_prefix old s) as [rest|] eqn:E.
  - rewrite join_cons by apply pieces_go_nonempty. rewrite app_nil_l, IH.
    symmetry. by apply strip_prefix_Some.
  - destruct s as [|c s]; [done|]. specialize (IH s).
    pose proof (pieces_go_nonempty fuel old s) as Hne.
    destruct (pieces_go fuel old s) as [|p [|q ps]]; [done|by simpl in *; subst|].
    cbv iota beta. rewrite (join_cons old p) in IH by done.
    rewrite (join_cons old (String c p)) by done. by rewrite app_cons, IH.
Qed.

(** Each piece is a part of the text. *)
Lemma join_contains_piece (sep p : string) (ps : list string) :
  p ∈ ps -> contains (join sep ps) p = true.
Proof.
  induction ps as [|q ps IH]; intros Hin; [by apply elem_of_nil in Hin|].
  destruct ps as [|r ps].
  - apply list_elem_of_singleton in Hin as ->. simpl.
    apply contains_iff. exists "", "". by rewrite app_nil_l, app_nil_r.
  - rewrite join_cons by done. apply elem_of_cons in Hin as [->|Hin].
    + apply contains_iff. exists "", (sep +:+ join sep (r :: ps)). by rewrite app_nil_l.
    + apply contains_app_r, contains_app_r. by apply IH.
Qed.

Lemma head_piece_prefix (sep p : string) (ps : list string) :
  exists t, join sep (p :: ps) = p +:+ t.
Proof.
  destruct ps as [|q ps].
  - exists "". by rewrite app_nil_r.
  - rewrite join_cons by done. eauto.
Qed.

(** No piece holds the old value, when the fuel is enough. *)
Lemma pieces_go_free (fuel : nat) (old s : string) :
  old <> "" -> (String.length s < fuel)%nat ->
  Forall (fun p => contains p old = false) (pieces_go fuel old s).
Proof.
  intros Hold. revert s. induction fuel as [|fuel IH]; intros s Hlen; [lia|]. simpl.
  destruct (strip_prefix old s) as [rest|] eqn:E.
  - constructor.
    + rewrite contains_empty. destruct old; [done|reflexivity].
    + apply IH. apply strip_prefix_Some in E as ->. rewrite length_app in Hlen.
      destruct old; [done|]. simpl in Hlen. lia.
  - destruct s as [|c s].
    + repeat constructor. rewrite contains_empty. destruct old; [done|reflexivity].
    + assert (String.length s < fuel)%nat as Hlen' by (simpl in Hlen; lia).
      specialize (IH s Hlen'). pose proof (pieces_go_join fuel old s) as Hjoin.
      destruct (pieces_go fuel old s) as [|p ps] eqn:Hp; [by apply pieces_go_nonempty in Hp|].
      apply Forall_cons in IH as [Hfree Hrest]. constructor; [|done].
      rewrite contains_cons, Hfree, orb_false_r.
      destruct (startswith (String c p) old) eqn:Hstart; [|done].
      apply startswith_iff in Hstart as [r Hr].
      destruct (head_piece_prefix old p ps) as [t Ht]. rewrite Hjoin in Ht.
      assert (strip_prefix old (String c s) = Some (r +:+ t)); [|congruence].
      apply strip_prefix_Some. by rewrite Ht, <- app_cons, Hr, app_assoc.
Qed.

Lemma replace_join (s old new : string) :
  old <> "" -> replace s old new = join new (pieces_go (S (String.length s)) old s).
Proof.
  intros Hold. unfold replace. apply is_empty_false in Hold. rewrite Hold.
  apply replace_go_join.
Qed.

(** An occurrence of [x] after [replace] lies in one of the pieces. *)
Lemma contains_replace (s old new x : string) :
  old <> "" -> clash new x = false -> contains (replace s old new) x = true ->
  exists p, p ∈ pieces_go (S (String.length s)) old s /\ contains p x = true.
Proof. intros Hold Hclash. rewrite replace_join by done. by apply contains_join. Qed.

(** [replace] removes the old value, when the new value does not clash
    with it. *)
Lemma replace_removes (s old new : string) :
  old <> "" -> clash new old = false -> contains (replace s old new) old = false.
Proof.
  intros Hold Hclash. destruct (contains (replace s old new) old) eqn:E; [|done].
  destruct (contains_replace _ _ _ _ Hold Hclash E) as (p & Hin & Hp).
  pose proof (pieces_go_free (S (String.length s)) old s Hold (Nat.lt_succ_diag_r _)) as Hfree.
  rewrite Forall_forall in Hfree. by rewrite (Hfree p Hin) in Hp.
Qed.

Lemma endswith_iff (s w : string) : endswith s w = true <-> exists u, s = u +:+ w.
Proof.
  induction s as [|c s IH]; cbn [endswith].
  - rewrite orb_false_r, String.eqb_eq. split.
    + intros <-. by exists "".
    + intros [u H]. symmetry in H. by apply app_eq_nil in H as [_ ->].
  - rewrite orb_true_iff, String.eqb_eq, IH. split.
    + intros [<-|[u ->]]; [by exists ""|by exists (String c u)].
    + intros [[|d u] H].
      * left. by rewrite app_nil_l in H.
      * right. rewrite app_cons in H. injection H as _ ->. by exists u.
Qed.

Lemma bad_tail_false (old new x u w v : string) :
  bad_tail old new x = false -> w <> "" -> new = u +:+ w -> x = w +:+ v ->
  exists u', old = u' +:+ w.
Proof.
  intros H Hw -> ->. induction u as [|c u IH].
  - rewrite app_nil_l in H. destruct w as [|c w]; [done|]. cbn [bad_tail] in H.
    apply orb_false_iff in H as [H _]. rewrite startswith_app in H. cbn [andb] in H.
    apply negb_false_iff in H. by apply endswith_iff.
  - rewrite app_cons in H. cbn [bad_tail] in H. apply orb_false_iff in H as [_ H].
    by apply IH.
Qed.

Lemma bad_head_false (old new x u w v : string) :
  bad_head old new x = false -> w <> "" -> x = u +:+ w -> new = w +:+ v ->
  exists v', old = w +:+ v'.
Proof.
  intros H Hw -> ->. induction u as [|c u IH].
  - rewrite app_nil_l in H. destruct w as [|c w]; [done|]. cbn [bad_head] in H.
    apply orb_false_iff in H as [H _]. rewrite startswith_app in H. cbn [andb] in H.
    apply negb_false_iff in H. by apply startswith_iff.
  - rewrite app_cons in H. cbn [bad_head] in H. apply orb_false_iff in H as [_ H].
    by apply IH.
Qed.

Lemma contains_at (a x b : string) : contains (a +:+ x +:+ b) x = true.
Proof. apply contains_iff. by exists a, b. Qed.

(** Joining the same pieces with [new] instead of [old] does not let a
    text appear to which [new] is not harmful. *)
Lemma join_keeps_out (old new x : string) (ps : list string) :
  harmful old new x = false ->
  contains (join old ps) x = false -> contains (join new ps) x = false.
Proof.
  unfold harmful. rewrite !orb_false_iff. intros [[[Hin Hout] Htail] Hhead].
  induction ps as [|p ps IH]; [done|]. destruct ps as [|q ps]; [done|].
  rewrite (join_cons old p), (join_cons new p) by done. intros Hs.
  assert (contains (join old (q :: ps)) x = false) as Hjo.
  { destruct (contains (join old (q :: ps)) x) eqn:E; [|done].
    by rewrite (contains_app_r p _ x (contains_app_r old _ x E)) in Hs. }
  specialize (IH Hjo).
  destruct (contains (p +:+ new +:+ join new (q :: ps)) x) eqn:E; [|done].
  assert (forall a b, p +:+ old +:+ join old (q :: ps) = a +:+ x +:+ b -> False) as Habsurd.
  { intros a b Hab. rewrite Hab, contains_at in Hs. done. }
  exfalso.
  destruct (contains_app_cases _ _ _ E)
    as [Hp|[Hrest|(x1 & x2 & u & v & -> & H1 & H2 & -> & Hv)]].
  - by rewrite (contains_app_l p _ x Hp) in Hs.
  - destruct (contains_app_cases _ _ _ Hrest)
      as [Hnew|[Hj|(x1 & x2 & u & v & -> & H1 & H2 & -> & Hv)]]; [congruence..|].
    destruct (bad_tail_false old _ _ u x1 x2 Htail H1 eq_refl eq_refl) as [u' ->].
    destruct ps as [|r ps].
    + simpl in Hv. subst q. apply (Habsurd (p +:+ u') v). simpl. by rewrite !app_assoc.
    + rewrite (join_cons _ q) in Hv by done.
      destruct (prefix_app_cases _ _ _ _ Hv) as [[t ->]|(x3 & H3 & -> & Hv')].
      * apply (Habsurd (p +:+ u') (t +:+ (u' +:+ x1) +:+ join (u' +:+ x1) (r :: ps))).
        rewrite (join_cons _ (x2 +:+ t)) by done. by rewrite !app_assoc.
      * destruct (prefix_app_cases _ _ _ _ Hv') as [[t Ht]|(x4 & H4 & -> & _)].
        -- destruct (bad_head_false (u' +:+ x1) _ _ (x1 +:+ q) x3 t Hhead H3) as [v' Hv''];
             [by rewrite app_assoc|done|].
           apply (Habsurd (p +:+ u') (v' +:+ join (u' +:+ x1) (r :: ps))).
           rewrite (join_cons _ q) by done. rewrite Hv'' at 2. by rewrite !app_assoc.
        -- assert (contains (x1 +:+ q +:+ (u +:+ x1) +:+ x4) (u +:+ x1) = true) as Hc;
             [|congruence].
           apply contains_iff. exists (x1 +:+ q), x4. by rewrite !app_assoc.
  - destruct (prefix_app_cases _ _ _ _ Hv) as [[t Ht]|(x3 & H3 & -> & _)].
    + destruct (bad_head_false old _ _ x1 x2 t Hhead H2 eq_refl Ht) as [v' ->].
      apply (Habsurd u (v' +:+ join (x2 +:+ v') (q :: ps))). by rewrite !app_assoc.
    + assert (contains (x1 +:+ new +:+ x3) new = true) as Hc; [|congruence].
      apply contains_at.
Qed.

(** [replace] does not bring in a text to which the new value is not
    harmful. *)
Lemma replace_keeps_out (s old new x : string) :
  old <> "" -> harmful old new x = false -> contains s x = false ->
  contains (replace s old new) x = false.
Proof.
  intros Hold Hharm Hs. rewrite replace_join by done.
  apply (join_keeps_out old); [done|]. by rewrite pieces_go_join.
Qed.

(** Replacing a value by itself changes nothing. *)
Lemma replace_go_same (fuel : nat) (old s : string) : replace_go fuel old old s = s.
Proof.
  revert s. induction fuel as [|fuel IH]; intros s; [done|]. simpl.
  destruct (strip_prefix old s) as [rest|] eqn:E.
  - rewrite IH. symmetry. by apply strip_prefix_Some.
  - destruct s as [|c s]; [done|]. by rewrite IH.
Qed.

End ReplaceFacts.

(** ** The content pass of the setup, and [to_camel] *)

Module SetupFacts.
Import Py Re World Pathlib SetupMod StrFacts PathFacts LineFacts ReplaceFacts.

(** The eight texts the setup looks for. *)
Definition placeholders : list string :=
  [OLD_PACKAGE; OLD_MOD_ID; OLD_MOD_NAME; OLD_AUTHOR;
   "TemplateMod"; "TemplateFabric"; "TemplateForge"; "TemplateNeoForge"].

(** No new value clashes with the text it stands in for, and none is
    harmful to a text replaced before it ([seen]). *)
Fixpoint settled (seen : list string) (items : list (string * string)) : bool :=
  match items with
  | [] => true
  | (old, new) :: rest =>
      negb (clash new old) && forallb (fun x => negb (harmful old new x)) seen
      && settled (old :: seen) rest
  end.

Definition compatible (a : answers) : bool := settled [] (replacements a).

(** The text with the characters [to_camel] cuts at taken out. *)
Fixpoint remove_seps (s : string) : string :=
  match s with
  | EmptyString => EmptyString
  | String c s' => if is_word_sep c then remove_seps s' else String c (remove_seps s')
  end.

(** [t] is [s] with some characters put in upper case. *)
Fixpoint raised (s t : string) : bool :=
  match s, t with
  | EmptyString, EmptyString => true
  | String c s', String d t' =>
      (Ascii.eqb d c || Ascii.eqb d (upper_char c)) && raised s' t'
  | _, _ => false
  end.

Lemma replacements_placeholders (a : answers) : map fst (replacements a) = placeholders.
Proof. reflexivity. Qed.

Lemma replace_placeholders_clean (items : list (string * string)) :
  forall (seen : list string) (text : string) (replaced : bool),
    Forall (fun old => old <> "") (map fst items) ->
    settled seen items = true ->
    Forall (fun x => contains text x = false) seen ->
    Forall (fun x => contains (replace_placeholders items text replaced).1 x = false)
           (map fst items ++ seen).
Proof.
  induction items as [|[old new] items IH]; intros seen text replaced Hne Hset Hseen; [done|].
  simpl in Hne, Hset. apply Forall_cons in Hne as [Hold Hne].
  apply andb_true_iff in Hset as [Hnew Hset].
  apply andb_true_iff in Hnew as [Hself Hothers]. apply negb_true_iff in Hself.
  rewrite forallb_forall in Hothers.
  assert (forall text' flag, Forall (fun x => contains text' x = false) (old :: seen) ->
            Forall (fun x => contains (replace_placeholders items text' flag).1 x = false)
                   (map fst ((old, new) :: items) ++ seen)) as Hstep.
  { intros text' flag Hall. specialize (IH (old :: seen) text' flag Hne Hset Hall).
    rewrite Forall_app in IH. destruct IH as [Hitems Hrest].
    apply Forall_cons in Hrest as [Ho Hs].
    simpl. constructor; [done|]. apply Forall_app. by split. }
  cbn [replace_placeholders]. destruct (contains text old) eqn:Hc.
  - apply Hstep. constructor.
    + by apply replace_removes.
    + rewrite Forall_forall in Hseen. apply Forall_forall. intros x Hx.
      apply replace_keeps_out; [done| |by apply Hseen].
      apply negb_true_iff, Hothers. by apply list_elem_of_In.
  - apply Hstep. by constructor.
Qed.

(** When the flag stays down, nothing was replaced. *)
Lemma replace_placeholders_unchanged (items : list (string * string)) (text : string) :
  (replace_placeholders items text false).2 = false ->
  (replace_placeholders items text false).1 = text.
Proof.
  assert (forall items text, (replace_placeholders items text true).2 = true) as Htrue.
  { clear. induction items as [|[old new] items IH]; intros text; [done|].
    cbn [replace_placeholders]. by destruct (contains text old). }
  revert text. induction items as [|[old new] items IH]; intros text; [done|].
  cbn [replace_placeholders]. destruct (contains text old); [|apply IH].
  intros H. by rewrite Htrue in H.
Qed.

Lemma replace_placeholders_absent (items : list (string * string)) (text : string) :
  Forall (fun old => contains text old = false) (map fst items) ->
  replace_placeholders items text false = (text, false).
Proof.
  induction items as [|[old new] items IH]; [done|]. simpl.
  intros [Hold Hrest]%Forall_cons. rewrite Hold. by apply IH.
Qed.

(** What the pass writes is the text after the eight replacements. *)
Lemma updated_file_in_tree (a : answers) (p : path) (text : string) :
  in_tree p = true -> in_git p = false ->
  updated_file a p text = (replace_placeholders (replacements a) text false).1.
Proof.
  intros Htree Hgit. unfold updated_file. rewrite Htree, Hgit. cbn [negb andb].
  pose proof (replace_placeholders_unchanged (replacements a) text) as H.
  destruct (replace_placeholders (replacements a) text false) as [text' replaced].
  destruct replaced; [done|]. symmetry. by apply H.
Qed.

Lemma updated_file_clean (a : answers) (p : path) (text old : string) :
  compatible a = true -> in_tree p = true -> in_git p = false ->
  old ∈ placeholders -> contains (updated_file a p text) old = false.
Proof.
  intros Hcompat Htree Hgit Hold. rewrite updated_file_in_tree by done.
  pose proof (replace_placeholders_clean (replacements a) [] text false) as H.
  rewrite List.app_nil_r, replacements_placeholders in H.
  assert (Forall (fun x => contains (replace_placeholders (replacements a) text false).1 x
                           = false) placeholders) as Hall.
  { apply H; [by repeat constructor|done|done]. }
  rewrite Forall_forall in Hall. by apply Hall.
Qed.

Lemma update_file_contents_lookup (a : answers) (fs : filesystem) (p : path) :
  update_file_contents a fs !! p = updated_file a p <$> fs !! p.
Proof.
  unfold update_file_contents. rewrite map_lookup_imap. by destruct (fs !! p).
Qed.

(** *** [to_camel] *)

Lemma upper_char_idempotent (c : ascii) : upper_char (upper_char c) = upper_char c.
Proof. destruct c as [[] [] [] [] [] [] [] []]; reflexivity. Qed.

Lemma upper_char_not_sep (c : ascii) :
  is_word_sep c = false -> is_word_sep (upper_char c) = false.
Proof. destruct c as [[] [] [] [] [] [] [] []]; by vm_compute. Qed.

Lemma join_empty_cons (x : string) (l : list string) : join "" (x :: l) = x +:+ join "" l.
Proof.
  destruct l as [|y l]; [by rewrite app_nil_r|]. rewrite join_cons by done.
  by rewrite app_nil_l.
Qed.

Lemma split_runs_nonempty (p : ascii -> bool) (b : bool) (s : string) :
  split_runs p b s <> [].
Proof.
  revert b. induction s as [|c s IH]; intros b; [done|]. simpl.
  destruct (p c); [destruct b; [apply IH|done]|].
  by destruct (split_runs p false s).
Qed.

(** The pieces put end to end are the text without its separators. *)
Lemma split_runs_concat (b : bool) (s : string) :
  join "" (split_runs is_word_sep b s) = remove_seps s.
Proof.
  revert b. induction s as [|c s IH]; intros b; [done|]. simpl.
  destruct (is_word_sep c).
  - destruct b; [apply IH|]. by rewrite join_empty_cons, app_nil_l, IH.
  - specialize (IH false). pose proof (split_runs_nonempty is_word_sep false s) as Hne.
    destruct (split_runs is_word_sep false s) as [|piece rest]; [done|].
    rewrite join_empty_cons in *. by rewrite app_cons, IH.
Qed.

Lemma raised_refl (s : string) : raised s s = true.
Proof. induction s as [|c s IH]; [done|]. simpl. by rewrite Ascii.eqb_refl, IH. Qed.

Lemma raised_app (a a' b b' : string) :
  raised a a' = true -> raised b b' = true -> raised (a +:+ b) (a' +:+ b') = true.
Proof.
  revert a'. induction a as [|c a IH]; intros [|d a'] Ha Hb; try done.
  rewrite !app_cons. simpl in *. apply andb_true_iff in Ha as [-> Ha]. by apply IH.
Qed.

Lemma raised_capitalise (p : string) : raised p (capitalise p) = true.
Proof.
  destruct p as [|c p]; [done|]. simpl.
  by rewrite Ascii.eqb_refl, orb_true_r, raised_refl.
Qed.

Lemma raised_pieces (ps : list string) :
  raised (join "" ps) (join "" (map capitalise ps)) = true.
Proof.
  induction ps as [|p ps IH]; [done|].
  change (map capitalise (p :: ps)) with (capitalise p :: map capitalise ps).
  rewrite !join_empty_cons. apply raised_app; [apply raised_capitalise|done].
Qed.

Lemma raised_no_sep (s t : string) :
  raised s t = true -> all_chars (fun c => negb (is_word_sep c)) s = true ->
  all_chars (fun c => negb (is_word_sep c)) t = true.
Proof.
  revert t. induction s as [|c s IH]; intros [|d t] Hr Hs; try done.
  simpl in Hr. apply andb_true_iff in Hr as [Hd Hr].
  rewrite all_chars_cons in *. apply andb_true_iff in Hs as [Hc Hs].
  rewrite (IH t Hr Hs), andb_true_r. apply negb_true_iff in Hc. apply negb_true_iff.
  apply orb_true_iff in Hd as [->%Ascii.eqb_eq| ->%Ascii.eqb_eq]; [done|].
  by apply upper_char_not_sep.
Qed.

Lemma remove_seps_no_sep (s : string) :
  all_chars (fun c => negb (is_word_sep c)) (remove_seps s) = true.
Proof.
  induction s as [|c s IH]; [done|]. simpl. destruct (is_word_sep c) eqn:E; [done|].
  by rewrite all_chars_cons, E, IH.
Qed.

Lemma replace_same (s old : string) : old <> "" -> replace s old old = s.
Proof.
  intros Hold. unfold replace. apply is_empty_false in Hold. rewrite Hold.
  apply replace_go_same.
Qed.

Lemma replace_placeholders_identity (items : list (string * string)) (text : string) :
  forall replaced,
    Forall (fun item => item.1 <> "" /\ (item.2 = item.1 \/ contains text item.1 = false)) items ->
    (replace_placeholders items text replaced).1 = text.
Proof.
  induction items as [|[old new] items IH]; intros replaced Hall; [done|].
  apply Forall_cons in Hall as [[Hne Hitem] Hall]. cbn [replace_placeholders].
  destruct (contains text old) eqn:Hc; [|by apply IH].
  destruct Hitem as [Hsame|Habsent]; simpl in *; [|congruence].
  subst new. rewrite replace_same by done. by apply IH.
Qed.

Lemma contains_false_sub (text big sub : string) :
  contains text sub = false -> contains big sub = true -> contains text big = false.
Proof.
  intros Hsub Hbig. destruct (contains text big) eqn:E; [|done].
  by rewrite (contains_trans text big sub E Hbig) in Hsub.
Qed.

(** *** Properties of the content pass *)

Module Sample.

Definition answers : SetupMod.answers := Answers "net.foo.bar" "foobar" "Foo Bar" "bob".

Definition main_java : path := of_str "common/src/main/java/com/example/modtemplate/TemplateMod.java".

Definition tree : filesystem :=
  {[ main_java := "package com.example.modtemplate; // yourname: examplemod, TemplateMod" ]}.

End Sample.

(** X9.  When no new value clashes with its own placeholder (neither
    lies in the other, neither ends as the other begins) and none is
    harmful to a placeholder replaced before it ([compatible]), then
    after the content pass no file of the tree outside [.git] holds any
    of the eight placeholders. *)
Theorem content_pass_removes_placeholders (a : answers) (fs : filesystem) (p : path)
    (text' old : string) :
  compatible a = true ->
  update_file_contents a fs !! p = Some text' ->
  in_tree p = true -> in_git p = false ->
  old ∈ placeholders ->
  contains text' old = false.
Proof.
  intros Hcompat Hlookup Htree Hgit Hold. rewrite update_file_contents_lookup in Hlookup.
  destruct (fs !! p) as [text|]; [|done]. injection Hlookup as <-.
  by apply updated_file_clean.
Qed.

Lemma content_pass_removes_placeholders_witness :
  contains
    (updated_file Sample.answers Sample.main_java
       "package com.example.modtemplate; // yourname: examplemod, TemplateMod")
    "examplemod" = false.
Proof.
  apply (content_pass_removes_placeholders Sample.answers Sample.tree Sample.main_java).
  - vm_compute. reflexivity.
  - rewrite update_file_contents_lookup. unfold Sample.tree.
    rewrite lookup_singleton_eq. reflexivity.
  - vm_compute. reflexivity.
  - vm_compute. reflexivity.
  - apply (bool_decide_unpack _). vm_compute. reflexivity.
Defined.

(** X10.  The content pass keeps the set of files, and leaves as it is
    every file below [.git], every file outside the tree, and every file
    whose text holds none of the eight placeholders. *)
Theorem content_pass_frame (a : answers) (fs : filesystem) (p : path) :
  (fs !! p = None -> update_file_contents a fs !! p = None)
  /\ (forall text, fs !! p = Some text ->
        (exists text', update_file_contents a fs !! p = Some text')
        /\ (in_git p = true \/ in_tree p = false
            \/ Forall (fun old => contains text old = false) placeholders ->
            update_file_contents a fs !! p = Some text)).
Proof.
  rewrite update_file_contents_lookup. split; [by intros ->|].
  intros text ->. split; [by eexists|]. simpl. intros H. f_equal. unfold updated_file.
  destruct (in_tree p) eqn:Htree; [|done]. destruct (in_git p) eqn:Hgit; [done|].
  destruct H as [H|[H|H]]; [done..|]. cbn [negb andb].
  rewrite replace_placeholders_absent; [done|]. by rewrite replacements_placeholders.
Qed.

(** X11.  When the user accepts the four defaults, a file without the
    text [Template] is left as it is: the placeholders for package, mod
    id, mod name and author stay in it. *)
Theorem default_answers_leave_text (a : answers) (p : path) (text : string) :
  typed_package a = "" -> typed_mod_id a = "" ->
  typed_mod_name a = "" -> typed_author a = "" ->
  contains text "Template" = false ->
  updated_file a p text = text.
Proof.
  destruct a as [pkg id name auth]. simpl. intros -> -> -> -> Htemplate.
  unfold updated_file. destruct (in_tree p && negb (in_git p)); [|done].
  pose proof (replace_placeholders_identity
                (replacements (Answers "" "" "" "")) text false) as H.
  destruct (replace_placeholders (replacements (Answers "" "" "" "")) text false)
    as [text' replaced].
  simpl in H. rewrite H; [by destruct replaced|].
  repeat (constructor; [split; [done|]; first [by left|right]; simpl;
                        try (apply (contains_false_sub text _ "Template"); [done|reflexivity])|]).
  constructor.
Qed.

Lemma default_answers_leave_text_witness :
  updated_file (Answers "" "" "" "") Sample.main_java "author = yourname; id = examplemod"
  = "author = yourname; id = examplemod".
Proof.
  apply (default_answers_leave_text (Answers "" "" "" "")); reflexivity.
Defined.

(** X12.  [to_camel] drops every underscore, dash and white space and
    changes nothing else but the case of characters, which it only ever
    raises: no capital of the value is lost. *)
Theorem to_camel_raises_letters (value : string) :
  all_chars (fun c => negb (is_word_sep c)) (to_camel value) = true
  /\ raised (remove_seps value) (to_camel value) = true.
Proof.
  assert (raised (remove_seps value) (to_camel value) = true) as H.
  { unfold to_camel, split_word_seps. rewrite <- (split_runs_concat false value).
    apply raised_pieces. }
  split; [|done]. apply (raised_no_sep _ _ H), remove_seps_no_sep.
Qed.

End SetupFacts.
